(** * CleanSlate: the analysis engine of [lib/scanner.js], the commenter
      and the reporter

    A shallow embedding of [scanFile] and of its five detectors
    ([checkForTodoComments], [checkForUnusedCode], [checkForLongFunctions],
    [checkForDeeplyNestedCode], [checkForDeadCode]) together with the parts
    of the JavaScript runtime and of the acorn / acorn-walk libraries they
    rely on, of [scanDirectory], of [addInlineComments] and
    [generateComment] of [lib/commenter.js] and of [generateReport] of
    [lib/reporter.js], and of the runs of [scanFile] in a runtime that
    keeps the state of its regular expression objects, followed by the
    properties of the engine, of the commenter and of the reporter. *)

From Stdlib Require Import List String Ascii Arith Bool Lia PeanoNat.
From Stdlib Require Import DecimalString Permutation Sorted ZArith.
Import ListNotations.
Open Scope string_scope.
Open Scope nat_scope.
Set Warnings "-register-all".

(* ================================================================== *)
(** * The JavaScript string operations used by the scanner            *)
(* ================================================================== *)

Module JS.

(** The line feed, the only separator of [content.split('\n')]. *)
Definition LF : ascii := "010"%char.

(** [s.split('\n')]: the pieces of [s] between line feeds; never empty. *)
Fixpoint split_LF (s : string) : list string :=
  match s with
  | EmptyString => [""]
  | String ch rest =>
      if Ascii.eqb ch LF then "" :: split_LF rest
      else match split_LF rest with
           | piece :: pieces => String ch piece :: pieces
           | [] => [String ch ""]
           end
  end.

(** [s.slice(0, index)] for a non-negative [index]. *)
Definition slice0 (s : string) (index : nat) : string := substring 0 index s.

(** [lines[i] || ''] for an integer index that may be negative: the
    scanner computes the index as [line - 1], so it is given here by the
    line itself. A missing element is [undefined], which [||] replaces by
    the empty string (as it does an empty line). *)
Definition lineOr (lines : list string) (line : nat) : string :=
  match line with
  | 0 => ""
  | S i => nth i lines ""
  end.

(** [String(n)] for a non-negative integer, as template literals render it. *)
Definition ofNumber (n : nat) : string := NilEmpty.string_of_uint (Nat.to_uint n).

(** Rendering of a possibly [undefined] string inside a template literal. *)
Definition ofMaybe (s : option string) : string :=
  match s with Some s => s | None => "undefined" end.

Definition lowerChar (ch : ascii) : ascii :=
  let n := nat_of_ascii ch in
  if ((65 <=? n) && (n <=? 90))%nat then ascii_of_nat (n + 32) else ch.

Definition upperChar (ch : ascii) : ascii :=
  let n := nat_of_ascii ch in
  if ((97 <=? n) && (n <=? 122))%nat then ascii_of_nat (n - 32) else ch.

(** [s.toLowerCase()] on the code units below 128. *)
Fixpoint toLowerCase (s : string) : string :=
  match s with
  | EmptyString => EmptyString
  | String ch rest => String (lowerChar ch) (toLowerCase rest)
  end.

(** [lines.join('\n')]. *)
Fixpoint join_LF (lines : list string) : string :=
  match lines with
  | [] => ""
  | [l] => l
  | l :: rest => l ++ String LF (join_LF rest)
  end.

(** [s.includes(t)]. *)
Fixpoint includes (t s : string) : bool :=
  prefix t s || match s with
                | EmptyString => false
                | String _ rest => includes t rest
                end.

End JS.

(* ================================================================== *)
(** * Issues                                                           *)
(* ================================================================== *)

(** The object literal pushed by every detector:
    [{ type, filePath, line, message, code }]. *)
Record Issue : Type := mkIssue {
  type : string;
  filePath : string;
  line : nat;
  message : string;
  code : string
}.

(** The seven values of [type], under the names the specification gives
    to the issue kinds. *)
Definition UnusedVariable : string := "Unused Variable".
Definition UnusedFunction : string := "Unused Function".
Definition LongFunction : string := "Long Function".
Definition DeepNesting : string := "Deeply Nested Code".
Definition UnreachableCode : string := "Dead Code".
Definition PendingWork : string := "TODO/FIXME Comment".
Definition SyntaxError : string := "Syntax Error".

(** [getLineNumberFromIndex(content, index)]:
    [content.slice(0, index).split('\n').length]. *)
Definition getLineNumberFromIndex (content : string) (index : nat) : nat :=
  let lines := JS.split_LF (JS.slice0 content index) in
  List.length lines.

(* ================================================================== *)
(** * The syntax tree produced by acorn                                *)
(* ================================================================== *)

Module ESTree.

(** [start] and [end] of a node: offsets into the source text. *)
Record Span : Type := mkSpan { start : nat; end_ : nat }.

(** The ESTree nodes the detectors distinguish, each with the child
    slots acorn gives it. A property name that is not computed
    ([obj.name], [{ name: v }]) is an identifier that no traversal of
    the scanner enters; it is kept as its text. *)
Inductive node : Type :=
| Program (sp : Span) (body : list node)
| ExpressionStatement (sp : Span) (expression : node)
| BlockStatement (sp : Span) (body : list node)
| ReturnStatement (sp : Span) (argument : option node)
| IfStatement (sp : Span) (test consequent : node) (alternate : option node)
| ForStatement (sp : Span) (init test update : option node) (body : node)
| WhileStatement (sp : Span) (test body : node)
| DoWhileStatement (sp : Span) (body test : node)
| ForInStatement (sp : Span) (left right body : node)
| ForOfStatement (sp : Span) (left right body : node)
| VariableDeclaration (sp : Span) (declarations : list node)
| VariableDeclarator (sp : Span) (id : node) (init : option node)
| FunctionDeclaration (sp : Span) (id : option node) (params : list node) (body : node)
| FunctionExpression (sp : Span) (id : option node) (params : list node) (body : node)
| ArrowFunctionExpression (sp : Span) (params : list node) (body : node) (expression : bool)
| TryStatement (sp : Span) (block : node) (handler finalizer : option node)
| CatchClause (sp : Span) (param : option node) (body : node)
| Identifier (sp : Span) (name : string)
| Literal (sp : Span) (raw : string)
| CallExpression (sp : Span) (callee : node) (arguments : list node)
| AssignmentExpression (sp : Span) (left right : node)
| MemberExpression (sp : Span) (object : node) (property : node + string)
| ObjectExpression (sp : Span) (properties : list node)
| Property (sp : Span) (key : node + string) (value : node)
| ArrayPattern (sp : Span) (elements : list (option node)).

(** [node.type]. *)
Definition type_of (n : node) : string :=
  match n with
  | Program _ _ => "Program"
  | ExpressionStatement _ _ => "ExpressionStatement"
  | BlockStatement _ _ => "BlockStatement"
  | ReturnStatement _ _ => "ReturnStatement"
  | IfStatement _ _ _ _ => "IfStatement"
  | ForStatement _ _ _ _ _ => "ForStatement"
  | WhileStatement _ _ _ => "WhileStatement"
  | DoWhileStatement _ _ _ => "DoWhileStatement"
  | ForInStatement _ _ _ _ => "ForInStatement"
  | ForOfStatement _ _ _ _ => "ForOfStatement"
  | VariableDeclaration _ _ => "VariableDeclaration"
  | VariableDeclarator _ _ _ => "VariableDeclarator"
  | FunctionDeclaration _ _ _ _ => "FunctionDeclaration"
  | FunctionExpression _ _ _ _ => "FunctionExpression"
  | ArrowFunctionExpression _ _ _ _ => "ArrowFunctionExpression"
  | TryStatement _ _ _ _ => "TryStatement"
  | CatchClause _ _ _ => "CatchClause"
  | Identifier _ _ => "Identifier"
  | Literal _ _ => "Literal"
  | CallExpression _ _ _ => "CallExpression"
  | AssignmentExpression _ _ _ => "AssignmentExpression"
  | MemberExpression _ _ _ => "MemberExpression"
  | ObjectExpression _ _ => "ObjectExpression"
  | Property _ _ _ => "Property"
  | ArrayPattern _ _ => "ArrayPattern"
  end.

Definition span_of (n : node) : Span :=
  match n with
  | Program sp _ | ExpressionStatement sp _ | BlockStatement sp _
  | ReturnStatement sp _ | IfStatement sp _ _ _ | ForStatement sp _ _ _ _
  | WhileStatement sp _ _ | DoWhileStatement sp _ _
  | ForInStatement sp _ _ _ | ForOfStatement sp _ _ _
  | VariableDeclaration sp _ | VariableDeclarator sp _ _
  | FunctionDeclaration sp _ _ _ | FunctionExpression sp _ _ _
  | ArrowFunctionExpression sp _ _ _ | TryStatement sp _ _ _
  | CatchClause sp _ _ | Identifier sp _ | Literal sp _
  | CallExpression sp _ _ | AssignmentExpression sp _ _
  | MemberExpression sp _ _ | ObjectExpression sp _ | Property sp _ _
  | ArrayPattern sp _ => sp
  end.

(** [node.start] and [node.end]. *)
Definition node_start (n : node) : nat := start (span_of n).
Definition node_end (n : node) : nat := end_ (span_of n).

(** [node.name]: defined on identifiers only. *)
Definition name_of (n : node) : option string :=
  match n with
  | Identifier _ name => Some name
  | _ => None
  end.

(** [a === b] on nodes. acorn allocates one object per syntax node, and
    two different nodes of one tree differ in their type or in their
    source range, so that identity is decided by these. *)
Definition same (a b : node) : bool :=
  String.eqb (type_of a) (type_of b)
  && Nat.eqb (node_start a) (node_start b)
  && Nat.eqb (node_end a) (node_end b).

Definition same_opt (a : option node) (b : node) : bool :=
  match a with Some a => same a b | None => false end.

(** ** A node seen as a JavaScript object

    What [for (const key in node)] finds under each key that can hold an
    object: one node (or [null]), or an array of nodes (or of [null]s,
    for the holes of an array pattern). The keys come in the order in
    which acorn assigns them. The remaining keys hold strings, numbers
    and booleans. *)
Inductive prop (A : Type) : Type :=
| PNode (child : option A)
| PArray (children : list (option A)).
Arguments PNode {A} child.
Arguments PArray {A} children.

Definition arr {A} (r : node -> A) (l : list node) : prop A :=
  PArray (map (fun child => Some (r child)) l).
Definition one {A} (r : node -> A) (child : node) : prop A := PNode (Some (r child)).
Definition opt {A} (r : node -> A) (child : option node) : prop A :=
  PNode (option_map r child).
Definition keyed {A} (r : node -> A) (k : node + string) : prop A :=
  match k with inl child => PNode (Some (r child)) | inr _ => PNode None end.

Definition propsWith {A} (r : node -> A) (n : node) : list (string * prop A) :=
  match n with
  | Program _ body => [("body", arr r body)]
  | ExpressionStatement _ e => [("expression", one r e)]
  | BlockStatement _ body => [("body", arr r body)]
  | ReturnStatement _ a => [("argument", opt r a)]
  | IfStatement _ t c a =>
      [("test", one r t); ("consequent", one r c); ("alternate", opt r a)]
  | ForStatement _ i t u b =>
      [("init", opt r i); ("test", opt r t); ("update", opt r u); ("body", one r b)]
  | WhileStatement _ t b => [("test", one r t); ("body", one r b)]
  | DoWhileStatement _ b t => [("body", one r b); ("test", one r t)]
  | ForInStatement _ l rt b => [("left", one r l); ("right", one r rt); ("body", one r b)]
  | ForOfStatement _ l rt b => [("left", one r l); ("right", one r rt); ("body", one r b)]
  | VariableDeclaration _ ds => [("declarations", arr r ds)]
  | VariableDeclarator _ i init => [("id", one r i); ("init", opt r init)]
  | FunctionDeclaration _ i ps b => [("id", opt r i); ("params", arr r ps); ("body", one r b)]
  | FunctionExpression _ i ps b => [("id", opt r i); ("params", arr r ps); ("body", one r b)]
  | ArrowFunctionExpression _ ps b _ => [("params", arr r ps); ("body", one r b)]
  | TryStatement _ b h f => [("block", one r b); ("handler", opt r h); ("finalizer", opt r f)]
  | CatchClause _ p b => [("param", opt r p); ("body", one r b)]
  | Identifier _ _ => []
  | Literal _ _ => []
  | CallExpression _ c args => [("callee", one r c); ("arguments", arr r args)]
  | AssignmentExpression _ l rt => [("left", one r l); ("right", one r rt)]
  | MemberExpression _ o p => [("object", one r o); ("property", keyed r p)]
  | ObjectExpression _ ps => [("properties", arr r ps)]
  | Property _ k v => [("key", keyed r k); ("value", one r v)]
  | ArrayPattern _ es => [("elements", PArray (map (option_map r) es))]
  end.

(** The object-valued properties of a node. *)
Definition props (n : node) : list (string * prop node) := propsWith (fun c => c) n.

(** Recursion over a node through its properties: [f] receives the node
    and, under each key, the results for the nodes held there. *)
Fixpoint objRec {A} (f : node -> list (string * prop A) -> A) (n : node) {struct n} : A :=
  f n (propsWith (objRec f) n).

(** ** The nodes of a tree *)

Definition option_list {A} (o : option A) : list A :=
  match o with Some a => [a] | None => [] end.

Definition prop_map {A B} (g : A -> B) (p : prop A) : prop B :=
  match p with
  | PNode child => PNode (option_map g child)
  | PArray children => PArray (map (option_map g) children)
  end.

(** What a property holds, [null]s left out. *)
Definition held {A} (p : prop A) : list A :=
  match p with
  | PNode child => option_list child
  | PArray children => flat_map (@option_list A) children
  end.

Definition isArray {A} (p : prop A) : bool :=
  match p with PArray _ => true | PNode _ => false end.

(** The child nodes of a node, in key order. *)
Definition children (n : node) : list node :=
  flat_map (fun kp => held (snd kp)) (props n).

(** Every node of the tree rooted at [n], parents before children. *)
Definition subnodes : node -> list node :=
  objRec (fun n ps => n :: flat_map (fun kp => List.concat (held (snd kp))) ps).

Definition size : node -> nat :=
  objRec (fun _ ps => S (list_sum (flat_map (fun kp => held (snd kp)) ps))).

End ESTree.

(* ================================================================== *)
(** * acorn-walk: [walk.simple] and [walk.ancestor]                    *)
(* ================================================================== *)

Module Walk.
Import ESTree.

Section Walker.
Context {S : Type}.

(** The visitor table: [visitors node ancestors st] is the effect of
    [visitors[node.type](node, st, ancestors)] on the state the
    callbacks close over, and the identity where the table has no
    entry for the type. *)
Variable visitors : node -> list node -> S -> S.

(** The continuation [c] of the walker, called with an override type.
    [base.Statement] and [base.Expression] pass the node through to
    the walker of its own type; [base.Pattern] sends an identifier to
    [base.VariablePattern], which ignores it, and no visitor runs since
    the type looked up is the override; [base.ForInit] passes a variable
    declaration through and treats anything else as an expression. *)
Definition asStatement (c : node -> S -> S) : node -> S -> S := c.
Definition asExpression (c : node -> S -> S) : node -> S -> S := c.
Definition asForInit (c : node -> S -> S) : node -> S -> S := c.
Definition asPattern (c : node -> S -> S) (n : node) (st : S) : S :=
  match n with
  | Identifier _ _ => st
  | _ => c n st
  end.

Definition whenSome (child : option node) (k : node -> S -> S) (st : S) : S :=
  match child with
  | Some child => k child st
  | None => st
  end.

Definition each (l : list node) (k : node -> S -> S) (st : S) : S :=
  fold_left (fun st child => k child st) l st.

(** [c(node, st)]: push the node on the ancestors, run the walker
    [base[node.type]] over its children, call the visitor of its
    type, pop. *)
Fixpoint c (ancestors : list node) (n : node) (st : S) {struct n} : S :=
  let ancestors := (ancestors ++ [n])%list in
  let st :=
    match n with
    | Program _ body | BlockStatement _ body =>
        each body (asStatement (c ancestors)) st
    | ExpressionStatement _ e => asExpression (c ancestors) e st
    | ReturnStatement _ a => whenSome a (asExpression (c ancestors)) st
    | IfStatement _ test consequent alternate =>
        let st := asExpression (c ancestors) test st in
        let st := asStatement (c ancestors) consequent st in
        whenSome alternate (asStatement (c ancestors)) st
    | ForStatement _ i t u b =>
        let st := whenSome i (asForInit (c ancestors)) st in
        let st := whenSome t (asExpression (c ancestors)) st in
        let st := whenSome u (asExpression (c ancestors)) st in
        asStatement (c ancestors) b st
    | WhileStatement _ t b | DoWhileStatement _ b t =>
        let st := asExpression (c ancestors) t st in
        asStatement (c ancestors) b st
    | ForInStatement _ l r b | ForOfStatement _ l r b =>
        let st := asForInit (c ancestors) l st in
        let st := asExpression (c ancestors) r st in
        asStatement (c ancestors) b st
    | VariableDeclaration _ ds => each ds (c ancestors) st
    | VariableDeclarator _ i init =>
        let st := asPattern (c ancestors) i st in
        whenSome init (asExpression (c ancestors)) st
    | FunctionDeclaration _ i ps b | FunctionExpression _ i ps b =>
        let st := whenSome i (asPattern (c ancestors)) st in
        let st := each ps (asPattern (c ancestors)) st in
        asStatement (c ancestors) b st
    | ArrowFunctionExpression _ ps b expression =>
        let st := each ps (asPattern (c ancestors)) st in
        if expression then asExpression (c ancestors) b st
        else asStatement (c ancestors) b st
    | TryStatement _ b h f =>
        let st := asStatement (c ancestors) b st in
        let st := whenSome h (c ancestors) st in
        whenSome f (asStatement (c ancestors)) st
    | CatchClause _ p b =>
        let st := whenSome p (asPattern (c ancestors)) st in
        asStatement (c ancestors) b st
    | Identifier _ _ | Literal _ _ => st
    | CallExpression _ callee args =>
        let st := asExpression (c ancestors) callee st in
        each args (asExpression (c ancestors)) st
    | AssignmentExpression _ l r =>
        let st := asPattern (c ancestors) l st in
        asExpression (c ancestors) r st
    | MemberExpression _ o p =>
        let st := asExpression (c ancestors) o st in
        match p with
        | inl computed => asExpression (c ancestors) computed st
        | inr _ => st
        end
    | ObjectExpression _ ps => each ps (c ancestors) st
    | Property _ k v =>
        let st := match k with
                  | inl computed => asExpression (c ancestors) computed st
                  | inr _ => st
                  end in
        asExpression (c ancestors) v st
    | ArrayPattern _ es =>
        fold_left (fun st elt => whenSome elt (asPattern (c ancestors)) st) es st
    end in
  visitors n ancestors st.

(** [walk.ancestor(ast, visitors)]. *)
Definition ancestor (ast : node) (st : S) : S := c [] ast st.

End Walker.

(** [walk.simple(ast, visitors)]: the same traversal, the visitors
    receiving the node only. *)
Definition simple {S} (visitors : node -> S -> S) (ast : node) (st : S) : S :=
  c (fun n _ => visitors n) [] ast st.

(** The calls a walk makes to its visitors, in order: each node with
    its ancestors, the node itself last among them. *)
Definition record (n : node) (ancestors : list node) (acc : list (node * list node))
    : list (node * list node) :=
  (acc ++ [(n, ancestors)])%list.

Definition visits (ancestors : list node) (n : node) : list (node * list node) :=
  c record ancestors n [].

Definition visited (n : node) : list node := map fst (visits [] n).

(** The children that [base[node.type]] hands to [c], in its order, each
    with whether it does so under the override "Pattern". *)
Definition base (n : node) : list (bool * node) :=
  let plain := pair false in
  let pattern := pair true in
  match n with
  | Program _ body | BlockStatement _ body => map plain body
  | ExpressionStatement _ e => [plain e]
  | ReturnStatement _ a => map plain (option_list a)
  | IfStatement _ t cs alt => [plain t; plain cs] ++ map plain (option_list alt)
  | ForStatement _ i t u b =>
      map plain (option_list i ++ option_list t ++ option_list u) ++ [plain b]
  | WhileStatement _ t b | DoWhileStatement _ b t => [plain t; plain b]
  | ForInStatement _ l r b | ForOfStatement _ l r b => [plain l; plain r; plain b]
  | VariableDeclaration _ ds => map plain ds
  | VariableDeclarator _ i init => pattern i :: map plain (option_list init)
  | FunctionDeclaration _ i ps b | FunctionExpression _ i ps b =>
      map pattern (option_list i) ++ map pattern ps ++ [plain b]
  | ArrowFunctionExpression _ ps b _ => map pattern ps ++ [plain b]
  | TryStatement _ b h f =>
      plain b :: map plain (option_list h) ++ map plain (option_list f)
  | CatchClause _ p b => map pattern (option_list p) ++ [plain b]
  | Identifier _ _ | Literal _ _ => []
  | CallExpression _ callee args => plain callee :: map plain args
  | AssignmentExpression _ l r => [pattern l; plain r]
  | MemberExpression _ o p =>
      plain o :: match p with inl computed => [plain computed] | inr _ => [] end
  | ObjectExpression _ ps => map plain ps
  | Property _ k v =>
      match k with inl computed => [plain computed] | inr _ => [] end ++ [plain v]
  | ArrayPattern _ es => map pattern (flat_map (@option_list node) es)
  end%list.

Definition isIdentifier (n : node) : bool :=
  match n with Identifier _ _ => true | _ => false end.

(** The visits made below one child of [base]: none for an identifier
    walked as a pattern. *)
Definition stepVisits (ancestors : list node) (child : bool * node)
    : list (node * list node) :=
  if fst child && isIdentifier (snd child) then [] else visits ancestors (snd child).

Definition stepVisited (child : bool * node) : list node :=
  if fst child && isIdentifier (snd child) then [] else visited (snd child).

(** A call to the visitors. *)
Definition call {S} (visitors : node -> list node -> S -> S) (st : S)
    (visit : node * list node) : S :=
  visitors (fst visit) (snd visit) st.

(** One step of a walk: [c] on a child under its override. *)
Definition step {S} (c : node -> S -> S) (st : S) (child : bool * node) : S :=
  if fst child then asPattern c (snd child) st else c (snd child) st.

End Walk.

(* ================================================================== *)
(** * The regular expression of the comment scanner                    *)
(* ================================================================== *)

(** [todoRegex], matched the way the loop
    [while ((match = todoRegex.exec(content)) !== null)] drives it. Every
    quantifier of the pattern is greedy; white space cannot start the
    marker, and what comes after the separators and after the text
    matches whatever is left, so that a match never has to give characters
    back: the matcher reads the text once, left to right. *)
Module TodoRegex.

(** The regular expression literal, with its flags. *)
Definition source : string := "/\/\/\s*(TODO|FIXME)[:|\s]*(.*)/gi".

Definition codeIn (codes : list nat) (ch : ascii) : bool :=
  existsb (Nat.eqb (nat_of_ascii ch)) codes.

(** [\s] on the code units below 256: tab, line feed, vertical tab,
    form feed, carriage return, space, no-break space. *)
Definition isSpace : ascii -> bool := codeIn [9; 10; 11; 12; 13; 32; 160].

(** The class [[:|\s]]: a colon, a vertical bar, or white space. *)
Definition isSeparator (ch : ascii) : bool := codeIn [58; 124] ch || isSpace ch.

(** [.] matches anything but a line terminator. *)
Definition isDot (ch : ascii) : bool := negb (codeIn [10; 13] ch).

Fixpoint dropWhile (p : ascii -> bool) (s : string) : string :=
  match s with
  | String ch rest => if p ch then dropWhile p rest else s
  | EmptyString => EmptyString
  end.

Fixpoint takeWhile (p : ascii -> bool) (s : string) : string :=
  match s with
  | String ch rest => if p ch then String ch (takeWhile p rest) else EmptyString
  | EmptyString => EmptyString
  end.

(** A literal of capital letters against the head of [s] under the [i]
    flag: the matched text and what follows it. *)
Fixpoint literal (word s : string) : option (string * string) :=
  match word, s with
  | EmptyString, _ => Some (EmptyString, s)
  | String w word, String ch rest =>
      if Ascii.eqb (JS.upperChar ch) w then
        match literal word rest with
        | Some (text, rest) => Some (String ch text, rest)
        | None => None
        end
      else None
  | String _ _, EmptyString => None
  end.

(** The group [(TODO|FIXME)]. *)
Definition marker (s : string) : option (string * string) :=
  match literal "TODO" s with
  | Some r => Some r
  | None => literal "FIXME" s
  end.

(** A successful [exec]: [match.index], [match[1]], [match[2]] and the
    length of [match[0]]. *)
Record Match : Type := mkMatch {
  index : nat;
  group1 : string;
  group2 : string;
  extent : nat
}.

(** The pattern against the text that starts at offset [at_]. *)
Definition matchHere (at_ : nat) (s : string) : option Match :=
  match s with
  | String slash1 (String slash2 afterSlashes) =>
      if Ascii.eqb slash1 "/" && Ascii.eqb slash2 "/" then
        let beforeMarker := dropWhile isSpace afterSlashes in
        match marker beforeMarker with
        | Some (found, afterMarker) =>
            let beforeText := dropWhile isSeparator afterMarker in
            let text := takeWhile isDot beforeText in
            Some {| index := at_;
                    group1 := found;
                    group2 := text;
                    extent := String.length s - String.length beforeText
                              + String.length text |}
        | None => None
        end
      else None
  | _ => None
  end.

(** The successive results of [exec] on one text: the search resumes
    at [lastIndex], the end of the previous match. [toSkip] counts the
    characters left before [lastIndex]. *)
Fixpoint execFrom (s : string) (at_ toSkip : nat) : list Match :=
  match s with
  | EmptyString => []
  | String _ rest =>
      match toSkip with
      | S k => execFrom rest (S at_) k
      | 0 =>
          match matchHere at_ s with
          | Some m => m :: execFrom rest (S at_) (extent m - 1)
          | None => execFrom rest (S at_) 0
          end
      end
  end.

Definition execAll (content : string) : list Match := execFrom content 0 0.

End TodoRegex.

(* ================================================================== *)
(** * The detectors                                                    *)
(* ================================================================== *)

Import ESTree.

(** The array [issues], to which every detector pushes. *)
Definition push (issues : list Issue) (issue : Issue) : list Issue :=
  (issues ++ [issue])%list.

(** ** [checkForTodoComments] *)

Definition checkForTodoComments (content filePath : string) (lines : list string)
    (issues : list Issue) : list Issue :=
  fold_left
    (fun issues m =>
       let lineNumber := getLineNumberFromIndex content (TodoRegex.index m) in
       push issues
         {| type := "TODO/FIXME Comment";
            filePath := filePath;
            line := lineNumber;
            message := "Found " ++ TodoRegex.group1 m ++ " comment: "
                       ++ (if String.eqb (TodoRegex.group2 m) ""
                           then "No description provided"
                           else TodoRegex.group2 m);
            code := JS.lineOr lines lineNumber |})
    (TodoRegex.execAll content) issues.

(** ** [checkForUnusedCode] *)

(** The values of the [declarations] map: [{ type, line, used }]. *)
Module Info.
Record t : Type := make { type : string; line : nat; used : bool }.
Definition markUsed (info : t) : t :=
  {| type := type info; line := line info; used := true |}.
End Info.

(** A JavaScript [Map] with string keys: the entries in insertion order.
    [set] on a present key replaces its value where it stands. *)
Module JSMap.
Definition t (V : Type) : Type := list (string * V).

Fixpoint set {V} (key : string) (value : V) (m : t V) : t V :=
  match m with
  | [] => [(key, value)]
  | (k, v) :: rest =>
      if String.eqb k key then (key, value) :: rest
      else (k, v) :: set key value rest
  end.

Fixpoint get {V} (key : string) (m : t V) : option V :=
  match m with
  | [] => None
  | (k, v) :: rest => if String.eqb k key then Some v else get key rest
  end.

Definition has {V} (key : string) (m : t V) : bool :=
  match get key m with Some _ => true | None => false end.

(** [m.get(key).field = ...]: the value under [key] changed in place. *)
Fixpoint update {V} (key : string) (f : V -> V) (m : t V) : t V :=
  match m with
  | [] => []
  | (k, v) :: rest =>
      if String.eqb k key then (k, f v) :: rest
      else (k, v) :: update key f rest
  end.
(** Successive [set]s. *)
Definition setAll {V} (l : list (string * V)) (m : t V) : t V :=
  fold_left (fun m kv => set (fst kv) (snd kv) m) l m.
End JSMap.

(** A JavaScript [Set] of strings, in insertion order. *)
Definition setAdd (x : string) (s : list string) : list string :=
  if existsb (String.eqb x) s then s else (s ++ [x])%list.

(** The visitors of the first pass. *)
Definition declarationVisitors (content : string) (node : node)
    (declarations : JSMap.t Info.t) : JSMap.t Info.t :=
  match node with
  | VariableDeclarator _ (Identifier _ name) _ =>
      let line := getLineNumberFromIndex content (node_start node) in
      JSMap.set name {| Info.type := "Variable"; Info.line := line; Info.used := false |}
        declarations
  | FunctionDeclaration _ (Some (Identifier _ name)) _ _ =>
      let line := getLineNumberFromIndex content (node_start node) in
      JSMap.set name {| Info.type := "Function"; Info.line := line; Info.used := false |}
        declarations
  | _ => declarations
  end.

(** [ancestors.some(...)]: is the identifier the [id] of a declarator or
    of a function declaration above it? *)
Definition isDeclaration (node : node) (ancestors : list ESTree.node) : bool :=
  existsb
    (fun ancestor =>
       match ancestor with
       | VariableDeclarator _ id _ => same id node
       | FunctionDeclaration _ id _ _ => same_opt id node
       | _ => false
       end)
    ancestors.

(** The visitor of the second pass; its state is the pair of
    [declarations] and [references]. *)
Definition referenceVisitors (node : node) (ancestors : list ESTree.node)
    (st : JSMap.t Info.t * list string) : JSMap.t Info.t * list string :=
  let (declarations, references) := st in
  match node with
  | Identifier _ name =>
      if negb (isDeclaration node ancestors) && JSMap.has name declarations
      then (JSMap.update name Info.markUsed declarations, setAdd name references)
      else st
  | _ => st
  end.

(** [name === 'exports' || name === 'module' || name === 'require']. *)
Definition isSpecialName (name : string) : bool :=
  String.eqb name "exports" || String.eqb name "module" || String.eqb name "require".

(** The callback of [declarations.forEach]. *)
Definition reportUnused (filePath : string) (lines : list string)
    (issues : list Issue) (entry : string * Info.t) : list Issue :=
  let (name, info) := entry in
  if isSpecialName name then issues
  else if negb (Info.used info) then
    push issues
      {| type := "Unused " ++ Info.type info;
         filePath := filePath;
         line := Info.line info;
         message := "Unused " ++ JS.toLowerCase (Info.type info) ++ " '" ++ name ++ "'";
         code := JS.lineOr lines (Info.line info) |}
  else issues.

Definition checkForUnusedCode (ast : node) (content filePath : string)
    (lines : list string) (issues : list Issue) : list Issue :=
  let declarations := Walk.simple (declarationVisitors content) ast [] in
  let (declarations, references) :=
    Walk.ancestor referenceVisitors ast (declarations, []) in
  fold_left (reportUnused filePath lines) declarations issues.

(** ** [findParentNode] *)

(** The visitors of [findParentNode]; the state is [result]. *)
Definition parentVisitors (targetNode node : node) (ancestors : list ESTree.node)
    (result : option ESTree.node) : option ESTree.node :=
  match node with
  | VariableDeclarator _ _ init => if same_opt init targetNode then Some node else result
  | AssignmentExpression _ _ rhs => if same rhs targetNode then Some node else result
  | Property _ _ value => if same value targetNode then Some node else result
  | _ => result
  end.

Definition findParentNode (ast targetNode : node) : option node :=
  Walk.ancestor (parentVisitors targetNode) ast None.

(** ** [checkForLongFunctions] *)

Definition MAX_FUNCTION_LENGTH : nat := 50.

(** [parentNode && parentNode.type === 'VariableDeclarator' && parentNode.id
    ? parentNode.id.name : 'anonymous'], as the template literal shows it. *)
Definition functionNameFrom (parentNode : option node) : string :=
  match parentNode with
  | Some (VariableDeclarator _ id _) => JS.ofMaybe (name_of id)
  | _ => "anonymous"
  end.

(** The three visitors of [checkForLongFunctions]. *)
Definition longFunctionVisitors (ast : node) (content filePath : string)
    (lines : list string) (node : node) (issues : list Issue) : list Issue :=
  let startLine := getLineNumberFromIndex content (node_start node) in
  let endLine := getLineNumberFromIndex content (node_end node) in
  let functionLength := endLine - startLine in
  match node with
  | FunctionDeclaration _ id _ _ =>
      if MAX_FUNCTION_LENGTH <? functionLength then
        push issues
          {| type := "Long Function";
             filePath := filePath;
             line := startLine;
             message := "Function '"
                        ++ match id with
                           | Some id => JS.ofMaybe (name_of id)
                           | None => "anonymous"
                           end
                        ++ "' is too long (" ++ JS.ofNumber functionLength ++ " lines)";
             code := JS.lineOr lines startLine |}
      else issues
  | FunctionExpression _ _ _ _ =>
      if MAX_FUNCTION_LENGTH <? functionLength then
        let parentNode := findParentNode ast node in
        let functionName := functionNameFrom parentNode in
        push issues
          {| type := "Long Function";
             filePath := filePath;
             line := startLine;
             message := "Function '" ++ functionName
                        ++ "' is too long (" ++ JS.ofNumber functionLength ++ " lines)";
             code := JS.lineOr lines startLine |}
      else issues
  | ArrowFunctionExpression _ _ _ _ =>
      if MAX_FUNCTION_LENGTH <? functionLength then
        let parentNode := findParentNode ast node in
        let functionName := functionNameFrom parentNode in
        push issues
          {| type := "Long Function";
             filePath := filePath;
             line := startLine;
             message := "Arrow function '" ++ functionName
                        ++ "' is too long (" ++ JS.ofNumber functionLength ++ " lines)";
             code := JS.lineOr lines startLine |}
      else issues
  | _ => issues
  end.

Definition checkForLongFunctions (ast : node) (content filePath : string)
    (lines : list string) (issues : list Issue) : list Issue :=
  Walk.simple (longFunctionVisitors ast content filePath lines) ast issues.

(** ** [checkForDeeplyNestedCode] *)

Definition MAX_NESTING_LEVEL : nat := 3.

(** The test on [node.type] that [checkNesting] makes three times. *)
Definition isControlFlow (node : node) : bool :=
  String.eqb (type_of node) "IfStatement"
  || String.eqb (type_of node) "ForStatement"
  || String.eqb (type_of node) "WhileStatement"
  || String.eqb (type_of node) "DoWhileStatement"
  || String.eqb (type_of node) "ForInStatement"
  || String.eqb (type_of node) "ForOfStatement".

(** [key === 'body' || key === 'consequent' || key === 'alternate']. *)
Definition isBodyKey (key : string) : bool :=
  String.eqb key "body" || String.eqb key "consequent" || String.eqb key "alternate".

(** The body of [checkNesting(node, level)]. [entries] lists the keys of
    [node] that hold objects, each with the recursive call on what it
    holds; the loop follows every element of an array, and a single node
    only under the three keys. *)
Definition checkNestingBody (content filePath : string) (lines : list string)
    (node : node)
    (entries : list (string * prop (nat -> list Issue -> list Issue)))
    (level : nat) (issues : list Issue) : list Issue :=
  let issues :=
    if isControlFlow node && (MAX_NESTING_LEVEL <=? level) then
      let line := getLineNumberFromIndex content (node_start node) in
      push issues
        {| type := "Deeply Nested Code";
           filePath := filePath;
           line := line;
           message := "Code is nested too deeply (" ++ JS.ofNumber (level + 1) ++ " levels)";
           code := JS.lineOr lines line |}
    else issues in
  fold_left
    (fun issues (entry : string * prop (nat -> list Issue -> list Issue)) =>
       let (key, value) := entry in
       match value with
       | PArray children =>
           fold_left
             (fun issues child =>
                match child with
                | Some checkChild =>
                    let newLevel := if isControlFlow node then level + 1 else level in
                    checkChild newLevel issues
                | None => issues
                end)
             children issues
       | PNode (Some checkChild) =>
           if isBodyKey key then
             let newLevel := if isControlFlow node then level + 1 else level in
             checkChild newLevel issues
           else issues
       | PNode None => issues
       end)
    entries issues.

Definition checkNesting (content filePath : string) (lines : list string)
    : node -> nat -> list Issue -> list Issue :=
  objRec (checkNestingBody content filePath lines).

Definition checkForDeeplyNestedCode (ast : node) (content filePath : string)
    (lines : list string) (issues : list Issue) : list Issue :=
  checkNesting content filePath lines ast 0 issues.

(** ** [checkForDeadCode] *)

(** The [for] loop over [node.body], with its two variables. The line of
    the return goes to the console only. *)
Fixpoint deadCodeLoop (content filePath : string) (lines : list string)
    (statements : list node) (foundReturn : bool) (returnLine : option nat)
    (issues : list Issue) : list Issue :=
  match statements with
  | [] => issues
  | statement :: rest =>
      if foundReturn then
        let line := getLineNumberFromIndex content (node_start statement) in
        push issues
          {| type := "Dead Code";
             filePath := filePath;
             line := line;
             message := "Unreachable code after return statement";
             code := JS.lineOr lines line |}
      else if String.eqb (type_of statement) "ReturnStatement" then
        deadCodeLoop content filePath lines rest true
          (Some (getLineNumberFromIndex content (node_start statement))) issues
      else deadCodeLoop content filePath lines rest foundReturn returnLine issues
  end.

(** The [BlockStatement] visitor. *)
Definition deadCodeVisitors (content filePath : string) (lines : list string)
    (node : node) (issues : list Issue) : list Issue :=
  match node with
  | BlockStatement _ body =>
      if List.length body <=? 1 then issues
      else deadCodeLoop content filePath lines body false None issues
  | _ => issues
  end.

Definition checkForDeadCode (ast : node) (content filePath : string)
    (lines : list string) (issues : list Issue) : list Issue :=
  Walk.simple (deadCodeVisitors content filePath lines) ast issues.

(* ================================================================== *)
(** * [scanFile]                                                       *)
(* ================================================================== *)

(** [parseError.loc]. *)
Module Position.
Record t : Type := make { line : nat; column : nat }.
End Position.

(** What [acorn.parse] does: it returns the tree, or throws an error with
    a message and, when acorn raised it, a location. *)
Inductive ParseResult : Type :=
| Parsed (ast : node)
| ParseFailure (loc : option Position.t) (message : string).

(** A call that returns or throws an [Error] with a message. *)
Inductive Outcome (A : Type) : Type :=
| Returns (value : A)
| Throws (message : string).
Arguments Returns {A} value.
Arguments Throws {A} message.

(** The engine on the text of one file and on what the parser made of it. *)
Definition scanContent (parsed : ParseResult) (content filePath : string) : list Issue :=
  let lines := JS.split_LF content in
  let issues := [] in
  match parsed with
  | ParseFailure loc message =>
      let line := match loc with Some loc => Position.line loc | None => 1 end in
      push issues
        {| type := "Syntax Error";
           filePath := filePath;
           line := line;
           message := "Syntax error: " ++ message;
           code := JS.lineOr lines line |}
  | Parsed ast =>
      let issues := checkForTodoComments content filePath lines issues in
      let issues := checkForUnusedCode ast content filePath lines issues in
      let issues := checkForLongFunctions ast content filePath lines issues in
      let issues := checkForDeeplyNestedCode ast content filePath lines issues in
      let issues := checkForDeadCode ast content filePath lines issues in
      issues
  end.

(** [scanFile(filePath)], given the two collaborators it calls:
    [fs.readFile(filePath, 'utf-8')] and [acorn.parse(content, options)]. *)
Definition scanFile (readFile : string -> Outcome string)
    (parse : string -> ParseResult) (filePath : string) : Outcome (list Issue) :=
  match readFile filePath with
  | Throws message =>
      Throws ("Failed to scan file " ++ filePath ++ ": " ++ message)
  | Returns content => Returns (scanContent (parse content) content filePath)
  end.

(* ================================================================== *)
(** * The notions the properties are stated with                       *)
(* ================================================================== *)

(** ** The text of a node *)

(** [content.slice(node.start, node.end)]. *)
Definition textOf (content : string) (n : node) : string :=
  substring (node_start n) (node_end n - node_start n) content.

(** ** Nesting depth *)

(** The control-flow constructs of a tree, each with its nesting depth:
    the number of control-flow constructs that enclose it in their [body],
    [consequent] or [alternate]. [follow key isArray] tells which
    properties are entered. *)
Definition constructsBody (follow : string -> bool -> bool) (n : node)
    (entries : list (string * prop (nat -> list (node * nat))))
    (depth : nat) : list (node * nat) :=
  ((if isControlFlow n then [(n, depth)] else [])
   ++ flat_map
        (fun entry : string * prop (nat -> list (node * nat)) =>
           if follow (fst entry) (isArray (snd entry)) then
             flat_map
               (fun below =>
                  below (if isControlFlow n && isBodyKey (fst entry)
                         then depth + 1 else depth))
               (held (snd entry))
           else [])
        entries)%list.

Definition constructs (follow : string -> bool -> bool) : node -> nat -> list (node * nat) :=
  objRec (constructsBody follow).

(** Every construct of the tree. *)
Definition allConstructs (ast : node) : list (node * nat) :=
  constructs (fun _ _ => true) ast 0.

(** The constructs that can be reached from the root through arrays and
    through the properties [body], [consequent] and [alternate] alone. *)
Definition reachedConstructs (ast : node) : list (node * nat) :=
  constructs (fun key isArray => isArray || isBodyKey key) ast 0.

(** The issue for a construct met at nesting depth [depth]. *)
Definition deepNestingIssue (content filePath : string) (lines : list string)
    (found : node * nat) : Issue :=
  let line := getLineNumberFromIndex content (node_start (fst found)) in
  {| type := DeepNesting;
     filePath := filePath;
     line := line;
     message := "Code is nested too deeply (" ++ JS.ofNumber (snd found + 1) ++ " levels)";
     code := JS.lineOr lines line |}.

Definition tooDeep (found : node * nat) : bool := MAX_NESTING_LEVEL <=? snd found.

(** ** Declarations and references *)

(** What a node declares, if anything: the name and the record made for
    it, with the line of the declaring node. *)
Definition declares (content : string) (n : node) : option (string * Info.t) :=
  match n with
  | VariableDeclarator _ (Identifier _ name) _ =>
      Some (name, {| Info.type := "Variable";
                     Info.line := getLineNumberFromIndex content (node_start n);
                     Info.used := false |})
  | FunctionDeclaration _ (Some (Identifier _ name)) _ _ =>
      Some (name, {| Info.type := "Function";
                     Info.line := getLineNumberFromIndex content (node_start n);
                     Info.used := false |})
  | _ => None
  end.

(** The declarations of a tree, in the order in which the walk meets them. *)
Definition declarationsOf (content : string) (ast : node) : list (string * Info.t) :=
  flat_map (fun n => option_list (declares content n)) (Walk.visited ast).

(** The declaration of [name] that the walk meets last. *)
Definition lastDeclared (content : string) (ast : node) (name : string) : option Info.t :=
  JSMap.get name (rev (declarationsOf content ast)).

(** The name a visit of the second pass refers to: the visited node is an
    identifier that is not the [id] of a declaration above it. *)
Definition refersTo (visit : node * list node) : option string :=
  match fst visit with
  | Identifier _ name =>
      if isDeclaration (fst visit) (snd visit) then None else Some name
  | _ => None
  end.

(** The names the second pass meets as references. *)
Definition referencesOf (ast : node) : list string :=
  flat_map (fun visit => option_list (refersTo visit)) (Walk.visits [] ast).

Definition referenced (ast : node) (name : string) : bool :=
  existsb (String.eqb name) (referencesOf ast).

(** The issue for an unused declaration. *)
Definition unusedIssue (filePath : string) (lines : list string) (name : string)
    (info : Info.t) : Issue :=
  {| type := "Unused " ++ Info.type info;
     filePath := filePath;
     line := Info.line info;
     message := "Unused " ++ JS.toLowerCase (Info.type info) ++ " '" ++ name ++ "'";
     code := JS.lineOr lines (Info.line info) |}.

(** A record has one of the two kinds. *)
Definition kinded (info : Info.t) : Prop :=
  Info.type info = "Variable" \/ Info.type info = "Function".

(** The records of the first pass: a kind, and not yet used. *)
Definition fresh (info : Info.t) : Prop :=
  kinded info /\ Info.used info = false.

(** What the second pass makes of a record. *)
Definition marked (names : list string) (kv : string * Info.t) : string * Info.t :=
  (fst kv, if existsb (String.eqb (fst kv)) names then Info.markUsed (snd kv) else snd kv).

(** What the third pass reports for one record. *)
Definition reportOf (filePath : string) (lines : list string) (entry : string * Info.t)
    : list Issue :=
  if isSpecialName (fst entry) then []
  else if Info.used (snd entry) then []
  else [unusedIssue filePath lines (fst entry) (snd entry)].

(** An UnusedVariable or UnusedFunction issue that names [name]. *)
Definition aboutName (name : string) (issue : Issue) : bool :=
  String.eqb (message issue) ("Unused variable '" ++ name ++ "'")
  || String.eqb (message issue) ("Unused function '" ++ name ++ "'").

(** ** Unreachable statements *)

Definition isBlock (n : node) : bool := String.eqb (type_of n) "BlockStatement".
Definition isReturn (n : node) : bool := String.eqb (type_of n) "ReturnStatement".

(** [node.body] of a block. *)
Definition blockBody (n : node) : list node :=
  match n with BlockStatement _ body => body | _ => [] end.

(** The blocks of a tree. *)
Definition blocks (ast : node) : list node := filter isBlock (subnodes ast).

(** The statement right after the first return statement of a sequence. *)
Fixpoint afterFirstReturn (statements : list node) : option node :=
  match statements with
  | [] => None
  | statement :: rest =>
      if isReturn statement then hd_error rest else afterFirstReturn rest
  end.

Definition deadCodeIssue (content filePath : string) (lines : list string)
    (statement : node) : Issue :=
  let line := getLineNumberFromIndex content (node_start statement) in
  {| type := UnreachableCode;
     filePath := filePath;
     line := line;
     message := "Unreachable code after return statement";
     code := JS.lineOr lines line |}.

(** What one block is reported for: its first unreachable statement. *)
Definition unreachableIn (content filePath : string) (lines : list string)
    (block : node) : list Issue :=
  match afterFirstReturn (blockBody block) with
  | Some statement => [deadCodeIssue content filePath lines statement]
  | None => []
  end.

(** ** Pending work *)

(** The issue for one match of the pattern. *)
Definition todoIssue (content filePath : string) (lines : list string)
    (m : TodoRegex.Match) : Issue :=
  let lineNumber := getLineNumberFromIndex content (TodoRegex.index m) in
  {| type := PendingWork;
     filePath := filePath;
     line := lineNumber;
     message := "Found " ++ TodoRegex.group1 m ++ " comment: "
                ++ (if String.eqb (TodoRegex.group2 m) ""
                    then "No description provided"
                    else TodoRegex.group2 m);
     code := JS.lineOr lines lineNumber |}.

(** ** Long functions *)

Definition isFunctionLike (n : node) : bool :=
  String.eqb (type_of n) "FunctionDeclaration"
  || String.eqb (type_of n) "FunctionExpression"
  || String.eqb (type_of n) "ArrowFunctionExpression".

(** The function-like nodes of a tree. *)
Definition functions (ast : node) : list node := filter isFunctionLike (subnodes ast).

(** [endLine - startLine]. *)
Definition functionLength (content : string) (n : node) : nat :=
  getLineNumberFromIndex content (node_end n)
  - getLineNumberFromIndex content (node_start n).

Definition functionLabel (n : node) : string :=
  match n with
  | ArrowFunctionExpression _ _ _ _ => "Arrow function"
  | _ => "Function"
  end.

(** The name a long function is reported under. *)
Definition functionName (ast n : node) : string :=
  match n with
  | FunctionDeclaration _ (Some id) _ _ => JS.ofMaybe (name_of id)
  | FunctionDeclaration _ None _ _ => "anonymous"
  | _ => functionNameFrom (findParentNode ast n)
  end.

Definition longFunctionIssue (ast : node) (content filePath : string)
    (lines : list string) (n : node) : Issue :=
  let startLine := getLineNumberFromIndex content (node_start n) in
  {| type := LongFunction;
     filePath := filePath;
     line := startLine;
     message := functionLabel n ++ " '" ++ functionName ast n ++ "' is too long ("
                ++ JS.ofNumber (functionLength content n) ++ " lines)";
     code := JS.lineOr lines startLine |}.

(** What one function is reported for. *)
Definition longFunctionReport (ast : node) (content filePath : string)
    (lines : list string) (n : node) : list Issue :=
  if MAX_FUNCTION_LENGTH <? functionLength content n
  then [longFunctionIssue ast content filePath lines n]
  else [].

(** The identity of a node: its type and its source range. *)
Definition keyOf (n : node) : string * nat * nat := (type_of n, node_start n, node_end n).

Definition keyEqb (a b : string * nat * nat) : bool :=
  String.eqb (fst (fst a)) (fst (fst b))
  && Nat.eqb (snd (fst a)) (snd (fst b))
  && Nat.eqb (snd a) (snd b).

Fixpoint distinct (keys : list (string * nat * nat)) : bool :=
  match keys with
  | [] => true
  | key :: rest => negb (existsb (keyEqb key) rest) && distinct rest
  end.

(** The tree is one that a parser allocates: no two of its nodes have
    the same type and the same range. *)
Definition distinctNodes (ast : node) : bool := distinct (map keyOf (subnodes ast)).

(** The test the visitors of [findParentNode] make on a node: is [target]
    its [init], its [right] or its [value]? *)
Definition isParentOf (target n : node) : bool :=
  match n with
  | VariableDeclarator _ _ init => same_opt init target
  | AssignmentExpression _ _ rhs => same rhs target
  | Property _ _ value => same value target
  | _ => false
  end.

(** Is [target] the [init] of the declarator [n]? *)
Definition isDeclaratorOf (target n : node) : bool :=
  match n with
  | VariableDeclarator _ _ init => same_opt init target
  | _ => false
  end.

(** ** Anchoring *)

(** An issue of one kind whose line is the line of an offset of the text
    and whose snippet is taken at that line. *)
Definition emitted (kind content : string) (lines : list string) (issue : Issue) : Prop :=
  type issue = kind
  /\ (exists index, line issue = getLineNumberFromIndex content index)
  /\ code issue = JS.lineOr lines (line issue).

(* ================================================================== *)
(** * Sample programs                                                  *)
(* ================================================================== *)

Module Samples.

Definition at_ (s e : nat) : Span := mkSpan s e.

(** Four conditionals, one inside the other, in the block of a [try]. *)
Definition nestedInTry_source : string :=
  JS.join_LF
    [ "try {";
      "  if (a) {";
      "    if (b) {";
      "      if (c) {";
      "        if (d) { }";
      "      }";
      "    }";
      "  }";
      "} catch (e) { }" ].

Definition if_d : node :=
  IfStatement (at_ 53 63) (Identifier (at_ 57 58) "d") (BlockStatement (at_ 60 63) []) None.
Definition if_c : node :=
  IfStatement (at_ 36 71) (Identifier (at_ 40 41) "c") (BlockStatement (at_ 43 71) [if_d]) None.
Definition if_b : node :=
  IfStatement (at_ 21 77) (Identifier (at_ 25 26) "b") (BlockStatement (at_ 28 77) [if_c]) None.
Definition if_a : node :=
  IfStatement (at_ 8 81) (Identifier (at_ 12 13) "a") (BlockStatement (at_ 15 81) [if_b]) None.

Definition nestedInTry : node :=
  Program (at_ 0 97)
    [ TryStatement (at_ 0 97)
        (BlockStatement (at_ 4 83) [if_a])
        (Some (CatchClause (at_ 84 97) (Some (Identifier (at_ 91 92) "e"))
                 (BlockStatement (at_ 94 97) [])))
        None ].

(** The same conditionals in a plain block: "{ " takes the place of
    "try {" and the handler is gone, so the offsets move by three. *)
Definition nestedInBlock_source : string :=
  JS.join_LF
    [ "{ ";
      "  if (a) {";
      "    if (b) {";
      "      if (c) {";
      "        if (d) { }";
      "      }";
      "    }";
      "  }";
      "}" ].

Definition nestedInBlock : node :=
  Program (at_ 0 80)
    [ BlockStatement (at_ 0 80)
        [ IfStatement (at_ 5 78) (Identifier (at_ 9 10) "a")
            (BlockStatement (at_ 12 78)
               [ IfStatement (at_ 18 74) (Identifier (at_ 22 23) "b")
                   (BlockStatement (at_ 25 74)
                      [ IfStatement (at_ 33 68) (Identifier (at_ 37 38) "c")
                          (BlockStatement (at_ 40 68)
                             [ IfStatement (at_ 50 60) (Identifier (at_ 54 55) "d")
                                 (BlockStatement (at_ 57 60) []) None ])
                          None ])
                   None ])
            None ] ].

(** A return followed by two statements. *)
Definition returnFirst_source : string :=
  JS.join_LF
    [ "function f() {";
      "  return x;";
      "  a();";
      "  b();";
      "}" ].

Definition call_a : node :=
  ExpressionStatement (at_ 29 33) (CallExpression (at_ 29 32) (Identifier (at_ 29 30) "a") []).
Definition call_b : node :=
  ExpressionStatement (at_ 36 40) (CallExpression (at_ 36 39) (Identifier (at_ 36 37) "b") []).

Definition returnFirst : node :=
  Program (at_ 0 42)
    [ FunctionDeclaration (at_ 0 42) (Some (Identifier (at_ 9 10) "f")) []
        (BlockStatement (at_ 13 42)
           [ ReturnStatement (at_ 17 26) (Some (Identifier (at_ 24 25) "x"));
             call_a;
             call_b ]) ].

(** The issue for [a();]. *)
Definition returnFirst_issue : Issue :=
  {| type := UnreachableCode;
     filePath := "sample.js";
     line := 3;
     message := "Unreachable code after return statement";
     code := "  a();" |}.

(** A return that ends its block. *)
Definition returnLast_source : string :=
  JS.join_LF
    [ "function f() {";
      "  a();";
      "  return x;";
      "}" ].

Definition returnLast_body : list node :=
  [ ExpressionStatement (at_ 17 21)
      (CallExpression (at_ 17 20) (Identifier (at_ 17 18) "a") []);
    ReturnStatement (at_ 24 33) (Some (Identifier (at_ 31 32) "x")) ].

Definition returnLast : node :=
  Program (at_ 0 35)
    [ FunctionDeclaration (at_ 0 35) (Some (Identifier (at_ 9 10) "f")) []
        (BlockStatement (at_ 13 35) returnLast_body) ].

(** One name declared twice, never used. *)
Definition redeclared_source : string :=
  JS.join_LF
    [ "var a = 1;";
      "var a = 2;" ].

Definition first_a : node :=
  VariableDeclarator (at_ 4 9) (Identifier (at_ 4 5) "a") (Some (Literal (at_ 8 9) "1")).
Definition second_a : node :=
  VariableDeclarator (at_ 15 20) (Identifier (at_ 15 16) "a") (Some (Literal (at_ 19 20) "2")).

Definition redeclared : node :=
  Program (at_ 0 21)
    [ VariableDeclaration (at_ 0 10) [first_a];
      VariableDeclaration (at_ 11 21) [second_a] ].

(** A variable that is assigned and never read. *)
Definition writeOnly_source : string :=
  JS.join_LF
    [ "let x;";
      "x = 5;" ].

Definition writeOnly : node :=
  Program (at_ 0 13)
    [ VariableDeclaration (at_ 0 6)
        [ VariableDeclarator (at_ 4 5) (Identifier (at_ 4 5) "x") None ];
      ExpressionStatement (at_ 7 13)
        (AssignmentExpression (at_ 7 12) (Identifier (at_ 7 8) "x") (Literal (at_ 11 12) "5")) ].

(** A host name and another name, both declared and never used. *)
Definition hostName_source : string :=
  JS.join_LF
    [ "var module = 1;";
      "var orphan = 2;" ].

Definition hostName : node :=
  Program (at_ 0 31)
    [ VariableDeclaration (at_ 0 15)
        [ VariableDeclarator (at_ 4 14) (Identifier (at_ 4 10) "module")
            (Some (Literal (at_ 13 14) "1")) ];
      VariableDeclaration (at_ 16 31)
        [ VariableDeclarator (at_ 20 30) (Identifier (at_ 20 26) "orphan")
            (Some (Literal (at_ 29 30) "2")) ] ].

(** Fifty-one calls, one per line, at the offsets [first], [first + 10], ... *)
Definition steps (first : nat) : list node :=
  map (fun i =>
         ExpressionStatement (at_ (first + 10 * i) (first + 10 * i + 7))
           (CallExpression (at_ (first + 10 * i) (first + 10 * i + 6))
              (Identifier (at_ (first + 10 * i) (first + 10 * i + 4)) "step") []))
    (seq 0 51).

Definition stepLines : list string := repeat "  step();" 51.

(** An arrow function of 53 lines, the initializer of [f]. *)
Definition longArrow_source : string :=
  JS.join_LF ("const f = () => {" :: stepLines ++ ["};"])%list.

Definition longArrow_function : node :=
  ArrowFunctionExpression (at_ 10 529) [] (BlockStatement (at_ 16 529) (steps 20)) false.

Definition longArrow_declarator : node :=
  VariableDeclarator (at_ 6 529) (Identifier (at_ 6 7) "f") (Some longArrow_function).

Definition longArrow : node :=
  Program (at_ 0 530) [ VariableDeclaration (at_ 0 530) [longArrow_declarator] ].

(** A function expression of 53 lines, the argument of a call. *)
Definition longCallback_source : string :=
  JS.join_LF ("run(function () {" :: stepLines ++ ["});"])%list.

Definition longCallback_function : node :=
  FunctionExpression (at_ 4 529) None [] (BlockStatement (at_ 16 529) (steps 20)).

Definition longCallback : node :=
  Program (at_ 0 531)
    [ ExpressionStatement (at_ 0 531)
        (CallExpression (at_ 0 530) (Identifier (at_ 0 3) "run") [longCallback_function]) ].

(** A function declaration of 53 lines. *)
Definition longDeclaration_source : string :=
  JS.join_LF ("function longOne() {" :: stepLines ++ ["}"])%list.

Definition longDeclaration_function : node :=
  FunctionDeclaration (at_ 0 532) (Some (Identifier (at_ 9 16) "longOne")) []
    (BlockStatement (at_ 19 532) (steps 23)).

Definition longDeclaration : node := Program (at_ 0 532) [longDeclaration_function].

(** A marker without text, above a line of code. *)
Definition todoThenCode_source : string :=
  JS.join_LF
    [ "// TODO";
      "foo();" ].

(** Two comments with a marker, on two lines. *)
Definition twoComments_source : string :=
  JS.join_LF
    [ "// TODO";
      "// FIXME: x" ].

(** A pending-work comment above a line that does not parse. *)
Definition broken_source : string :=
  JS.join_LF
    [ "// TODO: fix later";
      "var = ;" ].

(** acorn on [broken_source]: "Unexpected token (2:4)". *)
Definition acornOnBroken (content : string) : ParseResult :=
  ParseFailure (Some {| Position.line := 2; Position.column := 4 |})
    "Unexpected token (2:4)".

(** A file system holding one file. *)
Definition oneFile (path content : string) (asked : string) : Outcome string :=
  if String.eqb asked path then Returns content
  else Throws ("ENOENT: no such file or directory, open '" ++ asked ++ "'").

End Samples.

(* ================================================================== *)
(** * [scanDirectory]                                                  *)
(* ================================================================== *)

(** The loop [for (const file of files)]: each file is scanned in turn
    and its issues are spread after the ones collected so far; a rejected
    [scanFile] leaves the loop. *)
Fixpoint scanFiles (readFile : string -> Outcome string)
    (parse : string -> ParseResult) (files : list string)
    (allIssues : list Issue) : Outcome (list Issue) :=
  match files with
  | [] => Returns allIssues
  | file :: rest =>
      match scanFile readFile parse file with
      | Returns issues => scanFiles readFile parse rest (allIssues ++ issues)%list
      | Throws message => Throws message
      end
  end.

(** [scanDirectory(directory)]. [listFiles] stands for what the function
    does to find the files: [path.resolve], [path.join], the replacement of
    backslashes and the promisified [glob] on the pattern, which may be
    rejected. *)
Definition scanDirectory (listFiles : string -> Outcome (list string))
    (readFile : string -> Outcome string) (parse : string -> ParseResult)
    (directory : string) : Outcome (list Issue) :=
  let attempt :=
    match listFiles directory with
    | Returns files => scanFiles readFile parse files []
    | Throws message => Throws message
    end in
  match attempt with
  | Returns allIssues => Returns allIssues
  | Throws message => Throws ("Failed to scan directory: " ++ message)
  end.

(** ** Notions for the properties of the scanner *)

(** The number of line feeds of a text. *)
Fixpoint countLF (s : string) : nat :=
  match s with
  | EmptyString => 0
  | String ch rest => (if Ascii.eqb ch JS.LF then 1 else 0) + countLF rest
  end.

(** Does the character occur in the text? *)
Fixpoint hasChar (ch : ascii) (s : string) : bool :=
  match s with
  | EmptyString => false
  | String c rest => Ascii.eqb c ch || hasChar ch rest
  end.

(** [s.toUpperCase()] on the code units below 128. *)
Fixpoint toUpperCase (s : string) : string :=
  match s with
  | EmptyString => EmptyString
  | String ch rest => String (JS.upperChar ch) (toUpperCase rest)
  end.

(** A text read from each of the files: the pairs of a path and of what
    [readFile] returns for it. *)
Definition readsAs (readFile : string -> Outcome string) (file : string * string) : Prop :=
  readFile (fst file) = Returns (snd file).

(** A file system of several files. *)
Definition fileTable (table : list (string * string)) (asked : string) : Outcome string :=
  match JSMap.get asked table with
  | Some content => Returns content
  | None => Throws ("ENOENT: no such file or directory, open '" ++ asked ++ "'")
  end.

(** ** A sample directory *)

Module Directory.

(** Two files: one that parses, one that does not. *)
Definition table : list (string * string) :=
  [ ("/work/returnFirst.js", Samples.returnFirst_source);
    ("/work/broken.js", Samples.broken_source) ].

(** The listing of the directory; any other directory is missing. *)
Definition listing (directory : string) : Outcome (list string) :=
  if String.eqb directory "/work" then Returns (map fst table)
  else Throws ("ENOENT: no such file or directory, scandir '" ++ directory ++ "'").

(** A listing that names a file which is not there. *)
Definition staleListing (directory : string) : Outcome (list string) :=
  Returns ["/work/returnFirst.js"; "/work/gone.js"; "/work/broken.js"].

(** acorn on the two texts. *)
Definition parse (content : string) : ParseResult :=
  if String.eqb content Samples.returnFirst_source then Parsed Samples.returnFirst
  else Samples.acornOnBroken content.

(** The issue for [a();] of the first file. *)
Definition returnFirst_issue : Issue :=
  {| type := UnreachableCode;
     filePath := "/work/returnFirst.js";
     line := 3;
     message := "Unreachable code after return statement";
     code := "  a();" |}.

End Directory.

(* ================================================================== *)
(** * [lib/commenter.js]                                               *)
(* ================================================================== *)

(** ** The JavaScript runtime used by the commenter *)

(** A plain object [{}] used as a map from strings: its own properties
    are kept as a [JSMap.t], in the order of their creation. *)
Module JSObject.

(** The properties that [{}] inherits from [Object.prototype]. The value
    of each is a function, or the prototype itself for [__proto__]: a value
    that is truthy and has no [push] method. *)
Definition prototypeKeys : list string :=
  [ "constructor"; "__defineGetter__"; "__defineSetter__"; "hasOwnProperty";
    "__lookupGetter__"; "__lookupSetter__"; "isPrototypeOf";
    "propertyIsEnumerable"; "toString"; "valueOf"; "__proto__";
    "toLocaleString" ].

Definition inherits (key : string) : bool := existsb (String.eqb key) prototypeKeys.

Definition isDigit (ch : ascii) : bool :=
  (48 <=? nat_of_ascii ch) && (nat_of_ascii ch <=? 57).

Fixpoint allDigits (s : string) : bool :=
  match s with
  | EmptyString => true
  | String ch rest => isDigit ch && allDigits rest
  end.

Fixpoint numberOf (acc : Z) (s : string) : Z :=
  match s with
  | EmptyString => acc
  | String ch rest => numberOf (acc * 10 + Z.of_nat (nat_of_ascii ch - 48))%Z rest
  end.

(** Is the key an array index: the canonical decimal form of an integer
    from 0 to 2^32 - 2? *)
Definition arrayIndex (key : string) : option Z :=
  match key with
  | EmptyString => None
  | String first rest =>
      if allDigits key
         && (negb (Ascii.eqb first "0") || String.eqb rest "")
         && (String.length key <=? 10)
      then if (numberOf 0 key <? 4294967295)%Z then Some (numberOf 0 key) else None
      else None
  end.

Definition isArrayIndex (key : string) : bool :=
  match arrayIndex key with Some _ => true | None => false end.

Fixpoint insertIndex (key : string * Z) (sorted : list (string * Z))
    : list (string * Z) :=
  match sorted with
  | [] => [key]
  | k :: rest =>
      if (snd key <? snd k)%Z then key :: sorted else k :: insertIndex key rest
  end.

Definition indexed (name : string) : list (string * Z) :=
  match arrayIndex name with Some v => [(name, v)] | None => [] end.

(** [Object.keys(o)]: the array indices in ascending order, then the
    other keys in the order of their creation. *)
Definition keys {V} (o : JSMap.t V) : list string :=
  let names := map fst o in
  (map fst (fold_right insertIndex [] (flat_map indexed names))
   ++ filter (fun name => negb (isArrayIndex name)) names)%list.

End JSObject.

Module JSArray.

Fixpoint insertSorted {A} (compare : A -> A -> Z) (a : A) (sorted : list A) : list A :=
  match sorted with
  | [] => [a]
  | b :: rest =>
      if (compare a b <=? 0)%Z then a :: sorted
      else b :: insertSorted compare a rest
  end.

(** [array.sort(compare)] for a comparison that orders the elements (by
    a number, or as strings): the sort is stable, so the result is the one
    of any stable sort, here the insertion of each element before the ones
    after it. *)
Definition sort {A} (compare : A -> A -> Z) (array : list A) : list A :=
  fold_right (insertSorted compare) [] array.

(** [array.splice(start, 0, item)] for a [start] from 0 on; past the end
    of the array the item is appended. *)
Definition splice {A} (start : nat) (item : A) (array : list A) : list A :=
  (firstn start array ++ item :: skipn start array)%list.

End JSArray.

(** [fs.promises], as far as the commenter uses it: reading a file
    returns its text or is rejected; writing leaves a new state of the
    disk and may be rejected. *)
Module Fs.

Record t (Disk : Type) : Type := make {
  readFile : Disk -> string -> Outcome string;
  writeFile : Disk -> string -> string -> Disk * option string
}.
Arguments make {Disk} readFile writeFile.
Arguments readFile {Disk} fs disk path : rename.
Arguments writeFile {Disk} fs disk path data : rename.

(** A disk that keeps what is written: a write succeeds, the file then
    reads as the text written, and the other paths read as before. *)
Definition stores {Disk} (fs : t Disk) : Prop :=
  forall disk path data,
    snd (writeFile fs disk path data) = None
    /\ readFile fs (fst (writeFile fs disk path data)) path = Returns data
    /\ forall other, other <> path ->
         readFile fs (fst (writeFile fs disk path data)) other = readFile fs disk other.

(** A disk as a table of the texts of its files. *)
Definition table : t (JSMap.t string) :=
  {| readFile := fileTable;
     writeFile := fun disk path data => (JSMap.set path data disk, None) |}.

End Fs.

(** ** [generateComment] *)

Definition generateComment (issue : Issue) : string :=
  let commentPrefix := "// CLEAN-SLATE: " in
  if String.eqb (type issue) "Unused Function" then
    commentPrefix ++ "This function is unused. Consider removing it or documenting why it's needed."
  else if String.eqb (type issue) "Unused Variable" then
    commentPrefix ++ "This variable is unused. Consider removing it or documenting why it's needed."
  else if String.eqb (type issue) "Long Function" then
    commentPrefix ++ "This function is too long (exceeds 50 lines). Consider breaking it down into smaller, more focused functions."
  else if String.eqb (type issue) "Deeply Nested Code" then
    commentPrefix ++ "This code is deeply nested. Consider extracting some logic into separate functions or using early returns to reduce nesting."
  else if String.eqb (type issue) "Dead Code" then
    commentPrefix ++ "This code is unreachable (after a return statement). It should be removed."
  else if String.eqb (type issue) "TODO/FIXME Comment" then
    commentPrefix ++ "Don't forget to address this TODO/FIXME comment. Consider adding more context or a deadline."
  else
    commentPrefix ++ message issue.

(** ** [addInlineComments] *)

(** The grouping of the issues by file: [issues.forEach(...)] on the
    object [issuesByFile]. A path that names an inherited property is
    found truthy, no array is made for it, and the call of [push] on the
    inherited value throws a [TypeError]. *)
Fixpoint groupByFile (issues : list Issue) (issuesByFile : JSMap.t (list Issue))
    : Outcome (JSMap.t (list Issue)) :=
  match issues with
  | [] => Returns issuesByFile
  | issue :: rest =>
      let filePath := filePath issue in
      match JSMap.get filePath issuesByFile with
      | Some fileIssues =>
          groupByFile rest (JSMap.set filePath (fileIssues ++ [issue])%list issuesByFile)
      | None =>
          if JSObject.inherits filePath
          then Throws "issuesByFile[filePath].push is not a function"
          else groupByFile rest (JSMap.set filePath [issue] issuesByFile)
      end
  end.

(** The comparison [(a, b) => b.line - a.line]. *)
Definition byLineDescending (a b : Issue) : Z :=
  (Z.of_nat (line b) - Z.of_nat (line a))%Z.

(** The body of the loop over the issues of one file. *)
Definition insertComment (lines : list string) (issue : Issue) : list string :=
  let commentLine := (Z.of_nat (line issue) - 1)%Z in
  if (commentLine <? 0)%Z || (commentLine >=? Z.of_nat (List.length lines))%Z
  then lines
  else
    let comment := generateComment issue in
    JSArray.splice (Z.to_nat commentLine) comment lines.

(** The lines of a file after the loop over its issues. *)
Definition commentedLines (fileIssues : list Issue) (lines : list string) : list string :=
  fold_left insertComment (JSArray.sort byLineDescending fileIssues) lines.

(** The text written back to a file. *)
Definition commentedText (fileIssues : list Issue) (content : string) : string :=
  JS.join_LF (commentedLines fileIssues (JS.split_LF content)).

(** The loop [for (const filePath of Object.keys(issuesByFile))]. *)
Fixpoint commentFiles {Disk} (fs : Fs.t Disk) (issuesByFile : JSMap.t (list Issue))
    (filePaths : list string) (disk : Disk) (modifiedFiles : list string)
    : Disk * Outcome (list string) :=
  match filePaths with
  | [] => (disk, Returns modifiedFiles)
  | filePath :: rest =>
      match JSMap.get filePath issuesByFile with
      | None => (disk, Throws "Cannot read properties of undefined (reading 'sort')")
      | Some fileIssues =>
          match Fs.readFile fs disk filePath with
          | Throws message => (disk, Throws message)
          | Returns content =>
              let written := Fs.writeFile fs disk filePath (commentedText fileIssues content) in
              match snd written with
              | Some message => (fst written, Throws message)
              | None =>
                  commentFiles fs issuesByFile rest (fst written)
                    (setAdd filePath modifiedFiles)
              end
          end
      end
  end.

(** [addInlineComments(issues)] on a disk: the disk it leaves, and what
    it returns or throws. *)
Definition addInlineComments {Disk} (fs : Fs.t Disk) (issues : list Issue) (disk : Disk)
    : Disk * Outcome nat :=
  let attempt :=
    match groupByFile issues [] with
    | Throws message => (disk, Throws message)
    | Returns issuesByFile =>
        let done := commentFiles fs issuesByFile (JSObject.keys issuesByFile) disk [] in
        match snd done with
        | Returns modifiedFiles => (fst done, Returns (List.length modifiedFiles))
        | Throws message => (fst done, Throws message)
        end
    end in
  match snd attempt with
  | Returns count => (fst attempt, Returns count)
  | Throws message => (fst attempt, Throws ("Failed to add inline comments: " ++ message))
  end.

(** ** Notions for the properties of the commenter *)

(** The issues of one file, in the order of the list. *)
Definition issuesOf (path : string) (issues : list Issue) : list Issue :=
  filter (fun issue => String.eqb (filePath issue) path) issues.

(** The comments for the issues anchored at one line, in the order of the
    issues. *)
Definition commentsAt (number : nat) (fileIssues : list Issue) : list string :=
  map generateComment (filter (fun issue => line issue =? number) fileIssues).

(** The lines of a text with their numbers, from 1. *)
Definition numbered (lines : list string) : list (nat * string) :=
  combine (seq 1 (List.length lines)) lines.

(** Is the line of the issue a line of a text of that many lines? *)
Definition inRange (count : nat) (issue : Issue) : bool :=
  (1 <=? line issue) && (line issue <=? count).

(** The file paths of the issues, each once, in the order in which the
    loop of [addInlineComments] takes them. *)
Definition fileOrder (issues : list Issue) : list string :=
  match groupByFile issues [] with
  | Returns issuesByFile => JSObject.keys issuesByFile
  | Throws _ => []
  end.

(** ** A sample disk *)

Module Disk.

Definition files : JSMap.t string :=
  [ ("/work/returnFirst.js", Samples.returnFirst_source);
    ("/work/broken.js", Samples.broken_source) ].

(** Issues of the two files, one of them past the end of its file. *)
Definition issues : list Issue :=
  [ {| type := UnusedFunction; filePath := "/work/returnFirst.js"; line := 1;
       message := "Unused function 'f'"; code := "function f() {" |};
    {| type := SyntaxError; filePath := "/work/broken.js"; line := 2;
       message := "Syntax error: Unexpected token (2:4)"; code := "var = ;" |};
    Directory.returnFirst_issue;
    {| type := UnreachableCode; filePath := "/work/returnFirst.js"; line := 9;
       message := "Unreachable code after return statement"; code := "" |} ].

End Disk.

(** ** More notions for the properties *)

(** One match of the pattern ends before the other starts. *)
Definition matchBefore (m1 m2 : TodoRegex.Match) : Prop :=
  TodoRegex.index m1 + TodoRegex.extent m1 <= TodoRegex.index m2.

(** Issues in descending order of their lines. *)
Definition descendingLines (a b : Issue) : Prop := line b <= line a.

(** The six types of the issues of the detectors. *)
Definition detectorKinds : list string :=
  [PendingWork; UnusedVariable; UnusedFunction; LongFunction; DeepNesting;
   UnreachableCode].

(* ================================================================== *)
(** * [lib/reporter.js]                                                *)
(* ================================================================== *)

(** The values that the counting of the types meets: [undefined], a
    count, or [NaN]. *)
Module JSValue.

Inductive t : Type :=
| Undefined
| Number (n : nat)
| NaN.

(** Is the value truthy? *)
Definition truthy (v : t) : bool :=
  match v with
  | Number (S _) => true
  | _ => false
  end.

(** [a + b]. *)
Definition add (a b : t) : t :=
  match a, b with
  | Number n, Number m => Number (n + m)
  | _, _ => NaN
  end.

(** [v > 1]. *)
Definition moreThanOne (v : t) : bool :=
  match v with
  | Number n => 1 <? n
  | _ => false
  end.

(** [v || 0]. *)
Definition orZero (v : t) : t := if truthy v then v else Number 0.

(** The value inside a template literal. *)
Definition render (v : t) : string :=
  match v with
  | Undefined => "undefined"
  | Number n => JS.ofNumber n
  | NaN => "NaN"
  end.

(** [o[key]] for a key that names no inherited property. *)
Definition lookup (key : string) (o : JSMap.t t) : t :=
  match JSMap.get key o with
  | Some v => v
  | None => Undefined
  end.

End JSValue.

(** The line feed of the template literals. *)
Definition nl : string := String JS.LF "".

(** The body of the loop that counts the types. An own count that is
    truthy is incremented; one that is falsy is set to 0 and incremented.
    A type that names an inherited property is found truthy: its value, a
    function, is incremented to [NaN], which becomes an own property, but
    for [__proto__], whose setter ignores a number. *)
Definition countType (issueTypes : JSMap.t JSValue.t) (issue : Issue)
    : JSMap.t JSValue.t :=
  let type := type issue in
  match JSMap.get type issueTypes with
  | Some (JSValue.Number (S n)) => JSMap.set type (JSValue.Number (S (S n))) issueTypes
  | Some _ => JSMap.set type (JSValue.Number 1) issueTypes
  | None =>
      if JSObject.inherits type then
        if String.eqb type "__proto__" then issueTypes
        else JSMap.set type JSValue.NaN issueTypes
      else JSMap.set type (JSValue.Number 1) issueTypes
  end.

(** The object [issueTypes] after the loop. *)
Definition countTypes (issues : list Issue) : JSMap.t JSValue.t :=
  fold_left countType issues [].

(** One line of the section of the types. *)
Definition typeLine (issueTypes : JSMap.t JSValue.t) (type : string) : string :=
  "- **" ++ type ++ "**: " ++ JSValue.render (JSValue.lookup type issueTypes) ++ nl.

(** The comparison [(a, b) => a.line - b.line]. *)
Definition byLineAscending (a b : Issue) : Z :=
  (Z.of_nat (line a) - Z.of_nat (line b))%Z.

(** The comparison of [sort()] without an argument: the strings by their
    code units. *)
Definition byCodeUnits (a b : string) : Z :=
  match String.compare a b with
  | Lt => (-1)%Z
  | Eq => 0%Z
  | Gt => 1%Z
  end.

(** One row of the table of a file. *)
Definition issueRow (issue : Issue) : string :=
  "| " ++ JS.ofNumber (line issue) ++ " | " ++ type issue ++ " | " ++ message issue
  ++ " |" ++ nl.

(** The section of one file. [relative] stands for
    [path.relative(process.cwd(), _)]. *)
Definition fileSection (relative : string -> string) (filePath : string)
    (fileIssues : list Issue) : string :=
  let relativeFilePath := relative filePath in
  "### " ++ relativeFilePath ++ nl ++ nl
  ++ "| Line | Type | Message |" ++ nl
  ++ "| ---- | ---- | ------- |" ++ nl
  ++ fold_left (fun reportContent issue => reportContent ++ issueRow issue)
       (JSArray.sort byLineAscending fileIssues) ""
  ++ nl.

(** The loop [Object.keys(issuesByFile).sort().forEach(...)]. *)
Fixpoint fileSections (relative : string -> string)
    (issuesByFile : JSMap.t (list Issue)) (filePaths : list string)
    (reportContent : string) : Outcome string :=
  match filePaths with
  | [] => Returns reportContent
  | filePath :: rest =>
      match JSMap.get filePath issuesByFile with
      | None => Throws "Cannot read properties of undefined (reading 'sort')"
      | Some fileIssues =>
          fileSections relative issuesByFile rest
            (reportContent ++ fileSection relative filePath fileIssues)
      end
  end.

(** [v > 1 ? 'are' : 'is']. *)
Definition areOrIs (v : JSValue.t) : string :=
  if JSValue.moreThanOne v then "are" else "is".

(** The recommendation about unused code. *)
Definition unusedAdvice (issueTypes : JSMap.t JSValue.t) : string :=
  let unusedFunction := JSValue.lookup "Unused Function" issueTypes in
  let unusedVariable := JSValue.lookup "Unused Variable" issueTypes in
  if JSValue.truthy unusedFunction || JSValue.truthy unusedVariable then
    "- **Remove unused code**: There "
    ++ areOrIs (JSValue.add unusedFunction unusedVariable) ++ " "
    ++ JSValue.render (JSValue.orZero unusedFunction) ++ " unused function(s) and "
    ++ JSValue.render (JSValue.orZero unusedVariable)
    ++ " unused variable(s). Removing them will make your code cleaner and more maintainable."
    ++ nl
  else "".

Definition longAdvice (issueTypes : JSMap.t JSValue.t) : string :=
  let count := JSValue.lookup "Long Function" issueTypes in
  if JSValue.truthy count then
    "- **Refactor long functions**: There " ++ areOrIs count ++ " "
    ++ JSValue.render count
    ++ " function(s) that are too long. Consider breaking them down into smaller, more focused functions."
    ++ nl
  else "".

Definition nestingAdvice (issueTypes : JSMap.t JSValue.t) : string :=
  let count := JSValue.lookup "Deeply Nested Code" issueTypes in
  if JSValue.truthy count then
    "- **Simplify nested code**: There " ++ areOrIs count ++ " "
    ++ JSValue.render count
    ++ " instance(s) of deeply nested code. Consider extracting some logic into separate functions or using early returns to reduce nesting."
    ++ nl
  else "".

Definition deadAdvice (issueTypes : JSMap.t JSValue.t) : string :=
  let count := JSValue.lookup "Dead Code" issueTypes in
  if JSValue.truthy count then
    "- **Remove unreachable code**: There " ++ areOrIs count ++ " "
    ++ JSValue.render count
    ++ " instance(s) of code that will never execute. Remove this code to improve clarity."
    ++ nl
  else "".

Definition todoAdvice (issueTypes : JSMap.t JSValue.t) : string :=
  let count := JSValue.lookup "TODO/FIXME Comment" issueTypes in
  if JSValue.truthy count then
    "- **Address TODO comments**: There " ++ areOrIs count ++ " "
    ++ JSValue.render count
    ++ " TODO/FIXME comment(s) in your code. Consider addressing these issues."
    ++ nl
  else "".

(** [generateReport(issues, scannedDirectory)] on a disk. [reportPath]
    stands for [path.join(process.cwd(), 'report.md')] and [relative] for
    [path.relative(process.cwd(), _)]. *)
Definition generateReport {Disk} (fs : Fs.t Disk) (reportPath : string)
    (relative : string -> string) (issues : list Issue) (scannedDirectory : string)
    (disk : Disk) : Disk * Outcome string :=
  let attempt :=
    let relativePath := relative scannedDirectory in
    match groupByFile issues [] with
    | Throws message => (disk, Throws message)
    | Returns issuesByFile =>
        let reportContent := "# CleanSlate Code Hygiene Report" ++ nl ++ nl in
        let reportContent := reportContent ++ "## Summary" ++ nl ++ nl in
        let reportContent :=
          reportContent ++ "- **Directory scanned**: `" ++ relativePath ++ "`" ++ nl in
        let reportContent :=
          reportContent ++ "- **Total issues found**: "
          ++ JS.ofNumber (List.length issues) ++ nl in
        let reportContent :=
          reportContent ++ "- **Files with issues**: "
          ++ JS.ofNumber (List.length (JSObject.keys issuesByFile)) ++ nl ++ nl in
        let issueTypes := countTypes issues in
        let reportContent := reportContent ++ "### Issues by Type" ++ nl ++ nl in
        let reportContent :=
          fold_left (fun reportContent type => reportContent ++ typeLine issueTypes type)
            (JSObject.keys issueTypes) reportContent in
        let reportContent := reportContent ++ nl ++ "## Issues by File" ++ nl ++ nl in
        match fileSections relative issuesByFile
                (JSArray.sort byCodeUnits (JSObject.keys issuesByFile)) reportContent with
        | Throws message => (disk, Throws message)
        | Returns reportContent =>
            let reportContent := reportContent ++ "## Recommendations" ++ nl ++ nl in
            let reportContent := reportContent ++ unusedAdvice issueTypes in
            let reportContent := reportContent ++ longAdvice issueTypes in
            let reportContent := reportContent ++ nestingAdvice issueTypes in
            let reportContent := reportContent ++ deadAdvice issueTypes in
            let reportContent := reportContent ++ todoAdvice issueTypes in
            let reportContent := reportContent ++ nl ++ "## Next Steps" ++ nl ++ nl in
            let reportContent :=
              reportContent
              ++ "Run `clean-slate comment --inline` to add helpful comments to your code that explain these issues in more detail."
              ++ nl in
            let written := Fs.writeFile fs disk reportPath reportContent in
            match snd written with
            | Some message => (fst written, Throws message)
            | None => (fst written, Returns reportPath)
            end
        end
    end in
  match snd attempt with
  | Returns path => (fst attempt, Returns path)
  | Throws message => (fst attempt, Throws ("Failed to generate report: " ++ message))
  end.

(** ** Notions for the properties of the reporter *)

(** The number of issues of one type. *)
Definition typeCount (kind : string) (issues : list Issue) : nat :=
  List.length (filter (fun issue => String.eqb (type issue) kind) issues).

(** The count that a line of the section of the types shows. *)
Definition shownCount (issueTypes : JSMap.t JSValue.t) (kind : string) : nat :=
  match JSValue.lookup kind issueTypes with
  | JSValue.Number n => n
  | _ => 0
  end.

(** The count of a type is absent, or a positive number. *)
Definition countedOnce (o : JSMap.t JSValue.t) (kind : string) : Prop :=
  JSMap.get kind o = None \/ exists n, JSMap.get kind o = Some (JSValue.Number (S n)).

(* ================================================================== *)
(** * The occurrences of a name                                        *)
(* ================================================================== *)

(** Is the node an identifier of that name? *)
Definition named (name : string) (n : node) : bool :=
  match n with
  | Identifier _ x => String.eqb x name
  | _ => false
  end.

(** Is the node the [id] of a variable declarator or of a function
    declaration of the tree: the occurrence that introduces the binding? *)
Definition declaring (ast n : node) : bool :=
  existsb
    (fun d =>
       match d with
       | VariableDeclarator _ id _ => same id n
       | FunctionDeclaration _ id _ _ => same_opt id n
       | _ => false
       end)
    (subnodes ast).

(** The non-declaring identifiers of the tree that bear the name. *)
Definition occurrences (ast : node) (name : string) : list node :=
  filter (fun n => named name n && negb (declaring ast n)) (subnodes ast).

(** The identifiers of the name that the walk of the reference pass hands
    to its visitor. *)
Definition visitedOccurrences (ast : node) (name : string) : list node :=
  filter (named name) (Walk.visited ast).

(** The identifiers that a walker hands over under the override "Pattern"
    and that, for this reason, no visitor sees: those of one node, and
    those of a tree. *)
Definition patternIdentifiers (n : node) : list node :=
  map snd (filter (fun child => fst child && Walk.isIdentifier (snd child)) (Walk.base n)).

Definition skipped (ast : node) : list node :=
  flat_map patternIdentifiers (subnodes ast).

(** A name read before its declaration. *)
Module UsedBefore.

Definition source : string :=
  JS.join_LF
    [ "use(a);";
      "var a = 1;" ].

Definition tree : node :=
  Program (Samples.at_ 0 18)
    [ ExpressionStatement (Samples.at_ 0 7)
        (CallExpression (Samples.at_ 0 6) (Identifier (Samples.at_ 0 3) "use")
           [Identifier (Samples.at_ 4 5) "a"]);
      VariableDeclaration (Samples.at_ 8 18)
        [ VariableDeclarator (Samples.at_ 12 17) (Identifier (Samples.at_ 12 13) "a")
            (Some (Literal (Samples.at_ 16 17) "1")) ] ].

End UsedBefore.

(* ================================================================== *)
(** * The engine as a run in the JavaScript runtime                    *)
(* ================================================================== *)

(** What a run of the engine finds in the runtime when it starts, and
    leaves there when it ends: the objects with a state of their own.
    The engine makes one kind of them, the regular expression of
    [checkForTodoComments], whose [lastIndex] tells [exec] where to resume.
    (The module keeps no variable that a call assigns; the [Map] of the
    declarations, the [Set] of the references and the array of the issues
    are made by the call that uses them, and are threaded as values, a
    [Map] in the order of its insertions, which is the order of its
    [forEach]. The console, to which the engine only writes, is left
    out.) *)
Module Runtime.

(** The [lastIndex] of every RegExp object made so far; the address of an
    object is its rank. *)
Record t : Type := make { regexps : list nat }.

Definition lastIndexOf (address : nat) (runtime : t) : nat :=
  nth address (regexps runtime) 0.

Fixpoint update (address value : nat) (cells : list nat) : list nat :=
  match cells, address with
  | [], _ => []
  | _ :: rest, 0 => value :: rest
  | cell :: rest, S address => cell :: update address value rest
  end.

Definition setLastIndex (address value : nat) (runtime : t) : t :=
  make (update address value (regexps runtime)).

(** The evaluation of a regular expression literal: a new object, with
    [lastIndex] 0. *)
Definition newRegExp (runtime : t) : nat * t :=
  (List.length (regexps runtime), make (regexps runtime ++ [0])%list).

End Runtime.

Module Run.
Import TodoRegex.

(** The text from an offset on. *)
Fixpoint from (offset : nat) (s : string) : string :=
  match offset, s with
  | 0, _ => s
  | S offset, String _ rest => from offset rest
  | S _, EmptyString => EmptyString
  end.

(** The first match at or after the offset [at_], where [s] is the text
    from that offset on. *)
Fixpoint search (s : string) (at_ : nat) : option Match :=
  match matchHere at_ s with
  | Some m => Some m
  | None =>
      match s with
      | EmptyString => None
      | String _ rest => search rest (S at_)
      end
  end.

(** [todoRegex.exec(content)] for the object at [address], under the [g]
    flag: the search starts at [lastIndex]; a match moves [lastIndex] to
    its end; a failure, or a [lastIndex] past the end of the text, sets it
    back to 0 and gives [null]. *)
Definition exec (address : nat) (content : string) (runtime : Runtime.t)
    : option Match * Runtime.t :=
  let lastIndex := Runtime.lastIndexOf address runtime in
  if String.length content <? lastIndex
  then (None, Runtime.setLastIndex address 0 runtime)
  else
    match search (from lastIndex content) lastIndex with
    | Some m => (Some m, Runtime.setLastIndex address (index m + extent m) runtime)
    | None => (None, Runtime.setLastIndex address 0 runtime)
    end.

(** The loop [while ((match = todoRegex.exec(content)) !== null)], for at
    most [fuel] calls of [exec]. *)
Fixpoint todoLoop (fuel : nat) (todoRegex : nat) (content filePath : string)
    (lines : list string) (issues : list Issue) (runtime : Runtime.t)
    : option (list Issue * Runtime.t) :=
  match fuel with
  | 0 => None
  | S fuel =>
      match exec todoRegex content runtime with
      | (None, runtime) => Some (issues, runtime)
      | (Some m, runtime) =>
          let lineNumber := getLineNumberFromIndex content (index m) in
          todoLoop fuel todoRegex content filePath lines
            (push issues
               {| type := "TODO/FIXME Comment";
                  filePath := filePath;
                  line := lineNumber;
                  message := "Found " ++ group1 m ++ " comment: "
                             ++ (if String.eqb (group2 m) ""
                                 then "No description provided"
                                 else group2 m);
                  code := JS.lineOr lines lineNumber |})
            runtime
      end
  end.

(** [checkForTodoComments]: the literal makes the object, then the loop;
    a match is never empty, so one call of [exec] for each character of
    the text and one more are enough. *)
Definition checkForTodoComments (content filePath : string) (lines : list string)
    (issues : list Issue) (runtime : Runtime.t) : option (list Issue * Runtime.t) :=
  let (todoRegex, runtime) := Runtime.newRegExp runtime in
  todoLoop (S (String.length content)) todoRegex content filePath lines issues runtime.

(** The engine on the text of one file, in a runtime. *)
Definition scanContent (parsed : ParseResult) (content filePath : string)
    (runtime : Runtime.t) : option (list Issue * Runtime.t) :=
  let lines := JS.split_LF content in
  let issues := [] in
  match parsed with
  | ParseFailure loc message =>
      let line := match loc with Some loc => Position.line loc | None => 1 end in
      Some (push issues
              {| type := "Syntax Error";
                 filePath := filePath;
                 line := line;
                 message := "Syntax error: " ++ message;
                 code := JS.lineOr lines line |},
            runtime)
  | Parsed ast =>
      match checkForTodoComments content filePath lines issues runtime with
      | None => None
      | Some (issues, runtime) =>
          let issues := checkForUnusedCode ast content filePath lines issues in
          let issues := checkForLongFunctions ast content filePath lines issues in
          let issues := checkForDeeplyNestedCode ast content filePath lines issues in
          let issues := checkForDeadCode ast content filePath lines issues in
          Some (issues, runtime)
      end
  end.

(** [scanFile(filePath)] in a runtime: what it returns or throws, and the
    runtime it leaves. *)
Definition scanFile (readFile : string -> Outcome string)
    (parse : string -> ParseResult) (filePath : string) (runtime : Runtime.t)
    : option (Outcome (list Issue) * Runtime.t) :=
  match readFile filePath with
  | Throws message =>
      Some (Throws ("Failed to scan file " ++ filePath ++ ": " ++ message), runtime)
  | Returns content =>
      match scanContent (parse content) content filePath runtime with
      | None => None
      | Some (issues, runtime) => Some (Returns issues, runtime)
      end
  end.

(** A runtime in which the engine has run before. *)
Definition used : Runtime.t := Runtime.make [0; 0; 0].

(** acorn on [Samples.todoThenCode_source]. *)
Definition todoThenCode : node :=
  Program (Samples.at_ 0 14)
    [ ExpressionStatement (Samples.at_ 8 14)
        (CallExpression (Samples.at_ 8 13) (Identifier (Samples.at_ 8 11) "foo") []) ].

End Run.

(* ================================================================== *)
(** * The sample trees against their texts                             *)
(* ================================================================== *)

Module SampleFacts.
Import Samples.

Example nestedInTry_spans :
  String.length nestedInTry_source = 97
  /\ textOf nestedInTry_source if_d = "if (d) { }"
  /\ map (fun n => substring (node_start n) 6 nestedInTry_source) [if_a; if_b; if_c; if_d]
     = ["if (a)"; "if (b)"; "if (c)"; "if (d)"]
  /\ substring 0 5 nestedInTry_source = "try {"
  /\ substring 84 13 nestedInTry_source = "catch (e) { }".
Proof. repeat split. Qed.

Example nestedInBlock_spans :
  String.length nestedInBlock_source = 80
  /\ map (fun at_ => substring at_ 6 nestedInBlock_source) [5; 18; 33; 50]
     = ["if (a)"; "if (b)"; "if (c)"; "if (d)"].
Proof. repeat split. Qed.

Example returnFirst_spans :
  String.length returnFirst_source = 42
  /\ substring 17 9 returnFirst_source = "return x;"
  /\ textOf returnFirst_source call_a = "a();"
  /\ textOf returnFirst_source call_b = "b();".
Proof. repeat split. Qed.

Example returnLast_spans :
  String.length returnLast_source = 35
  /\ map (textOf returnLast_source) returnLast_body = ["a();"; "return x;"].
Proof. repeat split. Qed.

Example redeclared_spans :
  textOf redeclared_source first_a = "a = 1"
  /\ textOf redeclared_source second_a = "a = 2".
Proof. repeat split. Qed.

Example writeOnly_spans :
  substring 4 1 writeOnly_source = "x"
  /\ substring 7 5 writeOnly_source = "x = 5".
Proof. repeat split. Qed.

Example hostName_spans :
  substring 4 10 hostName_source = "module = 1"
  /\ substring 20 10 hostName_source = "orphan = 2".
Proof. repeat split. Qed.

Example longArrow_spans :
  String.length longArrow_source = 530
  /\ substring 0 17 longArrow_source = "const f = () => {"
  /\ substring 10 7 longArrow_source = "() => {"
  /\ map (textOf longArrow_source) (steps 20) = repeat "step();" 51
  /\ substring 528 2 longArrow_source = "};"
  /\ getLineNumberFromIndex longArrow_source 10 = 1
  /\ getLineNumberFromIndex longArrow_source 529 = 53.
Proof. repeat split; vm_compute; reflexivity. Qed.

Example longCallback_spans :
  String.length longCallback_source = 531
  /\ substring 0 17 longCallback_source = "run(function () {"
  /\ substring 4 12 longCallback_source = "function () "
  /\ map (textOf longCallback_source) (steps 20) = repeat "step();" 51
  /\ substring 528 3 longCallback_source = "});"
  /\ getLineNumberFromIndex longCallback_source 529 = 53.
Proof. repeat split; vm_compute; reflexivity. Qed.

Example longDeclaration_spans :
  String.length longDeclaration_source = 532
  /\ substring 0 20 longDeclaration_source = "function longOne() {"
  /\ map (textOf longDeclaration_source) (steps 23) = repeat "step();" 51
  /\ substring 531 1 longDeclaration_source = "}"
  /\ getLineNumberFromIndex longDeclaration_source 532 = 53.
Proof. repeat split; vm_compute; reflexivity. Qed.

End SampleFacts.

(* ================================================================== *)
(** * Facts about trees                                                *)
(* ================================================================== *)

Module TreeFacts.
Import ESTree.

(** Case analysis on the variables that the goal inspects. *)
Ltac destruct_inspected :=
  repeat match goal with
         | |- context [match ?x with _ => _ end] => is_var x; destruct x
         end.

Lemma propsWith_props {A} (r : node -> A) (n : node) :
  propsWith r n = map (fun kp => (fst kp, prop_map r (snd kp))) (props n).
Proof.
  unfold props.
  destruct n; simpl; unfold arr, one, opt, keyed; simpl; rewrite ?map_map;
    repeat match goal with
           | |- context [option_map _ ?o] => is_var o; destruct o; simpl
           | |- context [match ?k with inl _ => _ | inr _ => _ end] =>
               is_var k; destruct k; simpl
           end;
    try reflexivity.
  do 3 f_equal. apply map_ext. now intros [x|].
Qed.

(** The equation of [objRec]. *)
Lemma objRec_eq {A} (f : node -> list (string * prop A) -> A) (n : node) :
  objRec f n = f n (map (fun kp => (fst kp, prop_map (objRec f) (snd kp))) (props n)).
Proof. rewrite <- propsWith_props. now destruct n. Qed.

Lemma held_prop_map {A B} (g : A -> B) (p : prop A) :
  held (prop_map g p) = map g (held p).
Proof.
  destruct p as [[x|]|l]; simpl; try reflexivity.
  induction l as [|[x|] l IH]; simpl; now rewrite ?IH.
Qed.

Lemma subnodes_eq (n : node) :
  subnodes n = n :: flat_map subnodes (children n).
Proof.
  unfold subnodes at 1. rewrite objRec_eq. f_equal. unfold children.
  fold subnodes. induction (props n) as [|[k p] ps IH]; simpl; [reflexivity|].
  rewrite flat_map_app, IH. f_equal.
  rewrite held_prop_map, flat_map_concat_map. reflexivity.
Qed.

Lemma size_eq (n : node) : size n = S (list_sum (map size (children n))).
Proof.
  unfold size at 1. rewrite objRec_eq. f_equal. f_equal. unfold children.
  fold size. induction (props n) as [|[k p] ps IH]; simpl; [reflexivity|].
  now rewrite map_app, IH, held_prop_map.
Qed.

Lemma size_child (n child : node) : In child (children n) -> size child < size n.
Proof.
  intros Hin. rewrite (size_eq n).
  induction (children n) as [|x l IH]; simpl in *; [contradiction|].
  destruct Hin as [->|Hin]; [lia|]. specialize (IH Hin). lia.
Qed.

(** Induction on a tree, the property assumed of all children. *)
Lemma node_ind' (P : node -> Prop) :
  (forall n, Forall P (children n) -> P n) -> forall n, P n.
Proof.
  intros step n.
  remember (size n) as k eqn:Hk.
  revert n Hk. induction k as [k IH] using lt_wf_ind. intros n ->.
  apply step. apply Forall_forall. intros child Hin.
  apply (IH (size child)); [now apply size_child | reflexivity].
Qed.

Lemma subnodes_child (n child x : node) :
  In child (children n) -> In x (subnodes child) -> In x (subnodes n).
Proof.
  intros Hc Hx. rewrite subnodes_eq. right. apply in_flat_map. eauto.
Qed.

Lemma subnodes_self (n : node) : In n (subnodes n).
Proof. rewrite subnodes_eq. now left. Qed.

End TreeFacts.

(* ================================================================== *)
(** * Facts about the walks                                            *)
(* ================================================================== *)

Module WalkFacts.
Import ESTree Walk TreeFacts.

Lemma fold_left_map {A B C} (f : A -> B -> A) (g : C -> B) (l : list C) (a : A) :
  fold_left f (map g l) a = fold_left (fun a x => f a (g x)) l a.
Proof. revert a; induction l; simpl; auto. Qed.

(** The equation of the walker: the children of [base], then the visitor. *)
Lemma c_eq {S} (v : node -> list node -> S -> S) (ancestors : list node) (n : node) (st : S) :
  c v ancestors n st
  = v n (ancestors ++ [n])%list
      (fold_left (step (c v (ancestors ++ [n])%list)) (base n) st).
Proof.
  destruct n; simpl; unfold each, whenSome, asStatement, asExpression, asForInit;
    rewrite ?fold_left_app, ?fold_left_map; simpl;
    repeat match goal with
           | o : option node |- _ => destruct o; simpl
           | k : (node + string)%type |- _ => destruct k; simpl
           | b : bool |- _ => destruct b; simpl
           end;
    rewrite ?fold_left_app, ?fold_left_map; simpl;
    try reflexivity.
  f_equal. generalize (c v (ancestors ++ [ArrayPattern sp elements])%list).
  intros k. revert st.
  induction elements as [|[e|] es IH]; simpl; intros; rewrite ?IH; reflexivity.
Qed.

Lemma held_arr (l : list node) : held (arr (fun c => c) l) = l.
Proof. unfold arr; simpl. induction l; simpl; congruence. Qed.

Lemma held_elements (es : list (option node)) :
  held (PArray (map (option_map (fun c : node => c)) es)) = flat_map (@option_list node) es.
Proof. simpl. induction es as [|[e|] es IH]; simpl; congruence. Qed.

Lemma base_children (n : node) : Permutation (map snd (base n)) (children n).
Proof.
  unfold children, props.
  destruct n; cbn [base propsWith flat_map snd];
    rewrite ?held_arr, ?held_elements, ?map_app, ?map_map, ?app_nil_r;
    cbn [map snd]; rewrite ?map_id;
    repeat match goal with
           | o : option node |- _ => destruct o
           | k : (node + string)%type |- _ => destruct k
           end;
    cbn; rewrite ?app_nil_r; try reflexivity.
  - apply perm_swap.
  - now rewrite map_map, map_id.
Qed.

Lemma base_in_children (n : node) (x : bool * node) :
  In x (base n) -> In (snd x) (children n).
Proof.
  intros H. eapply Permutation_in; [apply base_children|]. now apply in_map.
Qed.

Lemma step_eq {S} (k : node -> S -> S) (st : S) (child : bool * node) :
  step k st child
  = if fst child && isIdentifier (snd child) then st else k (snd child) st.
Proof. destruct child as [[|] ch]; simpl; [now destruct ch | reflexivity]. Qed.

Lemma fold_record (l acc : list (node * list node)) :
  fold_left (call record) l acc = (acc ++ l)%list.
Proof.
  revert acc; induction l as [|x l IH]; simpl; intros acc.
  - now rewrite app_nil_r.
  - rewrite IH. unfold call, record. destruct x; simpl. now rewrite <- app_assoc.
Qed.

(** A walk is the fold of its visitor over the visits. *)
Lemma c_fold (n : node) :
  forall (S : Type) (v : node -> list node -> S -> S) (ancestors : list node) (st : S),
    c v ancestors n st = fold_left (call v) (visits ancestors n) st.
Proof.
  induction n as [n IH] using node_ind'. intros S v ancestors st.
  rewrite Forall_forall in IH.
  assert (Hrec : forall ancs l acc, incl l (base n) ->
            fold_left (step (c record ancs)) l acc
            = (acc ++ flat_map (stepVisits ancs) l)%list).
  { intros ancs l. induction l as [|[pat ch] l IHl]; simpl; intros acc Hl.
    - now rewrite app_nil_r.
    - rewrite IHl by (intros y Hy; apply Hl; now right).
      rewrite app_assoc. f_equal.
      assert (Hch : In ch (children n)).
      { apply (base_in_children n (pat, ch)). apply Hl. now left. }
      rewrite step_eq. unfold stepVisits. cbn [fst snd].
      destruct (pat && isIdentifier ch).
      + now rewrite app_nil_r.
      + now rewrite (IH _ Hch), fold_record. }
  unfold visits at 1. rewrite !c_eq.
  rewrite Hrec by apply incl_refl. simpl.
  unfold record at 1. rewrite fold_left_app. simpl. unfold call at 1. simpl.
  f_equal.
  generalize (ancestors ++ [n])%list. intros ancs.
  assert (Hgen : forall l st, incl l (base n) ->
            fold_left (step (c v ancs)) l st
            = fold_left (call v) (flat_map (stepVisits ancs) l) st).
  { induction l as [|[pat ch] l IHl]; simpl; intros st0 Hl; [reflexivity|].
    rewrite fold_left_app.
    rewrite <- IHl by (intros y Hy; apply Hl; now right).
    f_equal.
    assert (Hch : In ch (children n)).
    { apply (base_in_children n (pat, ch)). apply Hl. now left. }
    rewrite step_eq. unfold stepVisits. cbn [fst snd].
    destruct (pat && isIdentifier ch); [reflexivity | apply (IH _ Hch)]. }
  apply Hgen, incl_refl.
Qed.

(** The visits of a walk, child by child. *)
Lemma visits_eq (ancestors : list node) (n : node) :
  visits ancestors n
  = (flat_map (stepVisits (ancestors ++ [n])) (base n) ++ [(n, ancestors ++ [n])])%list.
Proof.
  unfold visits at 1. rewrite c_eq. unfold record at 1. f_equal.
  generalize (ancestors ++ [n])%list. intros ancs.
  assert (H : forall l acc,
             fold_left (step (c record ancs)) l acc
             = (acc ++ flat_map (stepVisits ancs) l)%list).
  { induction l as [|[pat ch] l IHl]; simpl; intros acc.
    - now rewrite app_nil_r.
    - rewrite IHl, app_assoc. f_equal.
      rewrite step_eq. unfold stepVisits. cbn [fst snd].
      destruct (pat && isIdentifier ch).
      + now rewrite app_nil_r.
      + now rewrite c_fold, fold_record. }
  apply (H (base n) []).
Qed.

Lemma flat_map_singleton {A B} (f : A -> B) (l : list A) :
  flat_map (fun x => [f x]) l = map f l.
Proof. induction l as [|x l IH]; simpl; congruence. Qed.

(** A fold of callbacks that only push. *)
Lemma fold_appending {A B} (f : A -> list B -> list B) (g : A -> list B) (l : list A) :
  (forall x acc, f x acc = (acc ++ g x)%list) ->
  forall acc, fold_left (fun acc x => f x acc) l acc = (acc ++ flat_map g l)%list.
Proof.
  intros H. induction l as [|x l IH]; intros acc; simpl.
  - now rewrite app_nil_r.
  - now rewrite IH, H, app_assoc.
Qed.

(** [walk.simple] is the fold of its visitors over the visited nodes. *)
Lemma simple_fold {S} (v : node -> S -> S) (ast : node) (st : S) :
  simple v ast st = fold_left (fun st n => v n st) (visited ast) st.
Proof.
  unfold simple, visited. rewrite c_fold, fold_left_map. reflexivity.
Qed.

Lemma ancestor_fold {S} (v : node -> list node -> S -> S) (ast : node) (st : S) :
  ancestor v ast st = fold_left (call v) (visits [] ast) st.
Proof. apply c_fold. Qed.

(** The nodes visited do not depend on the ancestors the walk starts with. *)
Lemma visits_fst (n : node) :
  forall ancestors, map fst (visits ancestors n) = visited n.
Proof.
  induction n as [n IH] using node_ind'. intros ancestors.
  rewrite Forall_forall in IH.
  unfold visited. rewrite !visits_eq, !map_app. f_equal.
  generalize (ancestors ++ [n])%list ([] ++ [n])%list. intros a b.
  assert (H : forall l, incl l (base n) ->
            map fst (flat_map (stepVisits a) l) = map fst (flat_map (stepVisits b) l)).
  { induction l as [|x l IHl]; intros Hl; [reflexivity|].
    cbn [flat_map]. rewrite !map_app. f_equal.
    - unfold stepVisits. destruct (fst x && isIdentifier (snd x)); [reflexivity|].
      assert (Hx : In (snd x) (children n)).
      { apply base_in_children, Hl. now left. }
      now rewrite !(IH _ Hx).
    - apply IHl. intros y Hy. apply Hl. now right. }
  apply H, incl_refl.
Qed.

Lemma visited_eq (n : node) :
  visited n = (flat_map stepVisited (base n) ++ [n])%list.
Proof.
  unfold visited at 1. rewrite visits_eq, map_app. f_equal.
  generalize ([] ++ [n])%list. intros a.
  induction (base n) as [|x l IHl]; [reflexivity|].
  cbn [flat_map]. rewrite map_app, IHl. f_equal.
  unfold stepVisits, stepVisited.
  destruct (fst x && isIdentifier (snd x)); [reflexivity | apply visits_fst].
Qed.

Lemma Permutation_flat_map_pointwise {A B} (f g : A -> list B) (l : list A) :
  (forall x, In x l -> Permutation (f x) (g x)) ->
  Permutation (flat_map f l) (flat_map g l).
Proof.
  induction l as [|x l IH]; intros H; [constructor|].
  cbn [flat_map]. apply Permutation_app.
  - apply H. now left.
  - apply IH. intros y Hy. apply H. now right.
Qed.

Lemma Permutation_filter {A} (p : A -> bool) (l l' : list A) :
  Permutation l l' -> Permutation (filter p l) (filter p l').
Proof.
  induction 1; simpl; try constructor.
  - destruct (p x); [constructor|]; assumption.
  - destruct (p x), (p y); try constructor; try reflexivity.
  - etransitivity; eassumption.
Qed.

Lemma filter_flat_map {A B} (p : B -> bool) (f : A -> list B) (l : list A) :
  filter p (flat_map f l) = flat_map (fun x => filter p (f x)) l.
Proof.
  induction l as [|x l IH]; [reflexivity|].
  cbn [flat_map]. now rewrite filter_app, IH.
Qed.

Lemma flat_map_of_map {A B C} (f : B -> list C) (g : A -> B) (l : list A) :
  flat_map f (map g l) = flat_map (fun x => f (g x)) l.
Proof. induction l as [|x l IH]; simpl; congruence. Qed.

(** Apart from identifiers, the walk visits every node of the tree, once. *)
Lemma visited_subnodes (p : node -> bool) (n : node) :
  (forall sp name, p (Identifier sp name) = false) ->
  Permutation (filter p (visited n)) (filter p (subnodes n)).
Proof.
  intros Hp. induction n as [n IH] using node_ind'.
  rewrite Forall_forall in IH.
  rewrite visited_eq, subnodes_eq.
  change (n :: flat_map subnodes (children n))
    with ([n] ++ flat_map subnodes (children n))%list.
  rewrite !filter_app.
  etransitivity; [apply Permutation_app_comm|].
  apply Permutation_app; [reflexivity|].
  etransitivity.
  2:{ apply Permutation_filter. apply Permutation_flat_map. apply base_children. }
  rewrite flat_map_of_map, !filter_flat_map.
  apply Permutation_flat_map_pointwise. intros x Hx.
  unfold stepVisited.
  destruct (fst x && isIdentifier (snd x)) eqn:Hid.
  - apply andb_prop in Hid. destruct Hid as [_ Hid].
    destruct (snd x); try discriminate.
    rewrite subnodes_eq. simpl. now rewrite Hp.
  - apply IH. now apply base_in_children.
Qed.

(** The visited nodes are nodes of the tree. *)
Lemma visited_in_subnodes (n x : node) : In x (visited n) -> In x (subnodes n).
Proof.
  revert x. induction n as [n IH] using node_ind'. intros x.
  rewrite Forall_forall in IH.
  rewrite visited_eq, in_app_iff. intros [Hx|[<-|[]]].
  - apply in_flat_map in Hx. destruct Hx as [child [Hchild Hx]].
    unfold stepVisited in Hx.
    destruct (fst child && isIdentifier (snd child)); [contradiction|].
    apply base_in_children in Hchild.
    eapply subnodes_child; eauto.
  - apply subnodes_self.
Qed.

End WalkFacts.

(* ================================================================== *)
(** * Deep nesting                                                     *)
(* ================================================================== *)

Module NestingFacts.
Import ESTree TreeFacts.

(** No control-flow node holds an array. *)
Lemma controlFlow_singles (n : node) :
  isControlFlow n = true -> Forall (fun kp => isArray (snd kp) = false) (props n).
Proof.
  destruct n; simpl; try discriminate; intros _;
    unfold props; simpl; unfold one, opt; repeat constructor.
Qed.

Lemma checkNesting_constructs (content filePath : string) (lines : list string) (n : node) :
  forall level issues,
    checkNesting content filePath lines n level issues
    = (issues
       ++ map (deepNestingIssue content filePath lines)
            (filter tooDeep
               (constructs (fun key isArray => isArray || isBodyKey key) n level)))%list.
Proof.
  induction n as [n IH] using node_ind'. intros level issues.
  rewrite Forall_forall in IH.
  unfold checkNesting, constructs. rewrite !objRec_eq.
  fold (checkNesting content filePath lines).
  fold (constructs (fun key isArray => isArray || isBodyKey key)).
  unfold checkNestingBody, constructsBody.
  rewrite filter_app, map_app, app_assoc.
  pose proof (controlFlow_singles n) as Hsingle.
  unfold children in IH.
  set (own := (issues ++ map _ (filter tooDeep (if isControlFlow n then _ else _)))%list).
  match goal with
  | |- fold_left _ _ ?start = _ => assert (Hown : start = own)
  end.
  { subst own. unfold push.
    destruct (isControlFlow n); cbn [andb filter map]; [|now rewrite app_nil_r].
    unfold tooDeep at 1; cbn [snd].
    destruct (MAX_NESTING_LEVEL <=? level); cbn [map];
      [reflexivity | now rewrite app_nil_r]. }
  rewrite Hown. clearbody own. clear Hown.
  revert own.
  induction (props n) as [|[key value] ps IHps]; intros own.
  - simpl. now rewrite app_nil_r.
  - cbn [map fold_left flat_map fst snd].
    rewrite IHps; clear IHps.
    2:{ intros x Hx. apply IH. simpl. apply in_or_app. now right. }
    2:{ intros Hcf. specialize (Hsingle Hcf). now inversion Hsingle. }
    rewrite filter_app, map_app, app_assoc. f_equal.
    assert (IHv : forall x, In x (held value) ->
              forall level issues,
                checkNesting content filePath lines x level issues
                = (issues
                   ++ map (deepNestingIssue content filePath lines)
                        (filter tooDeep
                           (constructs (fun key isArray => isArray || isBodyKey key)
                              x level)))%list).
    { intros x Hx. apply IH. simpl. apply in_or_app. now left. }
    assert (Harr : isControlFlow n = true -> isArray value = false).
    { intros Hcf. specialize (Hsingle Hcf). now inversion Hsingle. }
    clear IH Hsingle.
    destruct value as [[child|]|children]; cbn [prop_map option_map isArray held option_list].
    + cbn [orb]. destruct (isBodyKey key); cbn [andb flat_map].
      * rewrite app_nil_r, andb_true_r. apply IHv. now left.
      * now rewrite app_nil_r.
    + cbn [orb]. destruct (isBodyKey key); cbn [andb flat_map]; now rewrite app_nil_r.
    + cbn [orb]. 
      assert (Hlevel : (if isControlFlow n && isBodyKey key then level + 1 else level)
                       = (if isControlFlow n then level + 1 else level)).
      { destruct (isControlFlow n); [|reflexivity].
        specialize (Harr eq_refl). discriminate. }
      rewrite Hlevel. clear Harr Hlevel.
      revert own. induction children as [|[x|] l IHl]; intros own.
      * simpl. now rewrite app_nil_r.
      * cbn [map option_map fold_left flat_map option_list app].
        rewrite IHl by (intros y Hy; apply IHv; simpl; now right).
        rewrite (IHv x) by now left.
        now rewrite filter_app, map_app, app_assoc.
      * cbn [map option_map fold_left flat_map option_list app].
        apply IHl. intros y Hy. apply IHv. exact Hy.
Qed.

(** Restricting the properties entered only drops constructs: the depth
    of those that remain is their depth in the whole tree. *)
Lemma constructs_incl (follow : string -> bool -> bool) (n : node) :
  forall depth, incl (constructs follow n depth) (constructs (fun _ _ => true) n depth).
Proof.
  induction n as [n IH] using node_ind'. intros depth.
  rewrite Forall_forall in IH. unfold children in IH.
  unfold constructs. rewrite !objRec_eq.
  fold (constructs follow). fold (constructs (fun _ _ => true)).
  unfold constructsBody.
  apply incl_app_app; [apply incl_refl|].
  induction (props n) as [|[key value] ps IHps].
  - apply incl_refl.
  - cbn [map flat_map fst snd].
    apply incl_app_app.
    + destruct (follow key _); [|intros x []].
      rewrite !held_prop_map.
      assert (IHv : forall x, In x (held value) ->
                forall depth, incl (constructs follow x depth)
                                (constructs (fun _ _ => true) x depth)).
      { intros x Hx. apply IH. simpl. apply in_or_app. now left. }
      clear IH IHps.
      induction (held value) as [|x l IHl]; [apply incl_refl|].
      cbn [map flat_map]. apply incl_app_app.
      * apply IHv. now left.
      * apply IHl. intros y Hy. apply IHv. now right.
    + apply IHps. intros x Hx. apply IH. simpl. apply in_or_app. now right.
Qed.

Lemma constructs_controlFlow (follow : string -> bool -> bool) (n : node) :
  forall depth found, In found (constructs follow n depth) -> isControlFlow (fst found) = true.
Proof.
  induction n as [n IH] using node_ind'. intros depth found.
  rewrite Forall_forall in IH. unfold children in IH.
  unfold constructs. rewrite objRec_eq. fold (constructs follow).
  unfold constructsBody. rewrite in_app_iff. intros [Hown|Hbelow].
  - destruct (isControlFlow n) eqn:Hcf; [|contradiction].
    destruct Hown as [<-|[]]. exact Hcf.
  - apply in_flat_map in Hbelow. destruct Hbelow as [entry [Hin Hfound]].
    apply in_map_iff in Hin. destruct Hin as [kp [<- Hin]].
    cbn [fst snd] in Hfound.
    destruct (follow _ _); [|contradiction].
    rewrite held_prop_map in Hfound.
    apply in_flat_map in Hfound. destruct Hfound as [below [Hb Hfound]].
    apply in_map_iff in Hb. destruct Hb as [x [<- Hx]].
    eapply IH; [|exact Hfound].
    apply in_flat_map. exists kp. auto.
Qed.

End NestingFacts.

(** C1, as amended. The nesting walk enters the elements of every array
    and the properties [body], [consequent] and [alternate], and nothing
    else. For every control-flow construct (conditional or one of the
    loop forms) that can be reached from the root in this way and that is
    nested at depth >= 4 (at least 3 enclosing control-flow bodies, that is
    [level >= 3]), the engine emits exactly one DeepNesting issue, anchored
    at the start line of the construct, with [level + 1] in the message;
    a reached construct at depth <= 3 triggers none; the nesting level of a
    reached construct is its level in the whole tree. *)
Theorem deep_nesting_of_reached_constructs :
  forall (ast : node) (content filePath : string) (lines : list string),
    checkForDeeplyNestedCode ast content filePath lines []
    = map (deepNestingIssue content filePath lines)
        (filter tooDeep (reachedConstructs ast))
    /\ incl (reachedConstructs ast) (allConstructs ast)
    /\ (forall found, In found (allConstructs ast) -> isControlFlow (fst found) = true).
Proof.
  intros ast content filePath lines. split; [|split].
  - unfold checkForDeeplyNestedCode, reachedConstructs.
    now rewrite NestingFacts.checkNesting_constructs.
  - apply NestingFacts.constructs_incl.
  - intros found. apply NestingFacts.constructs_controlFlow.
Qed.

(** C1 fails as stated: the conditional [if (d)] below has three enclosing
    control-flow bodies, and no issue is emitted, since the walk does not
    enter the [block] of the [try] statement. *)
Lemma deep_nesting_in_try_block_unreported :
  In (Samples.if_d, 3) (allConstructs Samples.nestedInTry)
  /\ isControlFlow Samples.if_d = true
  /\ checkForDeeplyNestedCode Samples.nestedInTry Samples.nestedInTry_source
       "sample.js" (JS.split_LF Samples.nestedInTry_source) [] = [].
Proof.
  split; [|split]; [vm_compute; tauto | reflexivity | reflexivity].
Qed.

(** Levels exactly 3 and exactly 4 (the README: more than 3 levels): of
    four conditionals nested in a plain block only the innermost is
    reported, with "4 levels", at its line. *)
Example deep_nesting_in_block_reported :
  checkForDeeplyNestedCode Samples.nestedInBlock Samples.nestedInBlock_source
    "sample.js" (JS.split_LF Samples.nestedInBlock_source) []
  = [ {| type := DeepNesting;
         filePath := "sample.js";
         line := 5;
         message := "Code is nested too deeply (4 levels)";
         code := "        if (d) { }" |} ].
Proof. reflexivity. Qed.

(* ================================================================== *)
(** * Unreachable code                                                 *)
(* ================================================================== *)

Module DeadCodeFacts.
Import ESTree Walk TreeFacts WalkFacts.

Section WithFile.
Variables (content filePath : string) (lines : list string).

Lemma deadCodeLoop_found (statements : list node) (returnLine : option nat)
    (issues : list Issue) :
  deadCodeLoop content filePath lines statements true returnLine issues
  = (issues ++ match statements with
               | statement :: _ => [deadCodeIssue content filePath lines statement]
               | [] => []
               end)%list.
Proof. destruct statements; simpl; [now rewrite app_nil_r | reflexivity]. Qed.

Lemma deadCodeLoop_eq (statements : list node) :
  forall returnLine issues,
    deadCodeLoop content filePath lines statements false returnLine issues
    = (issues ++ match afterFirstReturn statements with
                 | Some statement => [deadCodeIssue content filePath lines statement]
                 | None => []
                 end)%list.
Proof.
  induction statements as [|statement rest IH]; intros returnLine issues.
  - simpl. now rewrite app_nil_r.
  - cbn [deadCodeLoop afterFirstReturn]. unfold isReturn.
    destruct (String.eqb (type_of statement) "ReturnStatement").
    + rewrite deadCodeLoop_found. now destruct rest.
    + apply IH.
Qed.

Lemma afterFirstReturn_short (statements : list node) :
  List.length statements <= 1 -> afterFirstReturn statements = None.
Proof.
  destruct statements as [|s [|s' rest]]; simpl; intros H; try lia; try reflexivity.
  now destruct (isReturn s).
Qed.

(** The visitor appends what the block is reported for. *)
Lemma deadCodeVisitors_eq (n : node) (issues : list Issue) :
  deadCodeVisitors content filePath lines n issues
  = (issues ++ if isBlock n then unreachableIn content filePath lines n else [])%list.
Proof.
  destruct n; cbn [deadCodeVisitors isBlock type_of String.eqb Ascii.eqb Bool.eqb];
    try (now rewrite app_nil_r).
  unfold unreachableIn; cbn [blockBody].
  destruct (List.length body <=? 1) eqn:Hlen.
  - apply Nat.leb_le in Hlen. rewrite afterFirstReturn_short by exact Hlen.
    now rewrite app_nil_r.
  - apply deadCodeLoop_eq.
Qed.

Lemma flat_map_blocks (l : list node) :
  flat_map (fun n => if isBlock n then unreachableIn content filePath lines n else []) l
  = flat_map (unreachableIn content filePath lines) (filter isBlock l).
Proof.
  induction l as [|x l IH]; [reflexivity|].
  cbn [flat_map filter]. destruct (isBlock x); cbn [flat_map]; now rewrite IH.
Qed.

(** The detector appends the reports of the blocks, in the order of the walk. *)
Lemma checkForDeadCode_eq (ast : node) (issues : list Issue) :
  checkForDeadCode ast content filePath lines issues
  = (issues
     ++ flat_map (unreachableIn content filePath lines) (filter isBlock (visited ast)))%list.
Proof.
  unfold checkForDeadCode. rewrite simple_fold.
  rewrite (fold_appending _
             (fun n => if isBlock n then unreachableIn content filePath lines n else [])).
  - now rewrite flat_map_blocks.
  - intros; apply deadCodeVisitors_eq.
Qed.

End WithFile.
End DeadCodeFacts.

(* ================================================================== *)
(** * Unused declarations                                              *)
(* ================================================================== *)

Module MapFacts.

Lemma get_set_same {V} (k : string) (v : V) (m : JSMap.t V) :
  JSMap.get k (JSMap.set k v m) = Some v.
Proof.
  induction m as [|[k' v'] m IH]; simpl.
  - now rewrite String.eqb_refl.
  - destruct (String.eqb k' k) eqn:E; simpl; [now rewrite String.eqb_refl|].
    now rewrite E.
Qed.

Lemma get_set_other {V} (k k' : string) (v : V) (m : JSMap.t V) :
  k <> k' -> JSMap.get k' (JSMap.set k v m) = JSMap.get k' m.
Proof.
  intros Hne. induction m as [|[k0 v0] m IH]; simpl.
  - destruct (String.eqb k k') eqn:E; [apply String.eqb_eq in E; contradiction | reflexivity].
  - destruct (String.eqb k0 k) eqn:E; simpl.
    + apply String.eqb_eq in E. subst k0.
      destruct (String.eqb k k') eqn:E'; [apply String.eqb_eq in E'; contradiction|reflexivity].
    + now rewrite IH.
Qed.

Lemma keys_set_in {V} (k k' : string) (v : V) (m : JSMap.t V) :
  In k' (map fst (JSMap.set k v m)) <-> k' = k \/ In k' (map fst m).
Proof.
  induction m as [|[k0 v0] m IH]; simpl.
  - intuition.
  - destruct (String.eqb k0 k) eqn:E; simpl.
    + apply String.eqb_eq in E. subst. intuition.
    + rewrite IH. intuition.
Qed.

Lemma keys_set_NoDup {V} (k : string) (v : V) (m : JSMap.t V) :
  NoDup (map fst m) -> NoDup (map fst (JSMap.set k v m)).
Proof.
  induction m as [|[k0 v0] m IH]; simpl; intros Hnd.
  - constructor; [intros [] | constructor].
  - inversion Hnd as [|? ? Hnotin Hnd']; subst.
    destruct (String.eqb k0 k) eqn:E; simpl.
    + apply String.eqb_eq in E. subst. now constructor.
    + constructor; [|now apply IH].
      rewrite keys_set_in. intros [->|Hin]; [|contradiction].
      now rewrite String.eqb_refl in E.
Qed.

Lemma setAll_NoDup {V} (l : list (string * V)) :
  forall m, NoDup (map fst m) -> NoDup (map fst (JSMap.setAll l m)).
Proof.
  induction l as [|[k v] l IH]; simpl; intros m Hnd; [assumption|].
  apply IH. now apply keys_set_NoDup.
Qed.

Lemma get_app {V} (k : string) (l1 l2 : list (string * V)) :
  JSMap.get k (l1 ++ l2)%list
  = match JSMap.get k l1 with Some v => Some v | None => JSMap.get k l2 end.
Proof.
  induction l1 as [|[k0 v0] l1 IH]; simpl; [reflexivity|].
  now destruct (String.eqb k0 k).
Qed.

(** Last write wins. *)
Lemma get_setAll {V} (k : string) (l : list (string * V)) :
  forall m,
    JSMap.get k (JSMap.setAll l m)
    = match JSMap.get k (rev l) with Some v => Some v | None => JSMap.get k m end.
Proof.
  induction l as [|[k0 v0] l IH]; simpl; intros m; [reflexivity|].
  rewrite IH, get_app. destruct (JSMap.get k (rev l)); [reflexivity|].
  simpl. destruct (String.eqb k0 k) eqn:E.
  - apply String.eqb_eq in E. subst. apply get_set_same.
  - apply get_set_other. intros ->. now rewrite String.eqb_refl in E.
Qed.

Lemma get_In {V} (k : string) (v : V) (m : JSMap.t V) :
  JSMap.get k m = Some v -> In (k, v) m.
Proof.
  induction m as [|[k0 v0] m IH]; simpl; [discriminate|].
  destruct (String.eqb k0 k) eqn:E.
  - apply String.eqb_eq in E. intros [= ->]. left. now subst.
  - intros H. right. now apply IH.
Qed.

(** With distinct keys, [update] touches the one entry of its key. *)
Lemma update_map {V} (k : string) (f : V -> V) (m : JSMap.t V) :
  NoDup (map fst m) ->
  JSMap.update k f m
  = map (fun kv => (fst kv, if String.eqb (fst kv) k then f (snd kv) else snd kv)) m.
Proof.
  induction m as [|[k0 v0] m IH]; simpl; intros Hnd; [reflexivity|].
  inversion Hnd as [|? ? Hnotin Hnd']; subst.
  destruct (String.eqb k0 k) eqn:E.
  - f_equal. apply String.eqb_eq in E. subst k0.
    clear IH Hnd Hnd'. induction m as [|[k1 v1] m IHm]; simpl; [reflexivity|].
    simpl in Hnotin.
    destruct (String.eqb k1 k) eqn:E1.
    + apply String.eqb_eq in E1. subst. tauto.
    + f_equal. apply IHm. tauto.
  - f_equal. now apply IH.
Qed.

End MapFacts.

Module UnusedFacts.
Import ESTree Walk TreeFacts WalkFacts MapFacts.

Lemma declarationVisitors_eq (content : string) (n : node) (m : JSMap.t Info.t) :
  declarationVisitors content n m
  = match declares content n with
    | Some kv => JSMap.set (fst kv) (snd kv) m
    | None => m
    end.
Proof.
  destruct n; try reflexivity; cbn [declarationVisitors declares];
    destruct_inspected; reflexivity.
Qed.

Lemma declares_fresh (content : string) (n : node) (kv : string * Info.t) :
  declares content n = Some kv -> fresh (snd kv).
Proof.
  destruct n; try discriminate; cbn [declares];
    destruct_inspected; try discriminate; intros [= <-]; split; unfold kinded;
    simpl; auto.
Qed.

Lemma declarationsOf_fresh (content : string) (ast : node) (kv : string * Info.t) :
  In kv (declarationsOf content ast) -> fresh (snd kv).
Proof.
  unfold declarationsOf. rewrite in_flat_map. intros [n [_ Hn]].
  destruct (declares content n) as [kv'|] eqn:E; [|contradiction].
  destruct Hn as [<-|[]]. eapply declares_fresh; eauto.
Qed.

(** The first pass. *)
Lemma first_pass (content : string) (ast : node) :
  simple (declarationVisitors content) ast []
  = JSMap.setAll (declarationsOf content ast) [].
Proof.
  rewrite simple_fold. unfold declarationsOf, JSMap.setAll.
  generalize (@nil (string * Info.t)). 
  induction (visited ast) as [|n l IH]; intros m; [reflexivity|].
  cbn [fold_left flat_map]. rewrite fold_left_app, IH. f_equal.
  rewrite declarationVisitors_eq. now destruct (declares content n).
Qed.

Lemma setAll_In {V} (l : list (string * V)) :
  forall m kv, In kv (JSMap.setAll l m) -> In kv l \/ In kv m.
Proof.
  induction l as [|[k v] l IH]; simpl; intros m kv H; [now right|].
  apply IH in H. destruct H as [H|H]; [tauto|].
  assert (Hset : forall m', In kv (JSMap.set k v m') -> kv = (k, v) \/ In kv m').
  { clear. induction m' as [|[k0 v0] m' IHm]; simpl.
    - intros [<-|[]]. now left.
    - destruct (String.eqb k0 k); simpl.
      + intros [<-|H]; [now left | right; now right].
      + intros [<-|H]; [right; now left|].
        apply IHm in H. tauto. }
  apply Hset in H. destruct H as [->|H]; [left; now left | now right].
Qed.

Lemma update_absent {V} (k : string) (f : V -> V) (m : JSMap.t V) :
  JSMap.has k m = false -> JSMap.update k f m = m.
Proof.
  unfold JSMap.has. induction m as [|[k0 v0] m IH]; simpl; [reflexivity|].
  destruct (String.eqb k0 k); [discriminate|]. intros H. now rewrite IH.
Qed.

Lemma referenceVisitors_eq (n : node) (ancestors : list node)
    (declarations : JSMap.t Info.t) (references : list string) :
  fst (referenceVisitors n ancestors (declarations, references))
  = match refersTo (n, ancestors) with
    | Some name => JSMap.update name Info.markUsed declarations
    | None => declarations
    end.
Proof.
  unfold referenceVisitors, refersTo. cbn [fst snd].
  destruct n; try reflexivity.
  destruct (isDeclaration _ _); cbn [negb andb]; [reflexivity|].
  destruct (JSMap.has name declarations) eqn:E; [reflexivity|].
  now rewrite update_absent.
Qed.

(** The second pass marks the records of the names referred to. *)
Lemma second_pass (ast : node) (declarations : JSMap.t Info.t) (references : list string) :
  fst (ancestor referenceVisitors ast (declarations, references))
  = fold_left (fun d name => JSMap.update name Info.markUsed d) (referencesOf ast)
      declarations.
Proof.
  rewrite ancestor_fold. unfold referencesOf.
  revert declarations references.
  induction (visits [] ast) as [|[n ancs] l IH]; intros d r; [reflexivity|].
  cbn [fold_left flat_map]. rewrite fold_left_app.
  unfold call at 2. cbn [fst snd].
  destruct (referenceVisitors n ancs (d, r)) as [d' r'] eqn:E.
  rewrite IH. f_equal.
  pose proof (referenceVisitors_eq n ancs d r) as H. rewrite E in H. cbn [fst] in H.
  rewrite H. now destruct (refersTo (n, ancs)).
Qed.

Lemma updates_map (names : list string) :
  forall m : JSMap.t Info.t,
    NoDup (map fst m) ->
    fold_left (fun d name => JSMap.update name Info.markUsed d) names m
    = map (marked names) m.
Proof.
  induction names as [|name names IH]; intros m Hnd.
  - simpl. unfold marked. simpl. rewrite <- (map_id m) at 1. apply map_ext.
    now intros [k v].
  - cbn [fold_left]. rewrite update_map by exact Hnd.
    rewrite IH.
    + rewrite map_map. apply map_ext. intros [k v]. unfold marked. cbn [fst snd existsb].
      destruct (String.eqb k name), (existsb (String.eqb k) names); reflexivity.
    + now rewrite map_map, (map_ext _ fst) by reflexivity.
Qed.

Lemma reportUnused_eq (filePath : string) (lines : list string) (issues : list Issue)
    (entry : string * Info.t) :
  reportUnused filePath lines issues entry
  = (issues ++ reportOf filePath lines entry)%list.
Proof.
  destruct entry as [name info]. unfold reportUnused, reportOf. cbn [fst snd].
  destruct (isSpecialName name); [now rewrite app_nil_r|].
  destruct (Info.used info); cbn [negb]; [now rewrite app_nil_r | reflexivity].
Qed.

Lemma third_pass (filePath : string) (lines : list string)
    (declarations : JSMap.t Info.t) (issues : list Issue) :
  fold_left (reportUnused filePath lines) declarations issues
  = (issues ++ flat_map (reportOf filePath lines) declarations)%list.
Proof.
  apply (fold_appending (fun entry issues => reportUnused filePath lines issues entry)).
  intros; apply reportUnused_eq.
Qed.

(** The three passes together. *)
Lemma checkForUnusedCode_eq (ast : node) (content filePath : string)
    (lines : list string) (issues : list Issue) :
  checkForUnusedCode ast content filePath lines issues
  = (issues
     ++ flat_map (reportOf filePath lines)
          (map (marked (referencesOf ast))
             (JSMap.setAll (declarationsOf content ast) [])))%list.
Proof.
  unfold checkForUnusedCode.
  rewrite first_pass.
  pose proof (second_pass ast (JSMap.setAll (declarationsOf content ast) []) []) as H.
  destruct (ancestor referenceVisitors ast _) as [d r]. cbn [fst] in H. subst d.
  rewrite third_pass. do 2 f_equal.
  apply updates_map. apply setAll_NoDup. constructor.
Qed.

Lemma length_append (a b : string) :
  String.length (a ++ b) = String.length a + String.length b.
Proof. induction a as [|ch a IH]; simpl; [reflexivity | now rewrite IH]. Qed.

Lemma append_cancel_right (a b s : string) : a ++ s = b ++ s -> a = b.
Proof.
  revert b. induction a as [|ch a IH]; intros b H.
  - destruct b as [|ch' b]; [reflexivity|]. exfalso.
    apply (f_equal String.length) in H. simpl in H.
    rewrite length_append in H. lia.
  - destruct b as [|ch' b].
    + exfalso. apply (f_equal String.length) in H. simpl in H.
      rewrite length_append in H. lia.
    + simpl in H. injection H as -> H. f_equal. now apply IH.
Qed.

Lemma eqb_append_right (a b s : string) :
  String.eqb (a ++ s) (b ++ s) = String.eqb a b.
Proof.
  destruct (String.eqb a b) eqn:E.
  - apply String.eqb_eq in E. subst. apply String.eqb_refl.
  - apply String.eqb_neq. intros H. apply append_cancel_right in H.
    subst. now rewrite String.eqb_refl in E.
Qed.

(** An issue for one name is about another name only if they are equal. *)
Lemma aboutName_unusedIssue (filePath : string) (lines : list string)
    (name k : string) (info : Info.t) :
  kinded info ->
  aboutName name (unusedIssue filePath lines k info) = String.eqb k name.
Proof.
  intros [H|H]; unfold aboutName, unusedIssue; cbn [message]; rewrite H;
    cbn -[String.eqb]; cbn [String.eqb Ascii.eqb Bool.eqb andb orb];
    rewrite ?eqb_append_right, ?orb_false_r; reflexivity.
Qed.

Lemma filter_about (filePath : string) (lines : list string) (name : string)
    (m : JSMap.t Info.t) :
  NoDup (map fst m) ->
  (forall kv, In kv m -> kinded (snd kv)) ->
  filter (aboutName name) (flat_map (reportOf filePath lines) m)
  = match JSMap.get name m with
    | Some info => reportOf filePath lines (name, info)
    | None => []
    end.
Proof.
  induction m as [|[k v] m IH]; intros Hnd Hk; [reflexivity|].
  inversion Hnd as [|? ? Hnotin Hnd']; subst.
  cbn [flat_map JSMap.get]. rewrite filter_app, IH; clear IH.
  2: assumption.
  2: intros kv Hkv; apply Hk; now right.
  assert (Hhead : filter (aboutName name) (reportOf filePath lines (k, v))
                  = if String.eqb k name then reportOf filePath lines (k, v) else []).
  { unfold reportOf. cbn [fst snd].
    destruct (isSpecialName k); [now destruct (String.eqb k name)|].
    destruct (Info.used v); [now destruct (String.eqb k name)|].
    cbn [filter]. rewrite aboutName_unusedIssue by (apply (Hk (k, v)); now left).
    reflexivity. }
  rewrite Hhead. destruct (String.eqb k name) eqn:E.
  - apply String.eqb_eq in E. subst k.
    destruct (JSMap.get name m) eqn:G.
    + apply get_In in G. exfalso. apply Hnotin.
      change name with (fst (name, t)). now apply in_map.
    + now rewrite app_nil_r.
  - reflexivity.
Qed.

Lemma get_marked (names : list string) (name : string) (m : JSMap.t Info.t) :
  JSMap.get name (map (marked names) m)
  = option_map
      (fun info => if existsb (String.eqb name) names then Info.markUsed info else info)
      (JSMap.get name m).
Proof.
  induction m as [|[k v] m IH]; [reflexivity|].
  cbn [map marked fst snd JSMap.get]. destruct (String.eqb k name) eqn:E.
  - apply String.eqb_eq in E. now subst.
  - exact IH.
Qed.

(** The issues about one name: the report for its record. *)
Lemma about_record (ast : node) (content filePath : string)
    (lines : list string) (name : string) :
  filter (aboutName name) (checkForUnusedCode ast content filePath lines [])
  = match lastDeclared content ast name with
    | Some info =>
        reportOf filePath lines
          (name, if referenced ast name then Info.markUsed info else info)
    | None => []
    end.
Proof.
  rewrite checkForUnusedCode_eq. cbn [app].
  set (m1 := JSMap.setAll (declarationsOf content ast) []).
  assert (Hnd : NoDup (map fst m1)) by (apply setAll_NoDup; constructor).
  assert (Hfresh : forall kv, In kv m1 -> fresh (snd kv)).
  { intros kv Hkv. apply setAll_In in Hkv. destruct Hkv as [Hkv|[]].
    eapply declarationsOf_fresh; eauto. }
  rewrite filter_about.
  - rewrite get_marked. subst m1. rewrite get_setAll. unfold lastDeclared, referenced.
    now destruct (JSMap.get name (rev (declarationsOf content ast))).
  - now rewrite map_map, (map_ext _ fst) by reflexivity.
  - intros kv Hkv. apply in_map_iff in Hkv. destruct Hkv as [kv' [<- Hkv']].
    apply Hfresh in Hkv'. destruct Hkv' as [Hkind _].
    unfold marked, kinded. cbn [snd].
    destruct (existsb _ _); exact Hkind.
Qed.

(** The record of a name is as the first pass made it. *)
Lemma lastDeclared_fresh (content : string) (ast : node) (name : string) (info : Info.t) :
  lastDeclared content ast name = Some info -> fresh info.
Proof.
  unfold lastDeclared. intros G. apply get_In in G. apply in_rev in G.
  now apply (declarationsOf_fresh content ast (name, info)) in G.
Qed.

End UnusedFacts.

(** C4 fails as stated: of two declarations of the name [a], on lines 1
    and 2, only the second is reported; no issue is anchored at the line of
    the first. The only identifiers of the tree are the two that declare
    [a]: the name is used nowhere. *)
Lemma redeclared_name_first_declaration_unreported :
  In Samples.first_a (subnodes Samples.redeclared)
  /\ declares Samples.redeclared_source Samples.first_a
     = Some ("a", {| Info.type := "Variable"; Info.line := 1; Info.used := false |})
  /\ filter Walk.isIdentifier (subnodes Samples.redeclared)
     = [ Identifier (Samples.at_ 4 5) "a"; Identifier (Samples.at_ 15 16) "a" ]
  /\ occurrences Samples.redeclared "a" = []
  /\ referenced Samples.redeclared "a" = false
  /\ isSpecialName "a" = false
  /\ checkForUnusedCode Samples.redeclared Samples.redeclared_source "sample.js"
       (JS.split_LF Samples.redeclared_source) []
     = [ {| type := UnusedVariable;
            filePath := "sample.js";
            line := 2;
            message := "Unused variable 'a'";
            code := "var a = 2;" |} ].
Proof.
  repeat split; try reflexivity. vm_compute. tauto.
Qed.

(** A case that the amended C4 leaves out: the only other occurrence of
    the name is the target of an assignment, which the walk hands to no
    visitor, and the variable is reported. *)
Example write_only_variable_reported :
  checkForUnusedCode Samples.writeOnly Samples.writeOnly_source "sample.js"
    (JS.split_LF Samples.writeOnly_source) []
  = [ {| type := UnusedVariable;
         filePath := "sample.js";
         line := 1;
         message := "Unused variable 'x'";
         code := "let x;" |} ].
Proof. reflexivity. Qed.

(** C10. The names skipped by the unused-declaration detector are exactly
    [exports], [module] and [require]: a declaration of one of them never
    yields an UnusedVariable or UnusedFunction issue, referenced or not,
    and a declared name outside the set that is never referenced yields
    its issue. *)
Theorem exclusion_set_is_exports_module_require :
  forall (ast : node) (content filePath : string) (lines : list string) (name : string),
    (isSpecialName name = true <-> In name ["exports"; "module"; "require"])
    /\ (In name ["exports"; "module"; "require"] ->
        filter (aboutName name) (checkForUnusedCode ast content filePath lines []) = [])
    /\ (~ In name ["exports"; "module"; "require"] ->
        referenced ast name = false ->
        forall info, lastDeclared content ast name = Some info ->
          filter (aboutName name) (checkForUnusedCode ast content filePath lines [])
          = [unusedIssue filePath lines name info]).
Proof.
  intros ast content filePath lines name.
  assert (Hset : isSpecialName name = true <-> In name ["exports"; "module"; "require"]).
  { unfold isSpecialName. rewrite !orb_true_iff, !String.eqb_eq. simpl.
    intuition congruence. }
  split; [exact Hset|]. split.
  - intros Hin. apply Hset in Hin.
    rewrite UnusedFacts.about_record.
    destruct (lastDeclared content ast name); [|reflexivity].
    unfold reportOf. cbn [fst]. now rewrite Hin.
  - intros Hout Href info Hlast.
    rewrite UnusedFacts.about_record, Hlast, Href.
    apply UnusedFacts.lastDeclared_fresh in Hlast. destruct Hlast as [_ Hused].
    unfold reportOf. cbn [fst snd]. rewrite Hused.
    destruct (isSpecialName name) eqn:E; [|reflexivity].
    exfalso. apply Hout, Hset. reflexivity.
Qed.

Lemma exclusion_set_witness :
  filter (aboutName "module")
    (checkForUnusedCode Samples.hostName Samples.hostName_source "sample.js"
       (JS.split_LF Samples.hostName_source) []) = []
  /\ filter (aboutName "orphan")
       (checkForUnusedCode Samples.hostName Samples.hostName_source "sample.js"
          (JS.split_LF Samples.hostName_source) [])
     = [ unusedIssue "sample.js" (JS.split_LF Samples.hostName_source) "orphan"
           {| Info.type := "Variable"; Info.line := 2; Info.used := false |} ].
Proof.
  split.
  - apply (proj1 (proj2 (exclusion_set_is_exports_module_require
                           Samples.hostName Samples.hostName_source "sample.js"
                           (JS.split_LF Samples.hostName_source) "module"))).
    simpl. tauto.
  - apply (proj2 (proj2 (exclusion_set_is_exports_module_require
                           Samples.hostName Samples.hostName_source "sample.js"
                           (JS.split_LF Samples.hostName_source) "orphan"))).
    + simpl. intros [H|[H|[H|[]]]]; discriminate H.
    + reflexivity.
    + reflexivity.
Defined.

(** C2, as amended. For every block of the tree in which the first return
    statement is followed by at least one statement, the engine emits
    exactly one UnreachableCode issue, anchored at the start line of the
    statement right after that return; the statements after it are not
    reported; a block without a return, or in which nothing follows the
    first return, yields none. For the block
    [{ return x; a(); b(); }] exactly one issue is emitted, at the line of
    [a();]. *)
Theorem unreachable_code_once_per_block :
  forall (ast : node) (content filePath : string) (lines : list string),
    Permutation (checkForDeadCode ast content filePath lines [])
      (flat_map (unreachableIn content filePath lines) (blocks ast))
    /\ checkForDeadCode Samples.returnFirst Samples.returnFirst_source "sample.js"
         (JS.split_LF Samples.returnFirst_source) []
       = [ {| type := UnreachableCode;
              filePath := "sample.js";
              line := 3;
              message := "Unreachable code after return statement";
              code := "  a();" |} ].
Proof.
  intros ast content filePath lines. split; [|reflexivity].
  rewrite DeadCodeFacts.checkForDeadCode_eq. cbn [app].
  unfold blocks.
  apply Permutation_flat_map.
  apply WalkFacts.visited_subnodes. reflexivity.
Qed.

(** C2 fails as stated: the block below has two statements and a return
    statement at its top level, and no issue is emitted, since the return
    is the last statement. *)
Lemma return_at_end_of_block_unreported :
  In (BlockStatement (Samples.at_ 13 35) Samples.returnLast_body) (blocks Samples.returnLast)
  /\ 1 < List.length Samples.returnLast_body
  /\ existsb isReturn Samples.returnLast_body = true
  /\ checkForDeadCode Samples.returnLast Samples.returnLast_source "sample.js"
       (JS.split_LF Samples.returnLast_source) [] = [].
Proof.
  repeat split; try reflexivity.
  - vm_compute. tauto.
  - vm_compute. lia.
Qed.

(* ================================================================== *)
(** * The detectors, one after the other                               *)
(* ================================================================== *)

Module EngineFacts.
Import ESTree Walk TreeFacts WalkFacts.

Lemma checkForTodoComments_eq (content filePath : string) (lines : list string)
    (issues : list Issue) :
  checkForTodoComments content filePath lines issues
  = (issues ++ map (todoIssue content filePath lines) (TodoRegex.execAll content))%list.
Proof.
  unfold checkForTodoComments.
  rewrite (fold_appending
             (fun m issues => push issues (todoIssue content filePath lines m))
             (fun m => [todoIssue content filePath lines m])) by reflexivity.
  now rewrite flat_map_singleton.
Qed.

Lemma longFunctionVisitors_eq (ast : node) (content filePath : string)
    (lines : list string) (n : node) (issues : list Issue) :
  longFunctionVisitors ast content filePath lines n issues
  = (issues ++ if isFunctionLike n
               then longFunctionReport ast content filePath lines n else [])%list.
Proof.
  destruct n;
    cbn [longFunctionVisitors isFunctionLike type_of String.eqb Ascii.eqb Bool.eqb orb];
    try (now rewrite app_nil_r);
    unfold longFunctionReport, functionLength;
    match goal with
    | |- context [MAX_FUNCTION_LENGTH <? ?len] => destruct (MAX_FUNCTION_LENGTH <? len)
    end;
    try (now rewrite app_nil_r);
    unfold push, longFunctionIssue, functionLength; cbn [functionLabel functionName];
    reflexivity.
Qed.

Lemma flat_map_filter {A B} (p : A -> bool) (f : A -> list B) (l : list A) :
  flat_map (fun x => if p x then f x else []) l = flat_map f (filter p l).
Proof.
  induction l as [|x l IH]; [reflexivity|].
  cbn [flat_map filter]. destruct (p x); cbn [flat_map]; now rewrite IH.
Qed.

Lemma checkForLongFunctions_eq (ast : node) (content filePath : string)
    (lines : list string) (issues : list Issue) :
  checkForLongFunctions ast content filePath lines issues
  = (issues
     ++ flat_map (longFunctionReport ast content filePath lines)
          (filter isFunctionLike (visited ast)))%list.
Proof.
  unfold checkForLongFunctions. rewrite simple_fold.
  rewrite (fold_appending _
             (fun n => if isFunctionLike n
                       then longFunctionReport ast content filePath lines n else [])).
  - now rewrite flat_map_filter.
  - intros; apply longFunctionVisitors_eq.
Qed.

(** The result of the engine on a parsed file: what each detector finds,
    in the order of the calls. *)
Lemma scanContent_parsed (ast : node) (content filePath : string) :
  let lines := JS.split_LF content in
  scanContent (Parsed ast) content filePath
  = (checkForTodoComments content filePath lines []
     ++ checkForUnusedCode ast content filePath lines []
     ++ checkForLongFunctions ast content filePath lines []
     ++ checkForDeeplyNestedCode ast content filePath lines []
     ++ checkForDeadCode ast content filePath lines [])%list.
Proof.
  intros lines. unfold scanContent. fold lines.
  rewrite DeadCodeFacts.checkForDeadCode_eq.
  unfold checkForDeeplyNestedCode at 1. rewrite NestingFacts.checkNesting_constructs.
  rewrite checkForLongFunctions_eq, UnusedFacts.checkForUnusedCode_eq.
  rewrite (DeadCodeFacts.checkForDeadCode_eq _ _ _ _ []).
  unfold checkForDeeplyNestedCode. rewrite (NestingFacts.checkNesting_constructs _ _ _ _ _ []).
  rewrite (checkForLongFunctions_eq _ _ _ _ []).
  rewrite (UnusedFacts.checkForUnusedCode_eq _ _ _ _ []).
  cbn [app]. now rewrite <- !app_assoc.
Qed.

Section Emitted.
Variables (content filePath : string) (lines : list string).

Lemma todo_emitted :
  Forall (emitted PendingWork content lines)
    (checkForTodoComments content filePath lines []).
Proof.
  rewrite checkForTodoComments_eq. cbn [app]. apply Forall_forall.
  intros issue Hin. apply in_map_iff in Hin. destruct Hin as [m [<- _]].
  repeat split. now exists (TodoRegex.index m).
Qed.

Lemma unused_emitted (ast : node) :
  Forall (fun issue => emitted UnusedVariable content lines issue
                       \/ emitted UnusedFunction content lines issue)
    (checkForUnusedCode ast content filePath lines []).
Proof.
  rewrite UnusedFacts.checkForUnusedCode_eq. cbn [app]. apply Forall_forall.
  intros issue Hin. apply in_flat_map in Hin. destruct Hin as [entry [Hentry Hin]].
  apply in_map_iff in Hentry. destruct Hentry as [[k v] [<- Hkv]].
  apply UnusedFacts.setAll_In in Hkv. destruct Hkv as [Hkv|[]].
  unfold declarationsOf in Hkv. apply in_flat_map in Hkv.
  destruct Hkv as [n [_ Hn]].
  destruct (declares content n) as [kv|] eqn:Hdecl; [|contradiction].
  destruct Hn as [->|[]].
  unfold reportOf, marked in Hin. cbn [fst snd] in Hin.
  destruct (isSpecialName k); [contradiction|].
  assert (Hline : exists index, Info.line v = getLineNumberFromIndex content index).
  { destruct n; try discriminate; cbn [declares] in Hdecl;
      repeat match goal with
             | H : context [match ?x with _ => _ end] |- _ => is_var x; destruct x
             end;
      try discriminate; injection Hdecl as <- <-; eexists; reflexivity. }
  assert (Hkind : Info.type v = "Variable" \/ Info.type v = "Function").
  { apply (UnusedFacts.declares_fresh content n (k, v)) in Hdecl. apply Hdecl. }
  assert (Hout : issue = unusedIssue filePath lines k v
                 \/ issue = unusedIssue filePath lines k (Info.markUsed v)).
  { destruct (existsb _ _), (Info.used _) eqn:E; try contradiction;
      destruct Hin as [<-|[]]; auto. }
  unfold emitted, unusedIssue, Info.markUsed in *.
  destruct Hout as [-> | ->]; cbn [type line code Info.type Info.line];
    destruct Hkind as [-> | ->]; [left|right|left|right]; repeat split; assumption.
Qed.

Lemma long_emitted (ast : node) :
  Forall (emitted LongFunction content lines)
    (checkForLongFunctions ast content filePath lines []).
Proof.
  rewrite checkForLongFunctions_eq. cbn [app]. apply Forall_forall.
  intros issue Hin. apply in_flat_map in Hin. destruct Hin as [n [_ Hin]].
  unfold longFunctionReport in Hin.
  destruct (MAX_FUNCTION_LENGTH <? _); [|contradiction].
  destruct Hin as [<-|[]]. repeat split. now exists (node_start n).
Qed.

Lemma nesting_emitted (ast : node) :
  Forall (emitted DeepNesting content lines)
    (checkForDeeplyNestedCode ast content filePath lines []).
Proof.
  unfold checkForDeeplyNestedCode. rewrite NestingFacts.checkNesting_constructs.
  cbn [app]. apply Forall_forall.
  intros issue Hin. apply in_map_iff in Hin. destruct Hin as [found [<- _]].
  repeat split. now exists (node_start (fst found)).
Qed.

Lemma dead_emitted (ast : node) :
  Forall (fun issue => emitted UnreachableCode content lines issue
                       /\ message issue = "Unreachable code after return statement")
    (checkForDeadCode ast content filePath lines []).
Proof.
  rewrite DeadCodeFacts.checkForDeadCode_eq. cbn [app]. apply Forall_forall.
  intros issue Hin. apply in_flat_map in Hin. destruct Hin as [n [_ Hin]].
  unfold unreachableIn in Hin.
  destruct (afterFirstReturn _) as [statement|]; [|contradiction].
  destruct Hin as [<-|[]]. repeat split. now exists (node_start statement).
Qed.

End Emitted.

End EngineFacts.

Module LineFacts.

Lemma split_LF_length (s : string) : 1 <= List.length (JS.split_LF s).
Proof.
  induction s as [|ch s IH]; simpl; [lia|].
  destruct (Ascii.eqb ch JS.LF); simpl; [lia|].
  destruct (JS.split_LF s); simpl in *; lia.
Qed.

(** Lines are counted from 1. *)
Lemma getLineNumberFromIndex_pos (content : string) (index : nat) :
  1 <= getLineNumberFromIndex content index.
Proof. apply split_LF_length. Qed.

Lemma getLineNumberFromIndex_0 (content : string) : getLineNumberFromIndex content 0 = 1.
Proof. unfold getLineNumberFromIndex, JS.slice0. now destruct content. Qed.

(** [lines[line - 1] || ''] is the line of that number, and empty past
    the end. *)
Lemma lineOr_spec (lines : list string) (line : nat) :
  1 <= line ->
  (line <= List.length lines -> nth_error lines (line - 1) = Some (JS.lineOr lines line))
  /\ (List.length lines < line -> JS.lineOr lines line = "").
Proof.
  destruct line as [|i]; [lia|]. intros _. cbn [JS.lineOr].
  replace (S i - 1) with i by lia. split; intros H.
  - apply nth_error_nth'. lia.
  - apply nth_overflow. lia.
Qed.

End LineFacts.

(** C7. Every issue the engine emits has a line >= 1 that is the line of
    an offset of the text (the newlines of the prefix counted) or the line
    the parser reported, the parser counting lines from 1; its snippet is
    the source line of that number, and the empty string when the number
    is past the last line. *)
Theorem issues_anchored_at_source_lines :
  forall (readFile : string -> Outcome string) (parse : string -> ParseResult)
         (filePath content : string) (issues : list Issue) (issue : Issue),
    readFile filePath = Returns content ->
    (forall loc message,
        parse content = ParseFailure (Some loc) message -> 1 <= Position.line loc) ->
    scanFile readFile parse filePath = Returns issues ->
    In issue issues ->
    1 <= line issue
    /\ ((exists index, line issue = getLineNumberFromIndex content index)
        \/ (exists loc message,
               parse content = ParseFailure (Some loc) message
               /\ line issue = Position.line loc))
    /\ (line issue <= List.length (JS.split_LF content) ->
        nth_error (JS.split_LF content) (line issue - 1) = Some (code issue))
    /\ (List.length (JS.split_LF content) < line issue -> code issue = "").
Proof.
  intros readFile parse filePath content issues issue Hread Hparser Hscan Hin.
  unfold scanFile in Hscan. rewrite Hread in Hscan. injection Hscan as <-.
  assert (Hgoal : 1 <= line issue
                  /\ ((exists index, line issue = getLineNumberFromIndex content index)
                      \/ (exists loc message,
                             parse content = ParseFailure (Some loc) message
                             /\ line issue = Position.line loc))
                  /\ code issue = JS.lineOr (JS.split_LF content) (line issue)).
  { destruct (parse content) as [ast|loc msg] eqn:Hparse.
    - assert (Hem : exists kind, emitted kind content (JS.split_LF content) issue).
      { rewrite EngineFacts.scanContent_parsed in Hin.
        repeat (apply in_app_or in Hin; destruct Hin as [Hin|Hin]).
        - eapply Forall_forall in Hin; [|apply EngineFacts.todo_emitted]; eauto.
        - eapply Forall_forall in Hin; [|apply EngineFacts.unused_emitted].
          destruct Hin; eauto.
        - eapply Forall_forall in Hin; [|apply EngineFacts.long_emitted]; eauto.
        - eapply Forall_forall in Hin; [|apply EngineFacts.nesting_emitted]; eauto.
        - eapply Forall_forall in Hin; [|apply EngineFacts.dead_emitted].
          destruct Hin; eauto. }
      destruct Hem as [kind [_ [[index Hline] Hcode]]].
      split; [|split].
      + rewrite Hline. apply LineFacts.getLineNumberFromIndex_pos.
      + left. now exists index.
      + exact Hcode.
    - cbn in Hin. destruct Hin as [<-|[]]. cbn [line code].
      destruct loc as [loc|].
      + split; [|split].
        * now apply (Hparser loc msg).
        * right. now exists loc, msg.
        * reflexivity.
      + split; [|split].
        * lia.
        * left. exists 0. now rewrite LineFacts.getLineNumberFromIndex_0.
        * reflexivity. }
  destruct Hgoal as [Hpos [Hfrom Hcode]].
  split; [exact Hpos|]. split; [exact Hfrom|].
  rewrite Hcode. now apply LineFacts.lineOr_spec.
Qed.

Lemma issues_anchored_witness :
  1 <= line Samples.returnFirst_issue
  /\ ((exists index,
         line Samples.returnFirst_issue
         = getLineNumberFromIndex Samples.returnFirst_source index)
      \/ (exists loc message,
             Parsed Samples.returnFirst = ParseFailure (Some loc) message
             /\ line Samples.returnFirst_issue = Position.line loc))
  /\ (line Samples.returnFirst_issue
      <= List.length (JS.split_LF Samples.returnFirst_source) ->
      nth_error (JS.split_LF Samples.returnFirst_source)
        (line Samples.returnFirst_issue - 1)
      = Some (code Samples.returnFirst_issue))
  /\ (List.length (JS.split_LF Samples.returnFirst_source)
      < line Samples.returnFirst_issue ->
      code Samples.returnFirst_issue = "").
Proof.
  apply (issues_anchored_at_source_lines
           (Samples.oneFile "sample.js" Samples.returnFirst_source)
           (fun _ => Parsed Samples.returnFirst)
           "sample.js" Samples.returnFirst_source
           (scanContent (Parsed Samples.returnFirst) Samples.returnFirst_source "sample.js")
           Samples.returnFirst_issue).
  - reflexivity.
  - intros loc message H. discriminate H.
  - reflexivity.
  - vm_compute. right. left. reflexivity.
Defined.

(** C6. If the parser fails on a file, the result of the engine for the
    file is exactly one SyntaxError issue, anchored at the line of the
    location the error carries, or at line 1 if it carries none; no other
    detector contributes, the comment scanner included. *)
Theorem parse_failure_yields_one_syntax_error :
  forall (readFile : string -> Outcome string) (parse : string -> ParseResult)
         (filePath content : string) (loc : option Position.t) (message : string),
    readFile filePath = Returns content ->
    parse content = ParseFailure loc message ->
    scanFile readFile parse filePath
    = Returns
        [ {| type := SyntaxError;
             filePath := filePath;
             line := match loc with Some loc => Position.line loc | None => 1 end;
             message := "Syntax error: " ++ message;
             code := JS.lineOr (JS.split_LF content)
                       (match loc with Some loc => Position.line loc | None => 1 end) |} ].
Proof.
  intros readFile parse filePath content loc message Hread Hparse.
  unfold scanFile, scanContent. now rewrite Hread, Hparse.
Qed.

Lemma parse_failure_witness :
  scanFile (Samples.oneFile "broken.js" Samples.broken_source) Samples.acornOnBroken
    "broken.js"
  = Returns
      [ {| type := SyntaxError;
           filePath := "broken.js";
           line := 2;
           message := "Syntax error: Unexpected token (2:4)";
           code := "var = ;" |} ].
Proof.
  apply (parse_failure_yields_one_syntax_error
           (Samples.oneFile "broken.js" Samples.broken_source) Samples.acornOnBroken
           "broken.js" Samples.broken_source
           (Some {| Position.line := 2; Position.column := 4 |})
           "Unexpected token (2:4)"); reflexivity.
Defined.

(** C3, as amended. Every UnreachableCode issue the engine emits has the
    message "Unreachable code after return statement": the same text for
    every return, with no line number in it. *)
Theorem unreachable_code_message_is_fixed :
  forall (parsed : ParseResult) (content filePath : string),
    Forall (fun issue =>
              type issue = UnreachableCode ->
              message issue = "Unreachable code after return statement")
      (scanContent parsed content filePath).
Proof.
  intros parsed content filePath. apply Forall_forall. intros issue Hin Htype.
  destruct parsed as [ast|loc msg].
  - rewrite EngineFacts.scanContent_parsed in Hin.
    repeat (apply in_app_or in Hin; destruct Hin as [Hin|Hin]).
    + eapply Forall_forall in Hin; [|apply EngineFacts.todo_emitted].
      destruct Hin as [Hkind _]. rewrite Hkind in Htype. discriminate Htype.
    + eapply Forall_forall in Hin; [|apply EngineFacts.unused_emitted].
      destruct Hin as [[Hkind _]|[Hkind _]]; rewrite Hkind in Htype; discriminate Htype.
    + eapply Forall_forall in Hin; [|apply EngineFacts.long_emitted].
      destruct Hin as [Hkind _]. rewrite Hkind in Htype. discriminate Htype.
    + eapply Forall_forall in Hin; [|apply EngineFacts.nesting_emitted].
      destruct Hin as [Hkind _]. rewrite Hkind in Htype. discriminate Htype.
    + eapply Forall_forall in Hin; [|apply EngineFacts.dead_emitted].
      apply Hin.
  - cbn in Hin. destruct Hin as [<-|[]]. discriminate Htype.
Qed.

(** C3 fails as stated: the return statement below is on line 2, and the
    message of the issue for the statement after it does not mention 2. *)
Lemma unreachable_code_message_omits_return_line :
  getLineNumberFromIndex Samples.returnFirst_source 17 = 2
  /\ map (fun issue =>
            (type issue, line issue, message issue,
             JS.includes (JS.ofNumber 2) (message issue)))
       (scanContent (Parsed Samples.returnFirst) Samples.returnFirst_source "sample.js")
     = [ (UnusedFunction, 1, "Unused function 'f'", false);
         (UnreachableCode, 3, "Unreachable code after return statement", false) ].
Proof. split; reflexivity. Qed.

(* ================================================================== *)
(** * Long functions                                                   *)
(* ================================================================== *)

Module ParentFacts.
Import ESTree Walk TreeFacts WalkFacts.

Lemma same_keyOf (a b : node) : same a b = true <-> keyOf a = keyOf b.
Proof.
  unfold same, keyOf. rewrite !andb_true_iff, String.eqb_eq, !Nat.eqb_eq.
  split; [intros [[-> ->] ->]; reflexivity | intros [= -> -> ->]; auto].
Qed.

Lemma keyEqb_eq (a b : string * nat * nat) : keyEqb a b = true <-> a = b.
Proof.
  destruct a as [[ta sa] ea], b as [[tb sb] eb]. unfold keyEqb. cbn [fst snd].
  rewrite !andb_true_iff, String.eqb_eq, !Nat.eqb_eq.
  split; [intros [[-> ->] ->]; reflexivity | intros [= -> -> ->]; auto].
Qed.

Lemma distinct_NoDup (keys : list (string * nat * nat)) :
  distinct keys = true -> NoDup keys.
Proof.
  induction keys as [|k keys IH]; [constructor|].
  cbn [distinct]. rewrite andb_true_iff, negb_true_iff. intros [Hk Hrest].
  constructor; [|now apply IH].
  intros Hin. assert (existsb (keyEqb k) keys = true); [|congruence].
  apply existsb_exists. exists k. split; [exact Hin | now apply keyEqb_eq].
Qed.

(** Every node but the root is a child of a node of the tree. *)
Lemma subnodes_children (n : node) :
  Permutation (subnodes n) (n :: flat_map children (subnodes n)).
Proof.
  induction n as [n IH] using node_ind'. rewrite Forall_forall in IH.
  rewrite subnodes_eq at 1. constructor.
  rewrite subnodes_eq. cbn [flat_map].
  induction (children n) as [|c cs IHcs]; [constructor|].
  cbn [flat_map]. rewrite flat_map_app.
  etransitivity.
  { apply Permutation_app; [apply IH; now left|].
    apply IHcs. intros x Hx. apply IH. now right. }
  cbn [app]. constructor.
  rewrite !app_assoc. apply Permutation_app; [|reflexivity].
  apply Permutation_app_comm.
Qed.

Lemma NoDup_flat_map_owner {A B K} (key : B -> K) (h : A -> list B) (l : list A)
    (p1 p2 : A) (g1 g2 : B) :
  NoDup (map key (flat_map h l)) ->
  In p1 l -> In p2 l -> In g1 (h p1) -> In g2 (h p2) -> key g1 = key g2 -> p1 = p2.
Proof.
  induction l as [|x l IH]; [contradiction|].
  cbn [flat_map]. rewrite map_app. intros Hnd H1 H2 Hg1 Hg2 Hkey.
  assert (Hcross : forall a b, In a (h x) -> In b (flat_map h l) -> key a = key b -> False).
  { intros a b Ha Hb Hab.
    apply NoDup_app_remove_l in Hnd as Htail.
    clear - Hnd Ha Hb Hab.
    induction (h x) as [|y ys IHy]; [contradiction|].
    cbn in Hnd. inversion Hnd as [|? ? Hnotin Hnd']; subst.
    destruct Ha as [->|Ha].
    - apply Hnotin. apply in_or_app. right. rewrite Hab. now apply in_map.
    - now apply IHy. }
  destruct H1 as [<-|H1], H2 as [<-|H2].
  - reflexivity.
  - exfalso. apply (Hcross g1 g2 Hg1); [|exact Hkey].
    apply in_flat_map. eauto.
  - exfalso. apply (Hcross g2 g1 Hg2); [|now symmetry].
    apply in_flat_map. eauto.
  - apply IH; auto. now apply NoDup_app_remove_l in Hnd.
Qed.

(** In a tree of distinct nodes, a node has one parent. *)
Lemma parent_unique (ast p1 p2 g1 g2 : node) :
  NoDup (map keyOf (subnodes ast)) ->
  In p1 (subnodes ast) -> In p2 (subnodes ast) ->
  In g1 (children p1) -> In g2 (children p2) ->
  keyOf g1 = keyOf g2 -> p1 = p2.
Proof.
  intros Hnd. apply NoDup_flat_map_owner.
  assert (Hperm : Permutation (map keyOf (subnodes ast))
                    (map keyOf (ast :: flat_map children (subnodes ast)))).
  { apply Permutation_map, subnodes_children. }
  apply (Permutation_NoDup Hperm) in Hnd. cbn [map] in Hnd.
  now inversion Hnd.
Qed.

Lemma parentVisitors_eq (target n : node) (ancestors : list node) (result : option node) :
  parentVisitors target n ancestors result
  = if isParentOf target n then Some n else result.
Proof. destruct n; reflexivity. Qed.

(** A parent holds the target among its children. *)
Lemma isParentOf_child (target n : node) :
  isParentOf target n = true ->
  exists g, In g (children n) /\ keyOf g = keyOf target.
Proof.
  destruct n; try discriminate; cbn [isParentOf].
  - destruct init as [g|]; [|discriminate]. cbn [same_opt]. intros H.
    exists g. split; [|now apply same_keyOf].
    unfold children, props. cbn. auto.
  - intros H. exists n2. split; [|now apply same_keyOf].
    unfold children, props. cbn. auto.
  - intros H. exists n. split; [|now apply same_keyOf].
    unfold children, props. cbn. destruct key; cbn; auto.
Qed.

(** The result of the search is the last parent visited, if any. *)
Lemma fold_parent_last (target d : node) (l : list (node * list node)) :
  forall result,
    (forall m, In m (map fst l) -> isParentOf target m = true -> m = d) ->
    fold_left (call (parentVisitors target)) l result
    = if existsb (isParentOf target) (map fst l) then Some d else result.
Proof.
  induction l as [|[m ancs] l IH]; intros result Hall; [reflexivity|].
  cbn [fold_left map fst existsb]. unfold call at 2. cbn [fst snd].
  rewrite parentVisitors_eq, IH by (intros; apply Hall; [now right | assumption]).
  destruct (isParentOf target m) eqn:E; cbn [orb].
  - rewrite (Hall m) by (auto; now left). now destruct (existsb _ _).
  - reflexivity.
Qed.

Lemma fold_parent_found (target : node) (l : list (node * list node)) :
  forall result,
    fold_left (call (parentVisitors target)) l result = result
    \/ exists m, In m (map fst l) /\ isParentOf target m = true
                /\ fold_left (call (parentVisitors target)) l result = Some m.
Proof.
  induction l as [|[m ancs] l IH]; intros result; [now left|].
  cbn [fold_left map fst]. unfold call at 2 4. cbn [fst snd].
  rewrite parentVisitors_eq.
  destruct (IH (if isParentOf target m then Some m else result)) as [H|[m' [Hin [Hp H]]]].
  - rewrite H. destruct (isParentOf target m) eqn:E; [|now left].
    right. exists m. split; [now left | auto].
  - right. exists m'. split; [now right | auto].
Qed.

Lemma visited_of_subnodes (ast n : node) :
  isIdentifier n = false -> In n (subnodes ast) -> In n (visited ast).
Proof.
  intros Hid Hin.
  assert (H : In n (filter (fun x => negb (isIdentifier x)) (visited ast))).
  { eapply Permutation_in.
    - symmetry. apply visited_subnodes. reflexivity.
    - apply filter_In. split; [exact Hin | now rewrite Hid]. }
  now apply filter_In in H.
Qed.

(** The initializer of a declarator is found to have it as parent. *)
Lemma findParentNode_declarator (ast target d : node) :
  NoDup (map keyOf (subnodes ast)) ->
  In d (subnodes ast) ->
  isDeclaratorOf target d = true ->
  findParentNode ast target = Some d.
Proof.
  intros Hnd Hd Hdecl.
  assert (Hparent : isParentOf target d = true).
  { destruct d; try discriminate. exact Hdecl. }
  unfold findParentNode. rewrite ancestor_fold.
  rewrite (fold_parent_last target d).
  - assert (Hex : existsb (isParentOf target) (map fst (visits [] ast)) = true).
    { apply existsb_exists. exists d. split; [|exact Hparent].
      apply visited_of_subnodes; [now destruct d | exact Hd]. }
    now rewrite Hex.
  - intros m Hm Hpm.
    apply visited_in_subnodes in Hm.
    destruct (isParentOf_child target m Hpm) as [g1 [Hg1 Hk1]].
    destruct (isParentOf_child target d Hparent) as [g2 [Hg2 Hk2]].
    apply (parent_unique ast m d g1 g2); auto. congruence.
Qed.

(** A function that is the initializer of no declarator is anonymous. *)
Lemma functionNameFrom_no_declarator (ast target : node) :
  (forall d, In d (subnodes ast) -> isDeclaratorOf target d = false) ->
  functionNameFrom (findParentNode ast target) = "anonymous".
Proof.
  intros Hnone. unfold findParentNode. rewrite ancestor_fold.
  destruct (fold_parent_found target (visits [] ast) None) as [->|[m [Hin [Hp ->]]]];
    [reflexivity|].
  apply visited_in_subnodes in Hin. specialize (Hnone m Hin).
  destruct m; try reflexivity. cbn in Hp, Hnone. congruence.
Qed.

End ParentFacts.

(** C5, as amended. For every function-like node (function declaration,
    function expression, arrow function) the engine emits exactly one
    LongFunction issue if [endLine - startLine], both taken by the shared
    offset-to-line mapping, exceeds 50, and none otherwise; the issue is
    anchored at the start line of the function and its message states the
    measured length and a name: for a function declaration its own name
    (anonymous if it has none); for a function expression or an arrow
    function the name of the variable when it is the initializer of a
    simple-named variable declarator, and anonymous when it is the
    initializer of no declarator. *)
Theorem long_function_reported_once :
  forall (ast : node) (content filePath : string) (lines : list string),
    Permutation (checkForLongFunctions ast content filePath lines [])
      (flat_map (longFunctionReport ast content filePath lines) (functions ast))
    /\ (forall sp isp name params body,
          functionName ast (FunctionDeclaration sp (Some (Identifier isp name)) params body)
          = name)
    /\ (forall sp params body,
          functionName ast (FunctionDeclaration sp None params body) = "anonymous")
    /\ (forall f dsp isp name,
          isFunctionLike f = true ->
          type_of f <> "FunctionDeclaration" ->
          distinctNodes ast = true ->
          In (VariableDeclarator dsp (Identifier isp name) (Some f)) (subnodes ast) ->
          functionName ast f = name)
    /\ (forall f,
          isFunctionLike f = true ->
          type_of f <> "FunctionDeclaration" ->
          existsb (isDeclaratorOf f) (subnodes ast) = false ->
          functionName ast f = "anonymous").
Proof.
  intros ast content filePath lines. repeat split.
  - rewrite EngineFacts.checkForLongFunctions_eq. cbn [app]. unfold functions.
    apply Permutation_flat_map. apply WalkFacts.visited_subnodes. reflexivity.
  - intros f dsp isp name Hf Hnot Hdistinct Hd.
    assert (Hfind : findParentNode ast f
                    = Some (VariableDeclarator dsp (Identifier isp name) (Some f))).
    { apply ParentFacts.findParentNode_declarator.
      - now apply ParentFacts.distinct_NoDup.
      - exact Hd.
      - cbn. apply ParentFacts.same_keyOf. reflexivity. }
    destruct f; try discriminate Hf; try (exfalso; now apply Hnot);
      cbn [functionName]; now rewrite Hfind.
  - intros f Hf Hnot Hnone.
    assert (Hall : forall d, In d (subnodes ast) -> isDeclaratorOf f d = false).
    { intros d Hd. destruct (isDeclaratorOf f d) eqn:E; [|reflexivity].
      assert (existsb (isDeclaratorOf f) (subnodes ast) = true); [|congruence].
      apply existsb_exists. eauto. }
    destruct f; try discriminate Hf; try (exfalso; now apply Hnot);
      cbn [functionName]; now apply ParentFacts.functionNameFrom_no_declarator.
Qed.

Lemma long_function_witness :
  functionName Samples.longArrow Samples.longArrow_function = "f"
  /\ functionName Samples.longCallback Samples.longCallback_function = "anonymous"
  /\ checkForLongFunctions Samples.longArrow Samples.longArrow_source "sample.js"
       (JS.split_LF Samples.longArrow_source) []
     = [ {| type := LongFunction;
            filePath := "sample.js";
            line := 1;
            message := "Arrow function 'f' is too long (52 lines)";
            code := "const f = () => {" |} ].
Proof.
  split; [|split; [|vm_compute; reflexivity]].
  2:{ apply (proj2 (proj2 (proj2 (proj2 (long_function_reported_once
                                           Samples.longCallback
                                           Samples.longCallback_source "sample.js"
                                           (JS.split_LF Samples.longCallback_source)))))
               Samples.longCallback_function).
      - reflexivity.
      - discriminate.
      - vm_compute. reflexivity. }
  apply (proj1 (proj2 (proj2 (proj2 (long_function_reported_once
                                       Samples.longArrow Samples.longArrow_source
                                       "sample.js"
                                       (JS.split_LF Samples.longArrow_source)))))
           Samples.longArrow_function (Samples.at_ 6 529) (Samples.at_ 6 7) "f").
  - reflexivity.
  - discriminate.
  - vm_compute. reflexivity.
  - apply (TreeFacts.subnodes_child _
             (VariableDeclaration (Samples.at_ 0 530) [Samples.longArrow_declarator]));
      [cbn; left; reflexivity|].
    apply (TreeFacts.subnodes_child _ Samples.longArrow_declarator);
      [cbn; left; reflexivity|].
    apply TreeFacts.subnodes_self.
Defined.

(** C5 fails as stated: the function below is the initializer of no
    variable (the tree holds no declarator at all), and the message names
    it, after its own identifier, instead of calling it anonymous. *)
Lemma long_declaration_named_after_itself :
  existsb (fun n => String.eqb (type_of n) "VariableDeclarator")
    (subnodes Samples.longDeclaration) = false
  /\ functions Samples.longDeclaration = [Samples.longDeclaration_function]
  /\ checkForLongFunctions Samples.longDeclaration Samples.longDeclaration_source
       "sample.js" (JS.split_LF Samples.longDeclaration_source) []
     = [ {| type := LongFunction;
            filePath := "sample.js";
            line := 1;
            message := "Function 'longOne' is too long (52 lines)";
            code := "function longOne() {" |} ].
Proof. repeat split; vm_compute; reflexivity. Qed.

(* ================================================================== *)
(** * Pending-work comments                                            *)
(* ================================================================== *)

Module TodoFacts.
Import TodoRegex.

Lemma dropWhile_head (p : ascii -> bool) (s : string) (ch : ascii) (rest : string) :
  dropWhile p s = String ch rest -> p ch = false.
Proof.
  induction s as [|c s IH]; simpl; [discriminate|].
  destruct (p c) eqn:E; [exact IH|]. now intros [= <- _].
Qed.

(** A line terminator belongs to the class of separators. *)
Lemma not_dot_separator (ch : ascii) : isDot ch = false -> isSeparator ch = true.
Proof.
  unfold isDot, isSeparator, isSpace, codeIn. cbn [existsb].
  rewrite negb_false_iff, !orb_false_r, orb_true_iff, !Nat.eqb_eq.
  intros [->| ->]; reflexivity.
Qed.

(** An empty second group: the match runs to the end of the text. *)
Lemma matchHere_empty_text (at_ : nat) (s : string) (m : Match) :
  matchHere at_ s = Some m ->
  group2 m = "" ->
  index m = at_ /\ extent m = String.length s.
Proof.
  unfold matchHere.
  destruct s as [|c1 [|c2 after]]; try discriminate.
  destruct (Ascii.eqb c1 "/" && Ascii.eqb c2 "/"); [|discriminate].
  destruct (marker (dropWhile isSpace after)) as [[found afterMarker]|]; [|discriminate].
  intros [= <-]. cbn [group2 index extent]. intros Htext. split; [reflexivity|].
  destruct (dropWhile isSeparator afterMarker) as [|ch rest] eqn:Hdrop.
  - simpl. lia.
  - exfalso. apply dropWhile_head in Hdrop.
    cbn [takeWhile] in Htext. destruct (isDot ch) eqn:Hdot; [discriminate|].
    apply not_dot_separator in Hdot. congruence.
Qed.

Lemma execFrom_origin (s : string) :
  forall at_ toSkip m,
    In m (execFrom s at_ toSkip) ->
    exists at' s', matchHere at' s' = Some m
                   /\ at' + String.length s' = at_ + String.length s.
Proof.
  induction s as [|ch s IH]; intros at_ toSkip m; [contradiction|].
  cbn [execFrom]. destruct toSkip as [|k].
  - destruct (matchHere at_ (String ch s)) as [m'|] eqn:E.
    + intros [<-|Hin].
      * exists at_, (String ch s). auto.
      * apply IH in Hin. destruct Hin as [at' [s' [H1 H2]]].
        exists at', s'. split; [exact H1 | simpl; lia].
    + intros Hin. apply IH in Hin. destruct Hin as [at' [s' [H1 H2]]].
      exists at', s'. split; [exact H1 | simpl; lia].
  - intros Hin. apply IH in Hin. destruct Hin as [at' [s' [H1 H2]]].
    exists at', s'. split; [exact H1 | simpl; lia].
Qed.

(** The placeholder stands in a message only for a match that ends the
    text. *)
Lemma placeholder_only_at_end_of_text (content : string) (m : Match) :
  In m (execAll content) ->
  group2 m = "" ->
  index m + extent m = String.length content.
Proof.
  intros Hin Hempty. apply execFrom_origin in Hin.
  destruct Hin as [at' [s' [Hm Hlen]]].
  destruct (matchHere_empty_text at' s' m Hm Hempty) as [-> ->]. exact Hlen.
Qed.

End TodoFacts.

(** C8: the engine on the text of the failing input, and on a text of
    two marked comments. A marker with nothing after it on its line takes
    the next line as its text, because the separators [[:|\s]] include the
    line feed: the placeholder is not used, and a marked comment on the
    next line gets no issue of its own. *)
Theorem todo_marker_without_text_takes_next_line :
  checkForTodoComments Samples.todoThenCode_source "sample.js"
    (JS.split_LF Samples.todoThenCode_source) []
  = [ {| type := PendingWork;
         filePath := "sample.js";
         line := 1;
         message := "Found TODO comment: foo();";
         code := "// TODO" |} ]
  /\ checkForTodoComments Samples.twoComments_source "sample.js"
       (JS.split_LF Samples.twoComments_source) []
     = [ {| type := PendingWork;
            filePath := "sample.js";
            line := 1;
            message := "Found TODO comment: // FIXME: x";
            code := "// TODO" |} ].
Proof. split; reflexivity. Qed.

(** The text of the specification: one issue, with [fix later] in it. *)
Example todo_fix_later :
  checkForTodoComments "// TODO: fix later" "sample.js"
    (JS.split_LF "// TODO: fix later") []
  = [ {| type := PendingWork;
         filePath := "sample.js";
         line := 1;
         message := "Found TODO comment: fix later";
         code := "// TODO: fix later" |} ].
Proof. reflexivity. Qed.

(** The placeholder, for a marker that ends the text. *)
Example todo_placeholder_at_end :
  checkForTodoComments "x(); // fixme:" "sample.js" (JS.split_LF "x(); // fixme:") []
  = [ {| type := PendingWork;
         filePath := "sample.js";
         line := 1;
         message := "Found fixme comment: No description provided";
         code := "x(); // fixme:" |} ].
Proof. reflexivity. Qed.

(* ================================================================== *)
(** * The identifiers that the reference pass visits                   *)
(* ================================================================== *)

Module ReferenceFacts.
Import ESTree Walk TreeFacts WalkFacts.

Lemma identifier_leaf (n : node) :
  isIdentifier n = true -> subnodes n = [n] /\ visited n = [n] /\ skipped n = [].
Proof.
  destruct n; try discriminate. intros _.
  unfold skipped. rewrite subnodes_eq, visited_eq. cbn. auto.
Qed.

Lemma flat_map_twice {A B C} (f : B -> list C) (g : A -> list B) (l : list A) :
  flat_map f (flat_map g l) = flat_map (fun x => flat_map f (g x)) l.
Proof.
  induction l as [|x l IH]; [reflexivity|].
  cbn [flat_map]. now rewrite flat_map_app, IH.
Qed.

Lemma skipped_eq (n : node) :
  skipped n = (patternIdentifiers n ++ flat_map skipped (children n))%list.
Proof.
  unfold skipped. rewrite subnodes_eq. cbn [flat_map]. f_equal.
  now rewrite flat_map_twice.
Qed.

(** The nodes of a tree are the ones a walk visits and the identifiers it
    leaves out. *)
Lemma subnodes_split (n : node) :
  Permutation (subnodes n) (visited n ++ skipped n).
Proof.
  induction n as [n IH] using node_ind'. rewrite Forall_forall in IH.
  rewrite subnodes_eq, visited_eq, skipped_eq.
  rewrite <- (Permutation_flat_map subnodes (base_children n)).
  rewrite <- (Permutation_flat_map skipped (base_children n)).
  rewrite !flat_map_of_map.
  assert (Hlist : forall l, incl l (base n) ->
             Permutation (flat_map (fun x => subnodes (snd x)) l)
               (flat_map stepVisited l
                ++ map snd (filter (fun child => fst child && isIdentifier (snd child)) l)
                ++ flat_map (fun x => skipped (snd x)) l)).
  { induction l as [|x l IHl]; intros Hl; [reflexivity|].
    assert (Hrest : incl l (base n)) by (intros y Hy; apply Hl; now right).
    specialize (IHl Hrest). cbn [flat_map filter].
    unfold stepVisited at 1.
    destruct (fst x && isIdentifier (snd x)) eqn:Hid.
    - apply andb_prop in Hid. destruct Hid as [_ Hid].
      destruct (identifier_leaf (snd x) Hid) as [-> [_ ->]].
      cbn [app map]. rewrite IHl.
      rewrite (Permutation_middle (flat_map stepVisited l)). reflexivity.
    - assert (Hx : In (snd x) (children n)).
      { apply base_in_children, Hl. now left. }
      rewrite (IH _ Hx), IHl.
      rewrite <- !app_assoc. apply Permutation_app_head.
      rewrite !(app_assoc (flat_map stepVisited l)).
      apply Permutation_app_swap_app. }
  specialize (Hlist (base n) (incl_refl _)). fold (patternIdentifiers n) in Hlist.
  rewrite Hlist, <- app_assoc. cbn [app].
  apply Permutation_cons_app. reflexivity.
Qed.

Lemma identifier_type (n : node) : type_of n = "Identifier" -> isIdentifier n = true.
Proof. destruct n; cbn; intros H; congruence || discriminate. Qed.

(** In a tree of distinct nodes, a visited node is none of the
    identifiers left out. *)
Lemma visited_not_skipped (ast n s : node) :
  NoDup (map keyOf (subnodes ast)) ->
  In n (visited ast) -> In s (skipped ast) -> keyOf n <> keyOf s.
Proof.
  intros Hnd Hn Hs Hkey.
  apply (Permutation_NoDup (Permutation_map keyOf (subnodes_split ast))) in Hnd.
  rewrite map_app in Hnd.
  apply (in_map keyOf) in Hn. apply (in_map keyOf) in Hs.
  rewrite Hkey in Hn.
  revert Hnd Hn Hs. generalize (map keyOf (visited ast)) (map keyOf (skipped ast)).
  intros l1 l2 Hnd H1 H2.
  induction l1 as [|k l1 IHl]; [contradiction|].
  cbn [app] in Hnd. inversion Hnd as [|? ? Hk Hnd']; subst.
  destruct H1 as [->|H1]; [|now apply IHl].
  apply Hk. apply in_or_app. now right.
Qed.

(** The [id] of a declaration is left out when it is an identifier. *)
Lemma declaring_skipped (ast d id : node) :
  In d (subnodes ast) ->
  isIdentifier id = true ->
  match d with
  | VariableDeclarator _ i _ => i = id
  | FunctionDeclaration _ i _ _ => i = Some id
  | _ => False
  end ->
  In id (skipped ast).
Proof.
  intros Hd Hid Hshape. unfold skipped. apply in_flat_map. exists d.
  split; [exact Hd|]. unfold patternIdentifiers.
  destruct d; try contradiction; subst; cbn [base option_list map app filter fst snd];
    rewrite Hid; cbn [andb map snd]; now left.
Qed.

(** No visited node is the [id] of a declaration of the tree. *)
Lemma visited_not_declaring (ast n : node) :
  NoDup (map keyOf (subnodes ast)) ->
  In n (visited ast) -> isIdentifier n = true -> declaring ast n = false.
Proof.
  intros Hnd Hn Hid. destruct (declaring ast n) eqn:Hdecl; [exfalso|reflexivity].
  unfold declaring in Hdecl. apply existsb_exists in Hdecl.
  destruct Hdecl as [d [Hd Htest]].
  assert (Hsame : exists id,
             match d with
             | VariableDeclarator _ i _ => i = id
             | FunctionDeclaration _ i _ _ => i = Some id
             | _ => False
             end /\ same id n = true).
  { destruct d; try discriminate.
    - now exists d.
    - destruct id as [i|]; [|discriminate]. now exists i. }
  destruct Hsame as [id [Hshape Hsame]].
  apply ParentFacts.same_keyOf in Hsame.
  assert (Hident : isIdentifier id = true).
  { apply identifier_type. destruct n; try discriminate.
    unfold keyOf in Hsame. now injection Hsame as -> _ _. }
  apply (visited_not_skipped ast n id Hnd Hn); [|now symmetry].
  now apply (declaring_skipped ast d id).
Qed.

(** The ancestors handed to a visitor are nodes of the tree, or ancestors
    the walk started with. *)
Lemma visits_ancestors (n : node) :
  forall ancestors m ancs a,
    In (m, ancs) (visits ancestors n) -> In a ancs ->
    In a ancestors \/ In a (subnodes n).
Proof.
  induction n as [n IH] using node_ind'. rewrite Forall_forall in IH.
  intros ancestors m ancs a Hvisit Ha.
  rewrite visits_eq in Hvisit. apply in_app_or in Hvisit.
  destruct Hvisit as [Hvisit|[Hself|[]]].
  - apply in_flat_map in Hvisit. destruct Hvisit as [child [Hchild Hvisit]].
    unfold stepVisits in Hvisit.
    destruct (fst child && isIdentifier (snd child)); [contradiction|].
    apply base_in_children in Hchild.
    destruct (IH _ Hchild _ _ _ _ Hvisit Ha) as [Hanc|Hsub].
    + apply in_app_or in Hanc. destruct Hanc as [Hanc|[<-|[]]]; [now left|].
      right. apply subnodes_self.
    + right. eapply subnodes_child; eauto.
  - injection Hself as <- <-. apply in_app_or in Ha.
    destruct Ha as [Ha|[<-|[]]]; [now left | right; apply subnodes_self].
Qed.

(** The test of the second pass never fires: the walk hands no declaring
    identifier to the visitor. *)
Lemma isDeclaration_never (ast n : node) (ancs : list node) :
  NoDup (map keyOf (subnodes ast)) ->
  In (n, ancs) (visits [] ast) ->
  isIdentifier n = true ->
  isDeclaration n ancs = false.
Proof.
  intros Hnd Hvisit Hid.
  assert (Hn : In n (visited ast)).
  { unfold visited. now apply (in_map fst) in Hvisit. }
  pose proof (visited_not_declaring ast n Hnd Hn Hid) as Hnot.
  destruct (isDeclaration n ancs) eqn:Hdecl; [exfalso|reflexivity].
  unfold isDeclaration in Hdecl. apply existsb_exists in Hdecl.
  destruct Hdecl as [d [Hd Htest]].
  destruct (visits_ancestors ast [] n ancs d Hvisit Hd) as [[]|Hsub].
  assert (Htrue : declaring ast n = true).
  { unfold declaring. apply existsb_exists. now exists d. }
  congruence.
Qed.

(** The names marked as used are the names of the identifiers visited. *)
Lemma referenced_visited (ast : node) (name : string) :
  NoDup (map keyOf (subnodes ast)) ->
  referenced ast name = true <-> visitedOccurrences ast name <> [].
Proof.
  intros Hnd. unfold referenced, referencesOf, visitedOccurrences. split.
  - intros H. apply existsb_exists in H. destruct H as [x [Hx Heq]].
    apply String.eqb_eq in Heq. subst x.
    apply in_flat_map in Hx. destruct Hx as [[n ancs] [Hvisit Hrefers]].
    unfold refersTo in Hrefers. cbn [fst snd] in Hrefers.
    destruct n; try contradiction.
    destruct (isDeclaration _ _); [contradiction|].
    destruct Hrefers as [->|[]].
    intros Hnil.
    assert (Hin : In (Identifier sp name) (filter (named name) (visited ast))).
    { apply filter_In. split; [|cbn; apply String.eqb_refl].
      unfold visited. now apply (in_map fst) in Hvisit. }
    rewrite Hnil in Hin. contradiction.
  - intros Hne. destruct (filter (named name) (visited ast)) as [|n l] eqn:Hf;
      [contradiction|].
    assert (Hn : In n (filter (named name) (visited ast))) by (rewrite Hf; now left).
    apply filter_In in Hn. destruct Hn as [Hn Hnamed].
    unfold visited in Hn. apply in_map_iff in Hn. destruct Hn as [[n' ancs] [Heq Hvisit]].
    cbn [fst] in Heq. subst n'.
    apply existsb_exists. exists name. split; [|apply String.eqb_refl].
    apply in_flat_map. exists (n, ancs). split; [exact Hvisit|].
    unfold refersTo. cbn [fst snd].
    destruct n; try discriminate. cbn [named] in Hnamed.
    apply String.eqb_eq in Hnamed. subst name0.
    rewrite (isDeclaration_never ast _ ancs Hnd Hvisit eq_refl). now left.
Qed.

(** An identifier visited is a non-declaring occurrence of its name. *)
Lemma visited_occurrence (ast : node) (name : string) (n : node) :
  NoDup (map keyOf (subnodes ast)) ->
  In n (visitedOccurrences ast name) -> In n (occurrences ast name).
Proof.
  intros Hnd Hn. unfold visitedOccurrences in Hn. apply filter_In in Hn.
  destruct Hn as [Hn Hnamed]. unfold occurrences. apply filter_In. split.
  - now apply visited_in_subnodes.
  - rewrite Hnamed. cbn [andb]. apply negb_true_iff.
    apply (visited_not_declaring ast n Hnd Hn). now destruct n.
Qed.

End ReferenceFacts.

(** C4, as amended. The declarations are kept in one table keyed by name:
    a later declaration of a name overwrites the record of an earlier one.
    In a tree whose nodes are distinct, for every name declared by a
    simple-named variable declarator or a named function declaration and
    not in the exclusion set: if the name is never used as a non-declaring
    identifier anywhere in the file, the engine emits exactly one
    UnusedVariable or UnusedFunction issue with the name in its message,
    anchored at the line of the declaration of that name that the walk
    meets last, and of the kind of that declaration; if the reference pass
    visits an identifier of that name anywhere in the file, before or after
    the declaration, it emits no such issue. Nothing is said of a name
    whose only non-declaring occurrences are identifiers that the walk of
    the reference pass hands to no visitor. *)
Theorem unused_name_reported_once :
  forall (ast : node) (content filePath : string) (lines : list string)
         (name : string) (info : Info.t),
    distinctNodes ast = true ->
    lastDeclared content ast name = Some info ->
    isSpecialName name = false ->
    (occurrences ast name = [] ->
     filter (aboutName name) (checkForUnusedCode ast content filePath lines [])
     = [ {| type := "Unused " ++ Info.type info;
            filePath := filePath;
            line := Info.line info;
            message := "Unused " ++ JS.toLowerCase (Info.type info)
                       ++ " '" ++ name ++ "'";
            code := JS.lineOr lines (Info.line info) |} ])
    /\ (visitedOccurrences ast name <> [] ->
        filter (aboutName name) (checkForUnusedCode ast content filePath lines []) = []).
Proof.
  intros ast content filePath lines name info Hdistinct Hlast Hspecial.
  apply ParentFacts.distinct_NoDup in Hdistinct.
  rewrite UnusedFacts.about_record, Hlast.
  pose proof (UnusedFacts.lastDeclared_fresh _ _ _ _ Hlast) as [_ Hused].
  unfold reportOf. cbn [fst snd]. rewrite Hspecial. split.
  - intros Hnone.
    assert (Hunread : referenced ast name = false).
    { destruct (referenced ast name) eqn:Href; [exfalso|reflexivity].
      apply (ReferenceFacts.referenced_visited ast name Hdistinct) in Href.
      destruct (visitedOccurrences ast name) as [|n l] eqn:Hvisited; [now apply Href|].
      assert (Hn : In n (occurrences ast name)).
      { apply ReferenceFacts.visited_occurrence; [exact Hdistinct|].
        rewrite Hvisited. now left. }
      rewrite Hnone in Hn. contradiction. }
    rewrite Hunread, Hused. reflexivity.
  - intros Hread.
    apply (ReferenceFacts.referenced_visited ast name Hdistinct) in Hread.
    rewrite Hread. reflexivity.
Qed.

Lemma unused_name_witness :
  (occurrences Samples.redeclared "a" = []
   /\ filter (aboutName "a")
        (checkForUnusedCode Samples.redeclared Samples.redeclared_source "sample.js"
           (JS.split_LF Samples.redeclared_source) [])
      = [ {| type := UnusedVariable;
             filePath := "sample.js";
             line := 2;
             message := "Unused variable 'a'";
             code := "var a = 2;" |} ])
  /\ (visitedOccurrences UsedBefore.tree "a" <> []
      /\ filter (aboutName "a")
           (checkForUnusedCode UsedBefore.tree UsedBefore.source "sample.js"
              (JS.split_LF UsedBefore.source) [])
         = []).
Proof.
  split; (split; [vm_compute; try reflexivity; discriminate|]).
  - apply (unused_name_reported_once Samples.redeclared Samples.redeclared_source
             "sample.js" (JS.split_LF Samples.redeclared_source) "a"
             {| Info.type := "Variable"; Info.line := 2; Info.used := false |});
      reflexivity.
  - apply (unused_name_reported_once UsedBefore.tree UsedBefore.source
             "sample.js" (JS.split_LF UsedBefore.source) "a"
             {| Info.type := "Variable"; Info.line := 2; Info.used := false |});
      try reflexivity.
    vm_compute. discriminate.
Defined.

(* ================================================================== *)
(** * More on lines                                                    *)
(* ================================================================== *)

Module LineCountFacts.

Lemma split_LF_count (s : string) : List.length (JS.split_LF s) = S (countLF s).
Proof.
  induction s as [|ch s IH]; [reflexivity|].
  cbn [JS.split_LF countLF]. destruct (Ascii.eqb ch JS.LF).
  - cbn [List.length]. rewrite IH. reflexivity.
  - destruct (JS.split_LF s) as [|piece pieces]; [discriminate IH|].
    cbn [List.length] in *. rewrite IH. reflexivity.
Qed.

Lemma countLF_prefix_mono (s : string) :
  forall i j, i <= j -> countLF (substring 0 i s) <= countLF (substring 0 j s).
Proof.
  induction s as [|ch s IH]; intros i j Hij.
  - destruct i, j; simpl; lia.
  - destruct i as [|i]; [simpl; lia|].
    destruct j as [|j]; [lia|].
    cbn [substring countLF]. specialize (IH i j). lia.
Qed.

Lemma substring_all (s : string) :
  forall i, String.length s <= i -> substring 0 i s = s.
Proof.
  induction s as [|ch s IH]; intros i Hi.
  - now destruct i.
  - destruct i as [|i]; [simpl in Hi; lia|].
    cbn [substring]. rewrite IH; [reflexivity | simpl in Hi; lia].
Qed.

Lemma countLF_prefix_le (s : string) (i : nat) :
  countLF (substring 0 i s) <= countLF s.
Proof.
  rewrite <- (substring_all s (String.length s + i)) at 2 by lia.
  apply countLF_prefix_mono. lia.
Qed.

Lemma getLineNumberFromIndex_le (content : string) (index : nat) :
  getLineNumberFromIndex content index <= List.length (JS.split_LF content).
Proof.
  unfold getLineNumberFromIndex, JS.slice0. rewrite !split_LF_count.
  pose proof (countLF_prefix_le content index). lia.
Qed.

End LineCountFacts.

(** X1. The line of an offset is one more than the number of line feeds
    before the offset. *)
Theorem line_number_counts_line_feeds :
  forall (content : string) (index : nat),
    getLineNumberFromIndex content index = 1 + countLF (substring 0 index content).
Proof.
  intros content index. unfold getLineNumberFromIndex, JS.slice0.
  now rewrite LineCountFacts.split_LF_count.
Qed.

(** X2. The line number grows with the offset and never exceeds the
    number of lines of the text; an offset at or past the end of the text
    is on the last line. *)
Theorem line_number_monotone_and_bounded :
  forall (content : string) (i j : nat),
    i <= j ->
    getLineNumberFromIndex content i <= getLineNumberFromIndex content j
    /\ getLineNumberFromIndex content j <= List.length (JS.split_LF content)
    /\ (String.length content <= i ->
        getLineNumberFromIndex content i = List.length (JS.split_LF content)).
Proof.
  intros content i j Hij. split; [|split].
  - unfold getLineNumberFromIndex, JS.slice0.
    rewrite !LineCountFacts.split_LF_count.
    pose proof (LineCountFacts.countLF_prefix_mono content i j Hij). lia.
  - apply LineCountFacts.getLineNumberFromIndex_le.
  - intros Hend. unfold getLineNumberFromIndex, JS.slice0.
    now rewrite LineCountFacts.substring_all.
Qed.

Lemma line_number_monotone_witness :
  getLineNumberFromIndex Samples.returnFirst_source 42
  <= getLineNumberFromIndex Samples.returnFirst_source 50
  /\ getLineNumberFromIndex Samples.returnFirst_source 50
     <= List.length (JS.split_LF Samples.returnFirst_source)
  /\ (String.length Samples.returnFirst_source <= 42 ->
      getLineNumberFromIndex Samples.returnFirst_source 42
      = List.length (JS.split_LF Samples.returnFirst_source)).
Proof.
  apply (line_number_monotone_and_bounded Samples.returnFirst_source 42 50). lia.
Defined.

(** X3. In a file that parses, every issue is anchored inside the file:
    its line is between 1 and the number of lines, and its snippet is the
    text of that very line, never the fallback for a missing line. *)
Theorem parsed_file_issues_within_file :
  forall (ast : node) (content filePath : string) (issue : Issue),
    In issue (scanContent (Parsed ast) content filePath) ->
    1 <= line issue <= List.length (JS.split_LF content)
    /\ nth_error (JS.split_LF content) (line issue - 1) = Some (code issue).
Proof.
  intros ast content filePath issue Hin.
  assert (Hem : exists kind, emitted kind content (JS.split_LF content) issue).
  { rewrite EngineFacts.scanContent_parsed in Hin.
    repeat (apply in_app_or in Hin; destruct Hin as [Hin|Hin]).
    - eapply Forall_forall in Hin; [|apply EngineFacts.todo_emitted]; eauto.
    - eapply Forall_forall in Hin; [|apply EngineFacts.unused_emitted].
      destruct Hin; eauto.
    - eapply Forall_forall in Hin; [|apply EngineFacts.long_emitted]; eauto.
    - eapply Forall_forall in Hin; [|apply EngineFacts.nesting_emitted]; eauto.
    - eapply Forall_forall in Hin; [|apply EngineFacts.dead_emitted].
      destruct Hin; eauto. }
  destruct Hem as [kind [_ [[index Hline] Hcode]]].
  assert (Hlow : 1 <= line issue).
  { rewrite Hline. apply LineFacts.getLineNumberFromIndex_pos. }
  assert (Hhigh : line issue <= List.length (JS.split_LF content)).
  { rewrite Hline. apply LineCountFacts.getLineNumberFromIndex_le. }
  split; [lia|].
  rewrite Hcode. now apply LineFacts.lineOr_spec.
Qed.

Lemma parsed_file_issues_within_file_witness :
  1 <= line Samples.returnFirst_issue
    <= List.length (JS.split_LF Samples.returnFirst_source)
  /\ nth_error (JS.split_LF Samples.returnFirst_source)
       (line Samples.returnFirst_issue - 1)
     = Some (code Samples.returnFirst_issue).
Proof.
  apply (parsed_file_issues_within_file Samples.returnFirst
           Samples.returnFirst_source "sample.js" Samples.returnFirst_issue).
  vm_compute. right. left. reflexivity.
Defined.

(* ================================================================== *)
(** * More on the engine                                               *)
(* ================================================================== *)

Module DetectorFacts.
Import ESTree Walk.

Section WithFile.
Variables (content path : string) (lines : list string).

Lemma todo_appends (issues : list Issue) :
  checkForTodoComments content path lines issues
  = (issues ++ checkForTodoComments content path lines [])%list.
Proof. now rewrite !EngineFacts.checkForTodoComments_eq. Qed.

Lemma unused_appends (ast : node) (issues : list Issue) :
  checkForUnusedCode ast content path lines issues
  = (issues ++ checkForUnusedCode ast content path lines [])%list.
Proof. now rewrite !UnusedFacts.checkForUnusedCode_eq. Qed.

Lemma long_appends (ast : node) (issues : list Issue) :
  checkForLongFunctions ast content path lines issues
  = (issues ++ checkForLongFunctions ast content path lines [])%list.
Proof. now rewrite !EngineFacts.checkForLongFunctions_eq. Qed.

Lemma nesting_appends (ast : node) (issues : list Issue) :
  checkForDeeplyNestedCode ast content path lines issues
  = (issues ++ checkForDeeplyNestedCode ast content path lines [])%list.
Proof.
  unfold checkForDeeplyNestedCode. now rewrite !NestingFacts.checkNesting_constructs.
Qed.

Lemma dead_appends (ast : node) (issues : list Issue) :
  checkForDeadCode ast content path lines issues
  = (issues ++ checkForDeadCode ast content path lines [])%list.
Proof. now rewrite !DeadCodeFacts.checkForDeadCode_eq. Qed.

Lemma todo_filePath :
  Forall (fun issue => filePath issue = path)
    (checkForTodoComments content path lines []).
Proof.
  rewrite EngineFacts.checkForTodoComments_eq. cbn [app]. apply Forall_forall.
  intros issue Hin. apply in_map_iff in Hin. now destruct Hin as [m [<- _]].
Qed.

Lemma unused_filePath (ast : node) :
  Forall (fun issue => filePath issue = path)
    (checkForUnusedCode ast content path lines []).
Proof.
  rewrite UnusedFacts.checkForUnusedCode_eq. cbn [app]. apply Forall_forall.
  intros issue Hin. apply in_flat_map in Hin. destruct Hin as [entry [_ Hin]].
  unfold reportOf in Hin.
  destruct (isSpecialName _); [contradiction|].
  destruct (Info.used _); [contradiction|].
  now destruct Hin as [<-|[]].
Qed.

Lemma long_filePath (ast : node) :
  Forall (fun issue => filePath issue = path)
    (checkForLongFunctions ast content path lines []).
Proof.
  rewrite EngineFacts.checkForLongFunctions_eq. cbn [app]. apply Forall_forall.
  intros issue Hin. apply in_flat_map in Hin. destruct Hin as [n [_ Hin]].
  unfold longFunctionReport in Hin.
  destruct (MAX_FUNCTION_LENGTH <? _); [|contradiction].
  now destruct Hin as [<-|[]].
Qed.

Lemma nesting_filePath (ast : node) :
  Forall (fun issue => filePath issue = path)
    (checkForDeeplyNestedCode ast content path lines []).
Proof.
  unfold checkForDeeplyNestedCode. rewrite NestingFacts.checkNesting_constructs.
  cbn [app]. apply Forall_forall.
  intros issue Hin. apply in_map_iff in Hin. now destruct Hin as [found [<- _]].
Qed.

Lemma dead_filePath (ast : node) :
  Forall (fun issue => filePath issue = path)
    (checkForDeadCode ast content path lines []).
Proof.
  rewrite DeadCodeFacts.checkForDeadCode_eq. cbn [app]. apply Forall_forall.
  intros issue Hin. apply in_flat_map in Hin. destruct Hin as [n [_ Hin]].
  unfold unreachableIn in Hin.
  destruct (afterFirstReturn _); [|contradiction].
  now destruct Hin as [<-|[]].
Qed.

End WithFile.

Lemma scanContent_filePath (parsed : ParseResult) (content path : string) :
  Forall (fun issue => filePath issue = path)
    (scanContent parsed content path).
Proof.
  destruct parsed as [ast|loc message].
  - rewrite EngineFacts.scanContent_parsed.
    repeat (apply Forall_app; split).
    + apply todo_filePath.
    + apply unused_filePath.
    + apply long_filePath.
    + apply nesting_filePath.
    + apply dead_filePath.
  - unfold scanContent, push. cbn [app]. now repeat constructor.
Qed.

(** The loop of [scanDirectory] over files that can all be read. *)
Lemma scanFiles_all_read (readFile : string -> Outcome string)
    (parse : string -> ParseResult) (table : list (string * string)) :
  Forall (readsAs readFile) table ->
  forall allIssues,
    scanFiles readFile parse (map fst table) allIssues
    = Returns (allIssues
               ++ flat_map (fun file => scanContent (parse (snd file)) (snd file) (fst file))
                    table)%list.
Proof.
  induction 1 as [|[path text] table Hread _ IH]; intros allIssues.
  - cbn. now rewrite app_nil_r.
  - cbn [map fst scanFiles]. unfold scanFile. unfold readsAs in Hread.
    cbn [fst snd] in Hread. rewrite Hread, IH. cbn [flat_map fst snd].
    now rewrite app_assoc.
Qed.

(** What the loop has made when it ends: the issues it started with,
    then issues of listed files that could be read. *)
Lemma scanFiles_sound (readFile : string -> Outcome string)
    (parse : string -> ParseResult) (files : list string) :
  forall allIssues result issue,
    scanFiles readFile parse files allIssues = Returns result ->
    In issue result ->
    In issue allIssues
    \/ exists file content,
         In file files /\ readFile file = Returns content
         /\ In issue (scanContent (parse content) content file).
Proof.
  induction files as [|file files IH]; intros allIssues result issue Hrun Hin.
  - cbn in Hrun. injection Hrun as <-. now left.
  - cbn [scanFiles] in Hrun. unfold scanFile in Hrun.
    destruct (readFile file) as [content|message] eqn:Hread; [|discriminate].
    destruct (IH _ _ _ Hrun Hin) as [Hold|[file' [content' [Hfile [Hread' Hscan]]]]].
    + apply in_app_or in Hold. destruct Hold as [Hold|Hnew]; [now left|].
      right. exists file, content. repeat split; [now left | assumption..].
    + right. exists file', content'. repeat split; [now right | assumption..].
Qed.

End DetectorFacts.

(** X4. Each of the five detectors only appends to the list of issues it
    is given: the issues found before are kept, unchanged and in the same
    order, whatever the tree and the text. *)
Theorem detectors_only_append :
  forall (ast : node) (content filePath : string) (lines : list string)
         (issues : list Issue),
    checkForTodoComments content filePath lines issues
    = (issues ++ checkForTodoComments content filePath lines [])%list
    /\ checkForUnusedCode ast content filePath lines issues
       = (issues ++ checkForUnusedCode ast content filePath lines [])%list
    /\ checkForLongFunctions ast content filePath lines issues
       = (issues ++ checkForLongFunctions ast content filePath lines [])%list
    /\ checkForDeeplyNestedCode ast content filePath lines issues
       = (issues ++ checkForDeeplyNestedCode ast content filePath lines [])%list
    /\ checkForDeadCode ast content filePath lines issues
       = (issues ++ checkForDeadCode ast content filePath lines [])%list.
Proof.
  intros ast content filePath lines issues. repeat split.
  - apply DetectorFacts.todo_appends.
  - apply DetectorFacts.unused_appends.
  - apply DetectorFacts.long_appends.
  - apply DetectorFacts.nesting_appends.
  - apply DetectorFacts.dead_appends.
Qed.

(** X5. When every file that the directory listing returns can be read,
    the scan of the directory returns the issues of the files one after the
    other, in the order of the listing; a file that does not parse
    contributes its syntax error and the scan goes on. *)
Theorem scanDirectory_concatenates_files :
  forall (listFiles : string -> Outcome (list string))
         (readFile : string -> Outcome string) (parse : string -> ParseResult)
         (directory : string) (table : list (string * string)),
    listFiles directory = Returns (map fst table) ->
    Forall (readsAs readFile) table ->
    scanDirectory listFiles readFile parse directory
    = Returns (flat_map
                 (fun file => scanContent (parse (snd file)) (snd file) (fst file))
                 table).
Proof.
  intros listFiles readFile parse directory table Hlist Hread.
  unfold scanDirectory. rewrite Hlist.
  now rewrite (DetectorFacts.scanFiles_all_read readFile parse table Hread []).
Qed.

Lemma scanDirectory_concatenates_witness :
  scanDirectory Directory.listing (fileTable Directory.table) Directory.parse "/work"
  = Returns (flat_map
               (fun file => scanContent (Directory.parse (snd file)) (snd file) (fst file))
               Directory.table).
Proof.
  apply (scanDirectory_concatenates_files
           Directory.listing (fileTable Directory.table) Directory.parse "/work"
           Directory.table).
  - reflexivity.
  - repeat constructor.
Defined.

(** X6. When a listed file cannot be read, the scan of the directory
    throws for the first such file, with the message of [scanFile] wrapped
    once more; the issues of the files scanned before are lost and the
    files listed after it are not scanned. *)
Theorem scanDirectory_fails_on_first_unreadable_file :
  forall (listFiles : string -> Outcome (list string))
         (readFile : string -> Outcome string) (parse : string -> ParseResult)
         (directory : string) (before : list (string * string)) (file : string)
         (after : list string) (message : string),
    listFiles directory = Returns (map fst before ++ file :: after)%list ->
    Forall (readsAs readFile) before ->
    readFile file = Throws message ->
    scanDirectory listFiles readFile parse directory
    = Throws ("Failed to scan directory: Failed to scan file " ++ file
              ++ ": " ++ message).
Proof.
  intros listFiles readFile parse directory before file after message
    Hlist Hbefore Hfile.
  unfold scanDirectory. rewrite Hlist.
  assert (Hloop : forall allIssues,
             scanFiles readFile parse (map fst before ++ file :: after)%list allIssues
             = Throws ("Failed to scan file " ++ file ++ ": " ++ message)).
  { clear Hlist. induction Hbefore as [|[path text] before Hread _ IH]; intros allIssues.
    - cbn [map app scanFiles]. unfold scanFile. now rewrite Hfile.
    - cbn [map app fst scanFiles]. unfold scanFile. unfold readsAs in Hread.
      cbn [fst snd] in Hread. rewrite Hread. apply IH. }
  rewrite Hloop. reflexivity.
Qed.

Lemma scanDirectory_unreadable_witness :
  scanDirectory Directory.staleListing (fileTable Directory.table) Directory.parse "/work"
  = Throws ("Failed to scan directory: Failed to scan file /work/gone.js: "
            ++ "ENOENT: no such file or directory, open '/work/gone.js'").
Proof.
  apply (scanDirectory_fails_on_first_unreadable_file
           Directory.staleListing (fileTable Directory.table) Directory.parse "/work"
           [("/work/returnFirst.js", Samples.returnFirst_source)] "/work/gone.js"
           ["/work/broken.js"]
           "ENOENT: no such file or directory, open '/work/gone.js'").
  - reflexivity.
  - repeat constructor.
  - reflexivity.
Defined.

(** X7. Every issue that the scan of a directory returns comes from the
    scan of a listed file that could be read, and carries the path of that
    file as the listing gave it. *)
Theorem scanDirectory_issues_come_from_listed_files :
  forall (listFiles : string -> Outcome (list string))
         (readFile : string -> Outcome string) (parse : string -> ParseResult)
         (directory : string) (files : list string) (allIssues : list Issue)
         (issue : Issue),
    listFiles directory = Returns files ->
    scanDirectory listFiles readFile parse directory = Returns allIssues ->
    In issue allIssues ->
    In (filePath issue) files
    /\ exists content,
         readFile (filePath issue) = Returns content
         /\ In issue (scanContent (parse content) content (filePath issue)).
Proof.
  intros listFiles readFile parse directory files allIssues issue Hlist Hscan Hin.
  unfold scanDirectory in Hscan. rewrite Hlist in Hscan.
  destruct (scanFiles readFile parse files []) as [result|message] eqn:Hrun;
    [|discriminate].
  injection Hscan as <-.
  destruct (DetectorFacts.scanFiles_sound readFile parse files [] result issue Hrun Hin)
    as [[]|[file [content [Hfile [Hread Hfrom]]]]].
  pose proof (DetectorFacts.scanContent_filePath (parse content) content file) as Hpath.
  rewrite Forall_forall in Hpath. rewrite (Hpath issue Hfrom).
  split; [assumption|]. now exists content.
Qed.

Lemma scanDirectory_issues_witness :
  In (filePath Directory.returnFirst_issue) (map fst Directory.table)
  /\ exists content,
       fileTable Directory.table (filePath Directory.returnFirst_issue) = Returns content
       /\ In Directory.returnFirst_issue
            (scanContent (Directory.parse content) content
               (filePath Directory.returnFirst_issue)).
Proof.
  apply (scanDirectory_issues_come_from_listed_files
           Directory.listing (fileTable Directory.table) Directory.parse "/work"
           (map fst Directory.table)
           (flat_map
              (fun file => scanContent (Directory.parse (snd file)) (snd file) (fst file))
              Directory.table)
           Directory.returnFirst_issue).
  - reflexivity.
  - vm_compute. reflexivity.
  - vm_compute. right. left. reflexivity.
Defined.

(* ================================================================== *)
(** * More on pending-work comments                                    *)
(* ================================================================== *)

Module TodoOrderFacts.
Import TodoRegex.

Lemma dropWhile_length (p : ascii -> bool) (s : string) :
  String.length (dropWhile p s) <= String.length s.
Proof.
  induction s as [|ch s IH]; [reflexivity|].
  cbn [dropWhile]. destruct (p ch); cbn [String.length]; lia.
Qed.

Lemma takeWhile_length (p : ascii -> bool) (s : string) :
  String.length (takeWhile p s) <= String.length s.
Proof.
  induction s as [|ch s IH]; [reflexivity|].
  cbn [takeWhile]. destruct (p ch); cbn [String.length]; lia.
Qed.

Lemma takeWhile_dot_line (s : string) :
  hasChar JS.LF (takeWhile isDot s) = false.
Proof.
  induction s as [|ch s IH]; [reflexivity|].
  cbn [takeWhile]. destruct (isDot ch) eqn:Hdot; [|reflexivity].
  cbn [hasChar]. rewrite IH, orb_false_r.
  destruct (Ascii.eqb ch JS.LF) eqn:E; [|reflexivity].
  apply Ascii.eqb_eq in E. subst ch. discriminate Hdot.
Qed.

Lemma literal_spec (word : string) :
  forall s text rest,
    literal word s = Some (text, rest) ->
    toUpperCase text = word /\ String.length rest <= String.length s.
Proof.
  induction word as [|w word IH]; intros s text rest.
  - destruct s; intros [= <- <-]; split; reflexivity || lia.
  - destruct s as [|ch s]; [discriminate|]. cbn [literal].
    destruct (Ascii.eqb (JS.upperChar ch) w) eqn:E; [|discriminate].
    destruct (literal word s) as [[text' rest']|] eqn:El; [|discriminate].
    intros [= <- <-]. apply IH in El. destruct El as [Hup Hlen].
    apply Ascii.eqb_eq in E. cbn [toUpperCase String.length].
    split; [now rewrite E, Hup | lia].
Qed.

Lemma marker_spec (s found rest : string) :
  marker s = Some (found, rest) ->
  (toUpperCase found = "TODO" \/ toUpperCase found = "FIXME")
  /\ String.length rest <= String.length s.
Proof.
  unfold marker. destruct (literal "TODO" s) as [[t r]|] eqn:E.
  - intros [= <- <-]. apply literal_spec in E. destruct E. auto.
  - intros E'. apply literal_spec in E'. destruct E'. auto.
Qed.

(** What a match is made of. *)
Lemma matchHere_spec (at_ : nat) (s : string) (m : Match) :
  matchHere at_ s = Some m ->
  index m = at_
  /\ 1 <= extent m <= String.length s
  /\ substring 0 2 s = "//"
  /\ (toUpperCase (group1 m) = "TODO" \/ toUpperCase (group1 m) = "FIXME")
  /\ hasChar JS.LF (group2 m) = false.
Proof.
  unfold matchHere.
  destruct s as [|c1 [|c2 after]]; try discriminate.
  destruct (Ascii.eqb c1 "/" && Ascii.eqb c2 "/") eqn:Hslashes; [|discriminate].
  apply andb_true_iff in Hslashes. destruct Hslashes as [H1 H2].
  apply Ascii.eqb_eq in H1, H2. subst c1 c2.
  destruct (marker (dropWhile isSpace after)) as [[found afterMarker]|] eqn:Hm;
    [|discriminate].
  remember (String.length (String "/" (String "/" after))) as n eqn:Hs.
  intros [= <-]. cbn [index extent group1 group2].
  apply marker_spec in Hm. destruct Hm as [Hup Hlen].
  pose proof (dropWhile_length isSpace after) as Hd1.
  pose proof (dropWhile_length isSeparator afterMarker) as Hd2.
  pose proof (takeWhile_length isDot (dropWhile isSeparator afterMarker)) as Ht.
  cbn [String.length] in Hs.
  repeat split; try lia; try assumption.
  - cbn [substring]. now destruct after.
  - apply takeWhile_dot_line.
Qed.

Lemma execFrom_sorted (s : string) :
  forall at_ toSkip,
    StronglySorted matchBefore (execFrom s at_ toSkip)
    /\ Forall (fun m => at_ + toSkip <= index m
                        /\ index m + extent m <= at_ + String.length s
                        /\ 1 <= extent m
                        /\ substring (index m - at_) 2 s = "//")
         (execFrom s at_ toSkip).
Proof.
  induction s as [|ch s IH]; intros at_ toSkip.
  - split; constructor.
  - cbn [execFrom]. destruct toSkip as [|k].
    + destruct (matchHere at_ (String ch s)) as [m|] eqn:E.
      * apply matchHere_spec in E. destruct E as [Hindex [Hextent [Hslashes _]]].
        destruct (IH (S at_) (extent m - 1)) as [Hsorted Hall]. split.
        -- constructor; [exact Hsorted|].
           eapply Forall_impl; [|exact Hall]. cbn beta.
           intros m' [Hlow _]. unfold matchBefore. lia.
        -- constructor.
           ++ rewrite Hindex, Nat.sub_diag. cbn [String.length] in *.
              repeat split; try lia. exact Hslashes.
           ++ eapply Forall_impl; [|exact Hall]. cbn beta.
              intros m' [Hlow [Hhigh [Hone Hsl]]]. cbn [String.length].
              repeat split; try lia.
              replace (index m' - at_) with (S (index m' - S at_)) by lia.
              exact Hsl.
      * destruct (IH (S at_) 0) as [Hsorted Hall]. split; [exact Hsorted|].
        eapply Forall_impl; [|exact Hall]. cbn beta.
        intros m' [Hlow [Hhigh [Hone Hsl]]]. cbn [String.length].
        repeat split; try lia.
        replace (index m' - at_) with (S (index m' - S at_)) by lia.
        exact Hsl.
    + destruct (IH (S at_) k) as [Hsorted Hall]. split; [exact Hsorted|].
      eapply Forall_impl; [|exact Hall]. cbn beta.
      intros m' [Hlow [Hhigh [Hone Hsl]]]. cbn [String.length].
      repeat split; try lia.
      replace (index m' - at_) with (S (index m' - S at_)) by lia.
      exact Hsl.
Qed.

Lemma StronglySorted_map {A B} (R : A -> A -> Prop) (Q : B -> B -> Prop)
    (f : A -> B) (l : list A) :
  (forall a b, In a l -> In b l -> R a b -> Q (f a) (f b)) ->
  StronglySorted R l -> StronglySorted Q (map f l).
Proof.
  intros Hmono Hsorted. induction Hsorted as [|a l Hl IH Ha]; [constructor|].
  cbn [map]. constructor.
  - apply IH. intros x y Hx Hy. apply Hmono; now right.
  - apply Forall_forall. intros y Hy. apply in_map_iff in Hy.
    destruct Hy as [b [<- Hb]]. rewrite Forall_forall in Ha.
    apply Hmono; [now left | now right | now apply Ha].
Qed.

End TodoOrderFacts.

(** X8. The pending-work issues of a text come in the order of the text:
    the matches they are made from do not overlap, each one starts where
    the text reads two slashes, and the lines of the issues never
    decrease. *)
Theorem todo_issues_follow_the_text :
  forall (content filePath : string) (lines : list string),
    StronglySorted (fun m1 m2 => TodoRegex.index m1 + TodoRegex.extent m1
                                 <= TodoRegex.index m2)
      (TodoRegex.execAll content)
    /\ Forall (fun m => substring (TodoRegex.index m) 2 content = "//"
                        /\ 1 <= TodoRegex.extent m
                        /\ TodoRegex.index m + TodoRegex.extent m
                           <= String.length content)
         (TodoRegex.execAll content)
    /\ checkForTodoComments content filePath lines []
       = map (todoIssue content filePath lines) (TodoRegex.execAll content)
    /\ StronglySorted (fun a b => line a <= line b)
         (checkForTodoComments content filePath lines []).
Proof.
  intros content filePath lines.
  destruct (TodoOrderFacts.execFrom_sorted content 0 0) as [Hsorted Hall].
  fold (TodoRegex.execAll content) in Hsorted, Hall.
  split; [exact Hsorted|]. split; [|split].
  - eapply Forall_impl; [|exact Hall]. cbn beta.
    intros m [_ [Hhigh [Hone Hsl]]]. rewrite Nat.sub_0_r in Hsl.
    repeat split; try assumption; lia.
  - now rewrite EngineFacts.checkForTodoComments_eq.
  - rewrite EngineFacts.checkForTodoComments_eq. cbn [app].
    eapply TodoOrderFacts.StronglySorted_map; [|exact Hsorted].
    intros a b _ _ Hab. unfold matchBefore in Hab.
    unfold todoIssue. cbn [line].
    unfold getLineNumberFromIndex, JS.slice0.
    rewrite !LineCountFacts.split_LF_count.
    pose proof (LineCountFacts.countLF_prefix_mono content
                  (TodoRegex.index a) (TodoRegex.index b)).
    lia.
Qed.

(** X9. The message of a pending-work issue: the marker as the text spells
    it (TODO or FIXME, in any case of the letters), then a text that is
    never empty and holds no line feed. *)
Theorem todo_message_is_marker_and_one_line :
  forall (content filePath : string) (lines : list string) (issue : Issue),
    In issue (checkForTodoComments content filePath lines []) ->
    exists marker text,
      message issue = "Found " ++ marker ++ " comment: " ++ text
      /\ (toUpperCase marker = "TODO" \/ toUpperCase marker = "FIXME")
      /\ text <> ""
      /\ hasChar JS.LF text = false.
Proof.
  intros content filePath lines issue Hin.
  rewrite EngineFacts.checkForTodoComments_eq in Hin. cbn [app] in Hin.
  apply in_map_iff in Hin. destruct Hin as [m [<- Hm]].
  apply TodoFacts.execFrom_origin in Hm. destruct Hm as [at' [s' [Hm _]]].
  apply TodoOrderFacts.matchHere_spec in Hm.
  destruct Hm as [_ [_ [_ [Hup Hline]]]].
  exists (TodoRegex.group1 m).
  exists (if String.eqb (TodoRegex.group2 m) "" then "No description provided"
          else TodoRegex.group2 m).
  split; [reflexivity|]. split; [exact Hup|].
  destruct (String.eqb (TodoRegex.group2 m) "") eqn:E.
  - split; [discriminate | reflexivity].
  - apply String.eqb_neq in E. split; assumption.
Qed.

Lemma todo_message_witness :
  exists marker text,
    "Found fixme comment: No description provided"
    = "Found " ++ marker ++ " comment: " ++ text
    /\ (toUpperCase marker = "TODO" \/ toUpperCase marker = "FIXME")
    /\ text <> ""
    /\ hasChar JS.LF text = false.
Proof.
  apply (todo_message_is_marker_and_one_line "x(); // fixme:" "sample.js"
           (JS.split_LF "x(); // fixme:")
           {| type := PendingWork;
              filePath := "sample.js";
              line := 1;
              message := "Found fixme comment: No description provided";
              code := "x(); // fixme:" |}).
  vm_compute. left. reflexivity.
Defined.

(* ================================================================== *)
(** * More on [findParentNode]                                         *)
(* ================================================================== *)

Module ParentSearchFacts.
Import ESTree Walk WalkFacts.

(** A search that ends without a result has met no parent. *)
Lemma fold_parent_none (target : node) (l : list (node * list node)) :
  forall result,
    fold_left (call (parentVisitors target)) l result = None ->
    result = None /\ forall m, In m (map fst l) -> isParentOf target m = false.
Proof.
  induction l as [|[m ancs] l IH]; intros result Hnone.
  - split; [exact Hnone | intros m []].
  - cbn [fold_left map fst] in *. unfold call at 2 in Hnone. cbn [fst snd] in Hnone.
    rewrite ParentFacts.parentVisitors_eq in Hnone.
    apply IH in Hnone. destruct Hnone as [Hresult Hrest].
    destruct (isParentOf target m) eqn:E; [discriminate|].
    split; [exact Hresult|]. intros m' [<-|Hin]; [exact E | now apply Hrest].
Qed.

Lemma parent_not_identifier (target n : node) :
  isParentOf target n = true -> isIdentifier n = false.
Proof. now destruct n. Qed.

End ParentSearchFacts.

(** X10. What [findParentNode] returns is a node of the tree that holds
    the target as its initializer, as the right side of its assignment or
    as the value of its property; it returns nothing exactly when the tree
    has no such node. *)
Theorem findParentNode_finds_a_parent :
  forall (ast target : node),
    match findParentNode ast target with
    | Some parent => In parent (subnodes ast) /\ isParentOf target parent = true
    | None => forall n, In n (subnodes ast) -> isParentOf target n = false
    end.
Proof.
  intros ast target. unfold findParentNode. rewrite WalkFacts.ancestor_fold.
  destruct (fold_left _ _ _) as [parent|] eqn:Hfold.
  - destruct (ParentFacts.fold_parent_found target (Walk.visits [] ast) None)
      as [Hnone|[m [Hin [Hparent Hsome]]]].
    + congruence.
    + rewrite Hsome in Hfold. injection Hfold as <-.
      split; [|exact Hparent]. now apply WalkFacts.visited_in_subnodes.
  - apply ParentSearchFacts.fold_parent_none in Hfold. destruct Hfold as [_ Hall].
    intros n Hin. destruct (isParentOf target n) eqn:E; [|reflexivity].
    rewrite <- (Hall n); [now rewrite E|].
    apply ParentFacts.visited_of_subnodes; [|exact Hin].
    now apply ParentSearchFacts.parent_not_identifier with target.
Qed.

(* ================================================================== *)
(** * The comments written into a file                                 *)
(* ================================================================== *)

Module TextFacts.

Lemma split_LF_nonempty (s : string) : JS.split_LF s <> [].
Proof.
  pose proof (LineFacts.split_LF_length s) as H.
  destruct (JS.split_LF s); [simpl in H; lia | discriminate].
Qed.

(** Joining the lines of a text gives the text back. *)
Lemma join_split (s : string) : JS.join_LF (JS.split_LF s) = s.
Proof.
  induction s as [|ch s IH]; [reflexivity|].
  cbn [JS.split_LF]. pose proof (split_LF_nonempty s) as Hne.
  destruct (Ascii.eqb ch JS.LF) eqn:E.
  - apply Ascii.eqb_eq in E. subst ch.
    destruct (JS.split_LF s) as [|piece pieces]; [contradiction|].
    cbn [JS.join_LF] in *. now rewrite IH.
  - destruct (JS.split_LF s) as [|piece pieces]; [contradiction|].
    destruct pieces as [|piece' pieces]; cbn [JS.join_LF] in *.
    + now rewrite IH.
    + cbn [append]. now rewrite IH.
Qed.

Lemma split_no_LF (s : string) : hasChar JS.LF s = false -> JS.split_LF s = [s].
Proof.
  induction s as [|ch s IH]; [reflexivity|].
  cbn [hasChar JS.split_LF]. intros H. apply orb_false_iff in H. destruct H as [Hch Hs].
  rewrite Hch, (IH Hs). reflexivity.
Qed.

Lemma split_append_LF (a b : string) :
  hasChar JS.LF a = false ->
  JS.split_LF (a ++ String JS.LF b) = a :: JS.split_LF b.
Proof.
  induction a as [|ch a IH]; intros H.
  - reflexivity.
  - cbn [hasChar] in H. apply orb_false_iff in H. destruct H as [Hch Ha].
    cbn [append JS.split_LF]. rewrite Hch, (IH Ha). reflexivity.
Qed.

(** Lines without a line feed are the lines of their join. *)
Lemma split_join (lines : list string) :
  lines <> [] ->
  Forall (fun l => hasChar JS.LF l = false) lines ->
  JS.split_LF (JS.join_LF lines) = lines.
Proof.
  induction lines as [|l lines IH]; [contradiction|]. intros _ Hall.
  inversion Hall as [|? ? Hl Hrest]; subst.
  destruct lines as [|l' lines].
  - cbn [JS.join_LF]. now apply split_no_LF.
  - change (JS.join_LF (l :: l' :: lines))
      with (l ++ String JS.LF (JS.join_LF (l' :: lines))).
    rewrite split_append_LF by exact Hl.
    rewrite IH; [reflexivity | discriminate | exact Hrest].
Qed.

(** The pieces of a text hold no line feed. *)
Lemma split_LF_lines (s : string) :
  Forall (fun l => hasChar JS.LF l = false) (JS.split_LF s).
Proof.
  induction s as [|ch s IH]; [repeat constructor|].
  cbn [JS.split_LF]. destruct (Ascii.eqb ch JS.LF) eqn:E.
  - constructor; [reflexivity | exact IH].
  - destruct (JS.split_LF s) as [|piece pieces].
    + repeat constructor. cbn [hasChar]. now rewrite E.
    + inversion IH; subst. constructor; [|assumption].
      cbn [hasChar]. now rewrite E.
Qed.

End TextFacts.

Module SortFacts.

Lemma insertSorted_In (a x : Issue) (l : list Issue) :
  In x (JSArray.insertSorted byLineDescending a l) <-> x = a \/ In x l.
Proof.
  induction l as [|b l IH]; cbn [JSArray.insertSorted].
  - cbn [In]. intuition.
  - destruct (byLineDescending a b <=? 0)%Z; cbn [In] in *; intuition.
Qed.

Lemma sort_In (x : Issue) (l : list Issue) :
  In x (JSArray.sort byLineDescending l) <-> In x l.
Proof.
  induction l as [|a l IH]; [reflexivity|].
  unfold JSArray.sort in *. cbn [fold_right In].
  rewrite insertSorted_In, IH. intuition.
Qed.

Lemma insertSorted_descending (a : Issue) (l : list Issue) :
  StronglySorted descendingLines l ->
  StronglySorted descendingLines (JSArray.insertSorted byLineDescending a l).
Proof.
  induction 1 as [|b l Hl IH Hb]; cbn [JSArray.insertSorted].
  - repeat constructor.
  - destruct (byLineDescending a b <=? 0)%Z eqn:E.
    + apply Z.leb_le in E. unfold byLineDescending in E.
      constructor; [now constructor|].
      constructor; [unfold descendingLines; lia|].
      eapply Forall_impl; [|exact Hb]. unfold descendingLines. intros; lia.
    + apply Z.leb_gt in E. unfold byLineDescending in E.
      constructor; [exact IH|].
      apply Forall_forall. intros x Hx. apply insertSorted_In in Hx.
      destruct Hx as [->|Hx]; [unfold descendingLines; lia|].
      rewrite Forall_forall in Hb. now apply Hb.
Qed.

(** The sort puts the issues in descendingLines order of their lines. *)
Lemma sort_descending (l : list Issue) :
  StronglySorted descendingLines (JSArray.sort byLineDescending l).
Proof.
  induction l as [|a l IH]; [constructor|].
  unfold JSArray.sort in *. cbn [fold_right]. now apply insertSorted_descending.
Qed.

Lemma insertSorted_line (k : nat) (a : Issue) (l : list Issue) :
  filter (fun issue => line issue =? k) (JSArray.insertSorted byLineDescending a l)
  = filter (fun issue => line issue =? k) (a :: l).
Proof.
  induction l as [|b l IH]; [reflexivity|].
  cbn [JSArray.insertSorted].
  destruct (byLineDescending a b <=? 0)%Z eqn:E; [reflexivity|].
  apply Z.leb_gt in E. unfold byLineDescending in E.
  cbn [filter] in *. rewrite IH.
  destruct (line b =? k) eqn:Eb; [|reflexivity].
  apply Nat.eqb_eq in Eb.
  destruct (line a =? k) eqn:Ea; [|reflexivity].
  apply Nat.eqb_eq in Ea. lia.
Qed.

(** The sort is stable: the issues of one line keep their order. *)
Lemma sort_line (k : nat) (l : list Issue) :
  filter (fun issue => line issue =? k) (JSArray.sort byLineDescending l)
  = filter (fun issue => line issue =? k) l.
Proof.
  induction l as [|a l IH]; [reflexivity|].
  unfold JSArray.sort in *. cbn [fold_right].
  rewrite insertSorted_line. cbn [filter]. now rewrite IH.
Qed.

End SortFacts.

Module WeaveFacts.
Import SortFacts.

(** The lines numbered from [k], each after the comments for it. *)
Lemma weave_cons (k : nat) (x : string) (rest : list string) (issues : list Issue) :
  flat_map (fun nl => rev (commentsAt (fst nl) issues) ++ [snd nl])%list
    (combine (seq k (List.length (x :: rest))) (x :: rest))
  = (rev (commentsAt k issues)
     ++ x :: flat_map (fun nl => rev (commentsAt (fst nl) issues) ++ [snd nl])%list
               (combine (seq (S k) (List.length rest)) rest))%list.
Proof. cbn [List.length seq combine flat_map fst snd]. now rewrite <- app_assoc. Qed.

Lemma commentsAt_app (k : nat) (a b : list Issue) :
  commentsAt k (a ++ b) = (commentsAt k a ++ commentsAt k b)%list.
Proof. unfold commentsAt. now rewrite filter_app, map_app. Qed.

Lemma commentsAt_other (k : nat) (issue : Issue) :
  line issue <> k -> commentsAt k [issue] = [].
Proof.
  intros H. unfold commentsAt. cbn [filter].
  apply Nat.eqb_neq in H. now rewrite H.
Qed.

Lemma commentsAt_same (issue : Issue) :
  commentsAt (line issue) [issue] = [generateComment issue].
Proof. unfold commentsAt. cbn [filter]. now rewrite Nat.eqb_refl. Qed.

Lemma commentsAt_above (k : nat) (issues : list Issue) :
  (forall j, In j issues -> k < line j) -> commentsAt k issues = [].
Proof.
  induction issues as [|i issues IH]; intros H; [reflexivity|].
  change (i :: issues) with ([i] ++ issues)%list. rewrite commentsAt_app.
  rewrite commentsAt_other, IH; [reflexivity | |].
  - intros j Hj. apply H. now right.
  - specialize (H i (or_introl eq_refl)). lia.
Qed.

(** The comments depend on the issues of the lines of the text only. *)
Lemma weave_ext (lines : list string) :
  forall k a b,
    (forall n, k <= n < k + List.length lines -> commentsAt n a = commentsAt n b) ->
    flat_map (fun nl => rev (commentsAt (fst nl) a) ++ [snd nl])%list
      (combine (seq k (List.length lines)) lines)
    = flat_map (fun nl => rev (commentsAt (fst nl) b) ++ [snd nl])%list
        (combine (seq k (List.length lines)) lines).
Proof.
  induction lines as [|x rest IH]; intros k a b H; [reflexivity|].
  rewrite !weave_cons. rewrite (H k) by (cbn [List.length]; lia).
  rewrite (IH (S k) a b); [reflexivity|].
  intros n Hn. apply H. cbn [List.length]. lia.
Qed.

Lemma weave_none (lines : list string) (k : nat) :
  flat_map (fun nl => rev (commentsAt (fst nl) []) ++ [snd nl])%list
    (combine (seq k (List.length lines)) lines)
  = lines.
Proof.
  revert k. induction lines as [|x rest IH]; intros k; [reflexivity|].
  rewrite weave_cons, IH. reflexivity.
Qed.

Lemma weave_length (lines : list string) :
  forall k issues,
    List.length lines
    <= List.length
         (flat_map (fun nl => rev (commentsAt (fst nl) issues) ++ [snd nl])%list
            (combine (seq k (List.length lines)) lines)).
Proof.
  induction lines as [|x rest IH]; intros k issues; [cbn; lia|].
  rewrite weave_cons, length_app. cbn [List.length].
  specialize (IH (S k) issues). lia.
Qed.

(** One more comment, for an issue that is above all the ones before. *)
Lemma weave_insert (lines : list string) :
  forall k issues issue,
    (forall j, In j issues -> line issue <= line j) ->
    k <= line issue < k + List.length lines ->
    JSArray.splice (line issue - k) (generateComment issue)
      (flat_map (fun nl => rev (commentsAt (fst nl) issues) ++ [snd nl])%list
         (combine (seq k (List.length lines)) lines))
    = flat_map (fun nl => rev (commentsAt (fst nl) (issues ++ [issue])) ++ [snd nl])%list
        (combine (seq k (List.length lines)) lines).
Proof.
  induction lines as [|x rest IH]; intros k issues issue Hleast Hrange.
  - cbn [List.length] in Hrange. lia.
  - rewrite !weave_cons. destruct (Nat.eq_dec (line issue) k) as [Heq|Hne].
    + subst k. rewrite Nat.sub_diag. unfold JSArray.splice. cbn [firstn skipn app].
      rewrite commentsAt_app, rev_app_distr, commentsAt_same. cbn [rev app].
      rewrite (weave_ext rest (S (line issue)) (issues ++ [issue]) issues);
        [reflexivity|].
      intros n Hn.
      rewrite commentsAt_app, commentsAt_other by lia. now rewrite app_nil_r.
    + rewrite commentsAt_app, (commentsAt_other k issue Hne), app_nil_r.
      rewrite (commentsAt_above k issues)
        by (intros j Hj; specialize (Hleast j Hj); lia).
      cbn [rev app].
      replace (line issue - k) with (S (line issue - S k)) by lia.
      unfold JSArray.splice. cbn [firstn skipn app]. f_equal.
      apply (IH (S k) issues issue Hleast). cbn [List.length] in Hrange. lia.
Qed.

(** The loop over issues in descendingLines order of their lines. *)
Lemma loop_weaves (lines : list string) (l : list Issue) :
  StronglySorted descendingLines l ->
  forall done,
    (forall d x, In d done -> In x l -> line x <= line d) ->
    (forall d, In d done -> inRange (List.length lines) d = true) ->
    fold_left insertComment l
      (flat_map (fun nl => rev (commentsAt (fst nl) done) ++ [snd nl])%list
         (numbered lines))
    = flat_map
        (fun nl => rev (commentsAt (fst nl)
                          (done ++ filter (inRange (List.length lines)) l)) ++ [snd nl])%list
        (numbered lines).
Proof.
  unfold numbered.
  induction 1 as [|x l Hl IH Hx]; intros done Horder Hdone.
  - cbn [fold_left filter]. now rewrite app_nil_r.
  - cbn [fold_left filter]. rewrite Forall_forall in Hx.
    destruct (inRange (List.length lines) x) eqn:Ein.
    + unfold inRange in Ein. apply andb_true_iff in Ein. destruct Ein as [H1 H2].
      apply Nat.leb_le in H1, H2.
      pose proof (weave_length lines 1 done) as Hlen.
      unfold insertComment at 2.
      replace ((Z.of_nat (line x) - 1 <? 0)%Z) with false
        by (symmetry; apply Z.ltb_ge; lia).
      replace ((Z.of_nat (line x) - 1 >=? Z.of_nat _)%Z) with false
        by (symmetry; rewrite Z.geb_leb; apply Z.leb_gt; lia).
      cbn [orb].
      replace (Z.to_nat (Z.of_nat (line x) - 1)) with (line x - 1) by lia.
      rewrite weave_insert; [| intros j Hj; apply (Horder j x Hj); now left | lia].
      rewrite IH.
      * now rewrite <- app_assoc.
      * intros d y Hd Hy. apply in_app_or in Hd. destruct Hd as [Hd|[<-|[]]].
        -- apply (Horder d y Hd). now right.
        -- now apply Hx.
      * intros d Hd. apply in_app_or in Hd. destruct Hd as [Hd|[<-|[]]].
        -- now apply Hdone.
        -- unfold inRange. apply andb_true_iff. split; now apply Nat.leb_le.
    + assert (Hskip : insertComment
                        (flat_map
                           (fun nl => rev (commentsAt (fst nl) done) ++ [snd nl])%list
                           (combine (seq 1 (List.length lines)) lines)) x
                      = flat_map
                          (fun nl => rev (commentsAt (fst nl) done) ++ [snd nl])%list
                          (combine (seq 1 (List.length lines)) lines)).
      { unfold inRange in Ein. apply andb_false_iff in Ein.
        unfold insertComment.
        destruct Ein as [E|E].
        - apply Nat.leb_gt in E.
          replace ((Z.of_nat (line x) - 1 <? 0)%Z) with true
            by (symmetry; apply Z.ltb_lt; lia).
          reflexivity.
        - apply Nat.leb_gt in E.
          assert (Hnone : done = []).
          { destruct done as [|d done]; [reflexivity|]. exfalso.
            specialize (Horder d x (or_introl eq_refl) (or_introl eq_refl)).
            specialize (Hdone d (or_introl eq_refl)).
            unfold inRange in Hdone. apply andb_true_iff in Hdone.
            destruct Hdone as [_ Hd]. apply Nat.leb_le in Hd. lia. }
          subst done. rewrite weave_none.
          replace ((Z.of_nat (line x) - 1 >=? Z.of_nat (List.length lines))%Z) with true
            by (symmetry; rewrite Z.geb_leb; apply Z.leb_le; lia).
          now rewrite orb_true_r. }
      rewrite Hskip. apply IH; [|exact Hdone].
      intros d y Hd Hy. apply (Horder d y Hd). now right.
Qed.

Lemma filter_line_inRange (count k : nat) (l : list Issue) :
  1 <= k <= count ->
  filter (fun issue => line issue =? k) (filter (inRange count) l)
  = filter (fun issue => line issue =? k) l.
Proof.
  intros Hk. induction l as [|a l IH]; [reflexivity|].
  cbn [filter]. destruct (inRange count a) eqn:Ein; cbn [filter]; rewrite IH.
  - reflexivity.
  - destruct (line a =? k) eqn:E; [|reflexivity].
    apply Nat.eqb_eq in E. unfold inRange in Ein. apply andb_false_iff in Ein.
    destruct Ein as [Ein|Ein]; apply Nat.leb_gt in Ein; lia.
Qed.

(** The lines of a file after the loop: each line of the text after the
    comments for the issues of that line, the last issue first. *)
Lemma commentedLines_weave (fileIssues : list Issue) (lines : list string) :
  commentedLines fileIssues lines
  = flat_map (fun nl => rev (commentsAt (fst nl) fileIssues) ++ [snd nl])%list
      (numbered lines).
Proof.
  unfold commentedLines.
  pose proof (loop_weaves lines (JSArray.sort byLineDescending fileIssues)
                (sort_descending fileIssues) []) as H.
  unfold numbered in *. rewrite weave_none in H.
  rewrite H by (intros; cbn [In] in *; contradiction).
  cbn [app]. apply weave_ext. intros n Hn. unfold commentsAt.
  rewrite filter_line_inRange by lia. now rewrite sort_line.
Qed.

End WeaveFacts.

Module ShiftFacts.
Import WeaveFacts.

Lemma count_split (k m : nat) (issues : list Issue) :
  List.length (filter (fun i => (k <=? line i) && (line i <? k + S m)) issues)
  = List.length (filter (fun i => line i =? k) issues)
    + List.length (filter (fun i => (S k <=? line i) && (line i <? S k + m)) issues).
Proof.
  induction issues as [|a issues IH]; [reflexivity|].
  cbn [filter].
  destruct (Nat.eqb_spec (line a) k), (Nat.leb_spec k (line a)),
    (Nat.ltb_spec (line a) (k + S m)), (Nat.leb_spec (S k) (line a)),
    (Nat.ltb_spec (line a) (S k + m));
    cbn [andb List.length]; lia.
Qed.

Lemma commentsAt_length (k : nat) (issues : list Issue) :
  List.length (rev (commentsAt k issues))
  = List.length (filter (fun i => line i =? k) issues).
Proof. unfold commentsAt. now rewrite length_rev, length_map. Qed.

(** Where a line of the text stands among the lines and the comments. *)
Lemma weave_nth (lines : list string) :
  forall k issues j,
    j < List.length lines ->
    nth_error
      (flat_map (fun nl => rev (commentsAt (fst nl) issues) ++ [snd nl])%list
         (combine (seq k (List.length lines)) lines))
      (j + List.length (filter (fun i => (k <=? line i) && (line i <? k + S j)) issues))
    = nth_error lines j.
Proof.
  induction lines as [|x rest IH]; intros k issues j Hj.
  - cbn [List.length] in Hj. lia.
  - rewrite weave_cons, count_split.
    rewrite nth_error_app2 by (rewrite commentsAt_length; lia).
    rewrite commentsAt_length. destruct j as [|j].
    + replace (filter (fun i => (S k <=? line i) && (line i <? S k + 0)) issues)
        with (@nil Issue).
      * cbn [List.length]. replace (0 + _ - _) with 0 by lia. reflexivity.
      * symmetry. clear. induction issues as [|a issues IH]; [reflexivity|].
        cbn [filter].
        destruct (Nat.leb_spec (S k) (line a)), (Nat.ltb_spec (line a) (S k + 0));
          cbn [andb]; try lia; exact IH.
    + match goal with
      | |- nth_error _ ?position = _ =>
          replace position
            with (S (j + List.length
                           (filter (fun i => (S k <=? line i) && (line i <? S k + S j))
                              issues))) by lia
      end.
      cbn [nth_error]. apply IH. cbn [List.length] in Hj. lia.
Qed.

Lemma weave_count (lines : list string) :
  forall k issues,
    List.length
      (flat_map (fun nl => rev (commentsAt (fst nl) issues) ++ [snd nl])%list
         (combine (seq k (List.length lines)) lines))
    = List.length lines
      + List.length
          (filter (fun i => (k <=? line i) && (line i <? k + List.length lines)) issues).
Proof.
  induction lines as [|x rest IH]; intros k issues.
  - cbn [List.length combine seq flat_map].
    replace (filter _ issues) with (@nil Issue); [reflexivity|].
    symmetry. induction issues as [|a issues IHi]; [reflexivity|].
    cbn [filter].
    destruct (Nat.leb_spec k (line a)), (Nat.ltb_spec (line a) (k + 0));
      cbn [andb]; try lia; exact IHi.
  - rewrite weave_cons, length_app, commentsAt_length.
    cbn [List.length]. rewrite IH, count_split. lia.
Qed.

Lemma inRange_filter (count : nat) (issues : list Issue) :
  filter (fun i => (1 <=? line i) && (line i <? 1 + count)) issues
  = filter (inRange count) issues.
Proof.
  apply filter_ext. intros a. reflexivity.
Qed.

(** Every element of the result is a line of the text or a comment. *)
Lemma weave_In (lines : list string) (issues : list Issue) (x : string) :
  forall k,
    In x (flat_map (fun nl => rev (commentsAt (fst nl) issues) ++ [snd nl])%list
            (combine (seq k (List.length lines)) lines)) ->
    In x lines \/ exists issue, In issue issues /\ x = generateComment issue.
Proof.
  induction lines as [|l rest IH]; intros k Hin; [contradiction|].
  rewrite weave_cons in Hin. apply in_app_or in Hin.
  destruct Hin as [Hin|[<-|Hin]].
  - right. apply in_rev in Hin. unfold commentsAt in Hin.
    apply in_map_iff in Hin. destruct Hin as [issue [<- Hissue]].
    apply filter_In in Hissue. exists issue. split; [apply Hissue | reflexivity].
  - left. now left.
  - apply IH in Hin. destruct Hin as [Hin|Hin]; [left; now right | now right].
Qed.

End ShiftFacts.

Module CommentFacts.

(** The kind of an issue of a file that parses. *)
Lemma parsed_issue_kind (ast : node) (content path : string) (issue : Issue) :
  In issue (scanContent (Parsed ast) content path) ->
  In (type issue) detectorKinds
  /\ exists kind, emitted kind content (JS.split_LF content) issue.
Proof.
  intros Hin. rewrite EngineFacts.scanContent_parsed in Hin.
  unfold detectorKinds.
  repeat (apply in_app_or in Hin; destruct Hin as [Hin|Hin]).
  - eapply Forall_forall in Hin; [|apply EngineFacts.todo_emitted].
    split; [|eauto]. destruct Hin as [-> _]. cbn [In]. auto.
  - eapply Forall_forall in Hin; [|apply EngineFacts.unused_emitted].
    destruct Hin as [Hin|Hin]; (split; [|eauto]); destruct Hin as [-> _];
      cbn [In]; auto.
  - eapply Forall_forall in Hin; [|apply EngineFacts.long_emitted].
    split; [|eauto]. destruct Hin as [-> _]. cbn [In]. auto.
  - eapply Forall_forall in Hin; [|apply EngineFacts.nesting_emitted].
    split; [|eauto]. destruct Hin as [-> _]. cbn [In]. auto 6.
  - eapply Forall_forall in Hin; [|apply EngineFacts.dead_emitted].
    destruct Hin as [Hin _]. split; [|eauto]. destruct Hin as [-> _].
    cbn [In]. auto 7.
Qed.

(** The line of an issue of a file that parses is a line of the file. *)
Lemma parsed_issue_within (ast : node) (content path : string) (issue : Issue) :
  In issue (scanContent (Parsed ast) content path) ->
  1 <= line issue <= List.length (JS.split_LF content)
  /\ nth_error (JS.split_LF content) (line issue - 1) = Some (code issue).
Proof.
  intros Hin. apply parsed_issue_kind in Hin.
  destruct Hin as [_ [kind [_ [[index Hline] Hcode]]]].
  assert (Hlow : 1 <= line issue).
  { rewrite Hline. apply LineFacts.getLineNumberFromIndex_pos. }
  assert (Hhigh : line issue <= List.length (JS.split_LF content)).
  { rewrite Hline. apply LineCountFacts.getLineNumberFromIndex_le. }
  split; [lia|].
  rewrite Hcode. now apply LineFacts.lineOr_spec.
Qed.

(** The comment for an issue of one of the six kinds of the detectors. *)
Lemma detector_comment (issue : Issue) :
  In (type issue) detectorKinds ->
  prefix "// CLEAN-SLATE: " (generateComment issue) = true
  /\ hasChar JS.LF (generateComment issue) = false
  /\ forall other, type other = type issue ->
       generateComment other = generateComment issue.
Proof.
  unfold detectorKinds. cbn [In].
  intros [H|[H|[H|[H|[H|[H|[]]]]]]];
    (repeat split;
     [ unfold generateComment; rewrite <- H; reflexivity
     | unfold generateComment; rewrite <- H; reflexivity
     | intros other Hother; unfold generateComment; rewrite Hother, <- H;
       reflexivity ]).
Qed.

End CommentFacts.

Module GroupFacts.

Lemma issuesOf_cons_same (issue : Issue) (rest : list Issue) :
  issuesOf (filePath issue) (issue :: rest) = issue :: issuesOf (filePath issue) rest.
Proof. unfold issuesOf. cbn [filter]. now rewrite String.eqb_refl. Qed.

Lemma issuesOf_cons_other (path : string) (issue : Issue) (rest : list Issue) :
  filePath issue <> path -> issuesOf path (issue :: rest) = issuesOf path rest.
Proof.
  intros H. unfold issuesOf. cbn [filter].
  apply String.eqb_neq in H. now rewrite H.
Qed.

Lemma get_keys {V} (k : string) (v : V) (m : JSMap.t V) :
  JSMap.get k m = Some v -> In k (map fst m).
Proof. intros H. apply MapFacts.get_In in H. now apply (in_map fst) in H. Qed.

(** What the grouping makes of issues whose paths name no inherited
    property: one entry for each path, with the issues of the path in the
    order of the list. *)
Lemma group_ok (issues : list Issue) :
  Forall (fun issue => JSObject.inherits (filePath issue) = false) issues ->
  forall o,
    NoDup (map fst o) ->
    exists o',
      groupByFile issues o = Returns o'
      /\ NoDup (map fst o')
      /\ (forall p, In p (map fst o') <-> In p (map fst o) \/ In p (map filePath issues))
      /\ (forall p,
            JSMap.get p o'
            = match JSMap.get p o with
              | Some l => Some (l ++ issuesOf p issues)%list
              | None => match issuesOf p issues with
                        | [] => None
                        | l => Some l
                        end
              end).
Proof.
  induction 1 as [|issue rest Hissue _ IH]; intros o Hnd.
  - exists o. repeat split; try assumption.
    + now left.
    + intros [H|[]]. exact H.
    + intros p. cbn [issuesOf filter]. destruct (JSMap.get p o); [|reflexivity].
      now rewrite app_nil_r.
  - cbn [groupByFile]. rewrite Hissue.
    set (o1 := match JSMap.get (filePath issue) o with
               | Some fileIssues =>
                   JSMap.set (filePath issue) (fileIssues ++ [issue])%list o
               | None => JSMap.set (filePath issue) [issue] o
               end).
    assert (Hrun : match JSMap.get (filePath issue) o with
                   | Some fileIssues =>
                       groupByFile rest
                         (JSMap.set (filePath issue) (fileIssues ++ [issue])%list o)
                   | None => groupByFile rest (JSMap.set (filePath issue) [issue] o)
                   end = groupByFile rest o1).
    { unfold o1. now destruct (JSMap.get (filePath issue) o). }
    rewrite Hrun.
    assert (Hnd1 : NoDup (map fst o1)).
    { unfold o1. destruct (JSMap.get (filePath issue) o);
        now apply MapFacts.keys_set_NoDup. }
    assert (Hkeys1 : forall p, In p (map fst o1) <-> p = filePath issue \/ In p (map fst o)).
    { intros p. unfold o1. destruct (JSMap.get (filePath issue) o);
        apply MapFacts.keys_set_in. }
    assert (Hget1 : forall p,
               JSMap.get p o1
               = if String.eqb (filePath issue) p
                 then match JSMap.get p o with
                      | Some l => Some (l ++ [issue])%list
                      | None => Some [issue]
                      end
                 else JSMap.get p o).
    { intros p. unfold o1. destruct (String.eqb_spec (filePath issue) p) as [<-|Hne].
      - destruct (JSMap.get (filePath issue) o); now rewrite MapFacts.get_set_same.
      - destruct (JSMap.get (filePath issue) o); now rewrite MapFacts.get_set_other. }
    destruct (IH o1 Hnd1) as [o' [Hgroup [Hnd' [Hkeys' Hget']]]].
    exists o'. split; [exact Hgroup|]. split; [exact Hnd'|]. split.
    + intros p. rewrite Hkeys', Hkeys1. cbn [map In]. intuition.
    + intros p. rewrite Hget', Hget1.
      destruct (String.eqb_spec (filePath issue) p) as [<-|Hne].
      * rewrite issuesOf_cons_same.
        destruct (JSMap.get (filePath issue) o); [now rewrite <- app_assoc | reflexivity].
      * now rewrite (issuesOf_cons_other p issue rest Hne).
Qed.

(** A path that names an inherited property stops the grouping. *)
Lemma group_throws (issues : list Issue) :
  Exists (fun issue => JSObject.inherits (filePath issue) = true) issues ->
  forall o,
    (forall k, In k (map fst o) -> JSObject.inherits k = false) ->
    groupByFile issues o = Throws "issuesByFile[filePath].push is not a function".
Proof.
  induction issues as [|issue rest IH]; intros Hex o Hown.
  - inversion Hex.
  - cbn [groupByFile].
    assert (Hnext : forall v k,
               In k (map fst (JSMap.set (filePath issue) v o)) ->
               JSObject.inherits (filePath issue) = false ->
               JSObject.inherits k = false).
    { intros v k Hk Hpath. apply MapFacts.keys_set_in in Hk.
      destruct Hk as [->|Hk]; [exact Hpath | now apply Hown]. }
    destruct (JSObject.inherits (filePath issue)) eqn:Einh.
    + destruct (JSMap.get (filePath issue) o) as [l|] eqn:Hget; [|reflexivity].
      apply get_keys in Hget. apply Hown in Hget. congruence.
    + assert (Hrest : Exists (fun issue => JSObject.inherits (filePath issue) = true) rest).
      { inversion Hex as [? ? Hhere|]; subst; [congruence | assumption]. }
      destruct (JSMap.get (filePath issue) o) as [l|];
        apply IH; try exact Hrest; intros k Hk; now apply (Hnext _ k Hk).
Qed.

End GroupFacts.

Module KeysFacts.

Lemma insertIndex_perm (key : string * Z) (sorted : list (string * Z)) :
  Permutation (JSObject.insertIndex key sorted) (key :: sorted).
Proof.
  induction sorted as [|k rest IH]; [reflexivity|].
  cbn [JSObject.insertIndex]. destruct (snd key <? snd k)%Z; [reflexivity|].
  rewrite IH. apply perm_swap.
Qed.

Lemma sorted_perm (l : list (string * Z)) :
  Permutation (fold_right JSObject.insertIndex [] l) l.
Proof.
  induction l as [|k l IH]; [reflexivity|].
  cbn [fold_right]. rewrite insertIndex_perm. now constructor.
Qed.

Lemma indexed_names (names : list string) :
  map fst (flat_map JSObject.indexed names) = filter JSObject.isArrayIndex names.
Proof.
  induction names as [|name names IH]; [reflexivity|].
  cbn [flat_map filter]. rewrite map_app, IH.
  unfold JSObject.indexed, JSObject.isArrayIndex.
  now destruct (JSObject.arrayIndex name).
Qed.

Lemma filter_split {A} (p : A -> bool) (l : list A) :
  Permutation (filter p l ++ filter (fun x => negb (p x)) l) l.
Proof.
  induction l as [|a l IH]; [reflexivity|].
  cbn [filter]. destruct (p a); cbn [negb app].
  - now constructor.
  - rewrite <- Permutation_middle. now constructor.
Qed.

(** [Object.keys] gives each own key once. *)
Lemma keys_perm {V} (o : JSMap.t V) : Permutation (JSObject.keys o) (map fst o).
Proof.
  unfold JSObject.keys.
  rewrite (Permutation_map fst (sorted_perm (flat_map JSObject.indexed (map fst o)))).
  rewrite indexed_names. apply filter_split.
Qed.

(** Without array indices among them, the keys come in the order of
    their creation. *)
Lemma keys_creation_order {V} (o : JSMap.t V) :
  Forall (fun name => JSObject.isArrayIndex name = false) (map fst o) ->
  JSObject.keys o = map fst o.
Proof.
  unfold JSObject.keys. generalize (map fst o) as names. intros names Hall.
  assert (Hnone : flat_map JSObject.indexed names = []).
  { induction Hall as [|name names Hname _ IH]; [reflexivity|].
    cbn [flat_map]. rewrite IH. unfold JSObject.indexed.
    unfold JSObject.isArrayIndex in Hname.
    now destruct (JSObject.arrayIndex name). }
  assert (Hkept : filter (fun name => negb (JSObject.isArrayIndex name)) names = names).
  { clear Hnone. induction Hall as [|name names Hname _ IH]; [reflexivity|].
    cbn [filter]. rewrite Hname. cbn [negb]. now rewrite IH. }
  now rewrite Hnone, Hkept.
Qed.

End KeysFacts.

Module DiskFacts.

Lemma table_stores : Fs.stores Fs.table.
Proof.
  intros disk path data. cbn. unfold fileTable. repeat split.
  - now rewrite MapFacts.get_set_same.
  - intros other Hother. rewrite MapFacts.get_set_other; auto.
Qed.

Lemma setAdd_new (paths : list string) :
  forall modified,
    NoDup paths ->
    (forall p, In p paths -> ~ In p modified) ->
    List.length (fold_left (fun s p => setAdd p s) paths modified)
    = List.length modified + List.length paths.
Proof.
  induction paths as [|p paths IH]; intros modified Hnd Hnew; [cbn; lia|].
  inversion Hnd as [|? ? Hp Hnd']; subst. cbn [fold_left].
  assert (Hadd : setAdd p modified = (modified ++ [p])%list).
  { unfold setAdd. destruct (existsb (String.eqb p) modified) eqn:E; [|reflexivity].
    apply existsb_exists in E. destruct E as [x [Hx Heq]].
    apply String.eqb_eq in Heq. subst x. exfalso. apply (Hnew p); [now left | exact Hx]. }
  rewrite Hadd, IH; [rewrite length_app; cbn [List.length]; lia | exact Hnd' |].
  intros q Hq Hin. apply in_app_or in Hin. destruct Hin as [Hin|[<-|[]]].
  - apply (Hnew q); [now right | exact Hin].
  - contradiction.
Qed.

Section WithDisk.
Context {Disk : Type} (fs : Fs.t Disk) (o : JSMap.t (list Issue)).
Hypothesis Hstores : Fs.stores fs.

(** The loop over files that can all be read. *)
Lemma commentFiles_all (paths : list string) :
  NoDup paths ->
  forall disk modified,
    (forall p, In p paths ->
       exists l c, JSMap.get p o = Some l /\ Fs.readFile fs disk p = Returns c) ->
    exists disk',
      commentFiles fs o paths disk modified
      = (disk', Returns (fold_left (fun s p => setAdd p s) paths modified))
      /\ (forall q l c,
            In q paths -> JSMap.get q o = Some l -> Fs.readFile fs disk q = Returns c ->
            Fs.readFile fs disk' q = Returns (commentedText l c))
      /\ (forall q, ~ In q paths -> Fs.readFile fs disk' q = Fs.readFile fs disk q).
Proof.
  induction 1 as [|p paths Hp Hnd IH]; intros disk modified Hall.
  - exists disk. cbn [commentFiles fold_left].
    split; [reflexivity|]. split; [intros ? ? ? [] | reflexivity].
  - destruct (Hall p (or_introl eq_refl)) as [l [c [Hget Hread]]].
    cbn [commentFiles fold_left]. rewrite Hget, Hread.
    destruct (Hstores disk p (commentedText l c)) as [Hwrite [Hback Hframe]].
    rewrite Hwrite.
    set (disk1 := fst (Fs.writeFile fs disk p (commentedText l c))) in *.
    destruct (IH disk1 (setAdd p modified)) as [disk' [Hrun [Hnew Hold]]].
    { intros q Hq. destruct (Hall q (or_intror Hq)) as [l' [c' [Hget' Hread']]].
      exists l', c'. split; [exact Hget'|].
      rewrite Hframe; [exact Hread' | intros ->; contradiction]. }
    exists disk'. split; [exact Hrun|]. split.
    + intros q l' c' [<-|Hq] Hget' Hread'.
      * rewrite Hold by exact Hp. rewrite Hback. congruence.
      * apply Hnew; [exact Hq | exact Hget' |].
        rewrite Hframe; [exact Hread' | intros ->; contradiction].
    + intros q Hq. rewrite Hold by (intros Hin; apply Hq; now right).
      apply Hframe. intros ->. apply Hq. now left.
Qed.

(** The loop up to a file that cannot be read. *)
Lemma commentFiles_stop (before : list string) (p : string) (after : list string)
    (message : string) :
  NoDup (before ++ [p]) ->
  forall disk modified,
    (forall q, In q before ->
       exists l c, JSMap.get q o = Some l /\ Fs.readFile fs disk q = Returns c) ->
    (exists l, JSMap.get p o = Some l) ->
    Fs.readFile fs disk p = Throws message ->
    exists disk',
      commentFiles fs o (before ++ p :: after) disk modified = (disk', Throws message)
      /\ (forall q l c,
            In q before -> JSMap.get q o = Some l -> Fs.readFile fs disk q = Returns c ->
            Fs.readFile fs disk' q = Returns (commentedText l c))
      /\ (forall q, ~ In q before -> Fs.readFile fs disk' q = Fs.readFile fs disk q).
Proof.
  induction before as [|b before IH]; intros Hnd disk modified Hall [lp Hgetp] Hfail.
  - exists disk. cbn [app commentFiles]. rewrite Hgetp, Hfail.
    split; [reflexivity|]. split; [intros ? ? ? [] | reflexivity].
  - cbn [app] in Hnd. inversion Hnd as [|? ? Hb Hnd']; subst.
    destruct (Hall b (or_introl eq_refl)) as [l [c [Hget Hread]]].
    cbn [app commentFiles]. rewrite Hget, Hread.
    destruct (Hstores disk b (commentedText l c)) as [Hwrite [Hback Hframe]].
    rewrite Hwrite.
    set (disk1 := fst (Fs.writeFile fs disk b (commentedText l c))) in *.
    assert (Hbp : p <> b).
    { intros ->. apply Hb. apply in_or_app. right. now left. }
    destruct (IH Hnd' disk1 (setAdd b modified)) as [disk' [Hrun [Hnew Hold]]].
    { intros q Hq. destruct (Hall q (or_intror Hq)) as [l' [c' [Hget' Hread']]].
      exists l', c'. split; [exact Hget'|].
      rewrite Hframe; [exact Hread'|].
      intros ->. apply Hb. apply in_or_app. now left. }
    { now exists lp. }
    { rewrite Hframe; [exact Hfail | exact Hbp]. }
    assert (Hbb : ~ In b before).
    { intros Hin. apply Hb. apply in_or_app. now left. }
    exists disk'. split; [exact Hrun|]. split.
    + intros q l' c' [<-|Hq] Hget' Hread'.
      * rewrite Hold by exact Hbb. rewrite Hback. congruence.
      * apply Hnew; [exact Hq | exact Hget' |].
        rewrite Hframe; [exact Hread' | intros ->; contradiction].
    + intros q Hq. rewrite Hold by (intros Hin; apply Hq; now right).
      apply Hframe. intros ->. apply Hq. now left.
Qed.

End WithDisk.

End DiskFacts.

Module AddFacts.

Lemma filter_all {A} (p : A -> bool) (l : list A) :
  (forall x, In x l -> p x = true) -> filter p l = l.
Proof.
  induction l as [|a l IH]; intros H; [reflexivity|].
  cbn [filter]. rewrite (H a (or_introl eq_refl)), IH; [reflexivity|].
  intros x Hx. apply H. now right.
Qed.

Lemma filter_none {A} (p : A -> bool) (l : list A) :
  (forall x, In x l -> p x = false) -> filter p l = [].
Proof.
  induction l as [|a l IH]; intros H; [reflexivity|].
  cbn [filter]. rewrite (H a (or_introl eq_refl)), IH; [reflexivity|].
  intros x Hx. apply H. now right.
Qed.

Lemma issuesOf_In (issue : Issue) (issues : list Issue) :
  In issue issues -> In issue (issuesOf (filePath issue) issues).
Proof.
  intros H. unfold issuesOf. apply filter_In. split; [exact H | apply String.eqb_refl].
Qed.

(** The object made by the grouping, from the empty object. *)
Lemma grouped (issues : list Issue) :
  Forall (fun issue => JSObject.inherits (filePath issue) = false) issues ->
  exists o,
    groupByFile issues [] = Returns o
    /\ fileOrder issues = JSObject.keys o
    /\ NoDup (fileOrder issues)
    /\ (forall p, In p (fileOrder issues) <-> In p (map filePath issues))
    /\ (forall p, In p (fileOrder issues) -> JSMap.get p o = Some (issuesOf p issues)).
Proof.
  intros Hown.
  destruct (GroupFacts.group_ok issues Hown [] (NoDup_nil _))
    as [o [Hgroup [Hnd [Hkeys Hget]]]].
  assert (Horder : fileOrder issues = JSObject.keys o).
  { unfold fileOrder. now rewrite Hgroup. }
  assert (Hin : forall p, In p (fileOrder issues) <-> In p (map filePath issues)).
  { intros p. rewrite Horder. split.
    - intros H. apply (Permutation_in _ (KeysFacts.keys_perm o)) in H.
      apply Hkeys in H. destruct H as [[]|H]. exact H.
    - intros H. apply (Permutation_in _ (Permutation_sym (KeysFacts.keys_perm o))).
      apply Hkeys. now right. }
  exists o. split; [exact Hgroup|]. split; [exact Horder|]. split; [|split].
  - rewrite Horder.
    apply (Permutation_NoDup (Permutation_sym (KeysFacts.keys_perm o)) Hnd).
  - exact Hin.
  - intros p Hp. apply Hin in Hp. apply in_map_iff in Hp.
    destruct Hp as [issue [<- Hissue]]. rewrite Hget. cbn [JSMap.get].
    apply issuesOf_In in Hissue.
    destruct (issuesOf (filePath issue) issues); [contradiction | reflexivity].
Qed.

End AddFacts.

(** X11. The comment for an issue of a file that parses is one of six
    fixed lines: it starts with the prefix of the tool, holds no line feed,
    and is the same for every issue of the same type, whatever the message
    of the issue. *)
Theorem comment_of_detector_issue_is_one_fixed_line :
  forall (ast : node) (content path : string) (issue : Issue),
    In issue (scanContent (Parsed ast) content path) ->
    prefix "// CLEAN-SLATE: " (generateComment issue) = true
    /\ hasChar JS.LF (generateComment issue) = false
    /\ forall other, type other = type issue ->
         generateComment other = generateComment issue.
Proof.
  intros ast content path issue Hin.
  apply CommentFacts.detector_comment.
  now apply (CommentFacts.parsed_issue_kind ast content path).
Qed.

Lemma comment_of_detector_issue_witness :
  prefix "// CLEAN-SLATE: " (generateComment Samples.returnFirst_issue) = true
  /\ hasChar JS.LF (generateComment Samples.returnFirst_issue) = false
  /\ forall other, type other = type Samples.returnFirst_issue ->
       generateComment other = generateComment Samples.returnFirst_issue.
Proof.
  apply (comment_of_detector_issue_is_one_fixed_line Samples.returnFirst
           Samples.returnFirst_source "sample.js" Samples.returnFirst_issue).
  vm_compute. right. left. reflexivity.
Defined.

(** X12. The lines of a file after the loop over its issues: each line of
    the text, in order, right after the comments for the issues anchored at
    that line, the comment of the last of these issues first. An issue
    whose line is no line of the text leaves no comment. *)
Theorem commented_lines_follow_their_comments :
  forall (fileIssues : list Issue) (lines : list string),
    commentedLines fileIssues lines
    = flat_map (fun nl => rev (commentsAt (fst nl) fileIssues) ++ [snd nl])%list
        (numbered lines).
Proof.
  intros fileIssues lines. unfold commentedLines.
  pose proof (WeaveFacts.loop_weaves lines (JSArray.sort byLineDescending fileIssues)
                (SortFacts.sort_descending fileIssues) []) as H.
  unfold numbered in *. rewrite WeaveFacts.weave_none in H.
  rewrite H by (intros; cbn [In] in *; contradiction).
  cbn [app]. apply WeaveFacts.weave_ext. intros n Hn. unfold commentsAt.
  rewrite WeaveFacts.filter_line_inRange by lia. now rewrite SortFacts.sort_line.
Qed.

(** X13. A file whose issues are all anchored outside of it (at line 0,
    or past its last line) is written back with the text it had. *)
Theorem out_of_range_issues_leave_the_text :
  forall (fileIssues : list Issue) (content : string),
    Forall (fun issue => inRange (List.length (JS.split_LF content)) issue = false)
      fileIssues ->
    commentedText fileIssues content = content.
Proof.
  intros fileIssues content Hout. unfold commentedText.
  rewrite WeaveFacts.commentedLines_weave. unfold numbered.
  rewrite (WeaveFacts.weave_ext (JS.split_LF content) 1 fileIssues []).
  - rewrite WeaveFacts.weave_none. apply TextFacts.join_split.
  - intros n Hn. unfold commentsAt. rewrite AddFacts.filter_none; [reflexivity|].
    intros issue Hissue. rewrite Forall_forall in Hout. specialize (Hout issue Hissue).
    destruct (Nat.eqb_spec (line issue) n) as [Heq|]; [|reflexivity].
    unfold inRange in Hout. apply andb_false_iff in Hout.
    destruct Hout as [H|H]; apply Nat.leb_gt in H; lia.
Qed.

Lemma out_of_range_issues_witness :
  commentedText
    [ {| type := UnreachableCode; filePath := "/work/returnFirst.js"; line := 9;
         message := "Unreachable code after return statement"; code := "" |};
      {| type := SyntaxError; filePath := "/work/returnFirst.js"; line := 0;
         message := "Syntax error: Unexpected token"; code := "" |} ]
    Samples.returnFirst_source
  = Samples.returnFirst_source.
Proof.
  apply (out_of_range_issues_leave_the_text
           [ {| type := UnreachableCode; filePath := "/work/returnFirst.js"; line := 9;
                message := "Unreachable code after return statement"; code := "" |};
             {| type := SyntaxError; filePath := "/work/returnFirst.js"; line := 0;
                message := "Syntax error: Unexpected token"; code := "" |} ]
           Samples.returnFirst_source).
  repeat constructor.
Defined.

(** X14. No line of the text is lost or moved before another: the line
    of number [n] stands, after the loop, below it by the number of issues
    anchored at the lines 1 to [n], and the file grows by the number of
    issues anchored at its lines. *)
Theorem source_lines_move_down_by_the_comments_above :
  forall (fileIssues : list Issue) (lines : list string) (n : nat),
    1 <= n <= List.length lines ->
    nth_error (commentedLines fileIssues lines)
      (n - 1 + List.length (filter (inRange n) fileIssues))
    = nth_error lines (n - 1)
    /\ List.length (commentedLines fileIssues lines)
       = List.length lines
         + List.length (filter (inRange (List.length lines)) fileIssues).
Proof.
  intros fileIssues lines n Hn.
  rewrite WeaveFacts.commentedLines_weave. unfold numbered. split.
  - rewrite <- (ShiftFacts.weave_nth lines 1 fileIssues (n - 1)) by lia.
    rewrite ShiftFacts.inRange_filter.
    replace (S (n - 1)) with n by lia. reflexivity.
  - rewrite ShiftFacts.weave_count. now rewrite ShiftFacts.inRange_filter.
Qed.

Lemma source_lines_move_down_witness :
  nth_error (commentedLines (issuesOf "/work/returnFirst.js" Disk.issues)
               (JS.split_LF Samples.returnFirst_source))
    (3 - 1 + List.length
               (filter (inRange 3) (issuesOf "/work/returnFirst.js" Disk.issues)))
  = nth_error (JS.split_LF Samples.returnFirst_source) (3 - 1)
  /\ List.length (commentedLines (issuesOf "/work/returnFirst.js" Disk.issues)
                    (JS.split_LF Samples.returnFirst_source))
     = List.length (JS.split_LF Samples.returnFirst_source)
       + List.length
           (filter (inRange (List.length (JS.split_LF Samples.returnFirst_source)))
              (issuesOf "/work/returnFirst.js" Disk.issues)).
Proof.
  apply (source_lines_move_down_by_the_comments_above
           (issuesOf "/work/returnFirst.js" Disk.issues)
           (JS.split_LF Samples.returnFirst_source) 3).
  vm_compute. split; repeat constructor.
Defined.

(** X15. On a disk that keeps what is written, with issues whose files
    can all be read (and whose paths name no property that an object
    inherits), [addInlineComments] returns the number of distinct file paths
    of the issues; each of these files then reads as its former text with
    the comments for its own issues, taken in the order of the list, and
    every other file reads as before. *)
Theorem addInlineComments_rewrites_each_file_once :
  forall (Disk : Type) (fs : Fs.t Disk) (issues : list Issue) (disk : Disk),
    Fs.stores fs ->
    Forall (fun issue => JSObject.inherits (filePath issue) = false) issues ->
    Forall (fun issue => exists content,
              Fs.readFile fs disk (filePath issue) = Returns content) issues ->
    exists disk',
      addInlineComments fs issues disk
      = (disk', Returns (List.length (fileOrder issues)))
      /\ NoDup (fileOrder issues)
      /\ (forall p, In p (fileOrder issues) <-> In p (map filePath issues))
      /\ (forall p content,
            In p (fileOrder issues) ->
            Fs.readFile fs disk p = Returns content ->
            Fs.readFile fs disk' p = Returns (commentedText (issuesOf p issues) content))
      /\ (forall p, ~ In p (fileOrder issues) ->
            Fs.readFile fs disk' p = Fs.readFile fs disk p).
Proof.
  intros Disk fs issues disk Hstores Hown Hread.
  destruct (AddFacts.grouped issues Hown) as [o [Hgroup [Horder [Hnd [Hin Hget]]]]].
  destruct (DiskFacts.commentFiles_all fs o Hstores (fileOrder issues) Hnd disk [])
    as [disk' [Hrun [Hnew Hold]]].
  { intros p Hp. exists (issuesOf p issues).
    pose proof (Hget p Hp) as Hgot. apply Hin in Hp. apply in_map_iff in Hp.
    destruct Hp as [issue [<- Hissue]]. rewrite Forall_forall in Hread.
    destruct (Hread issue Hissue) as [content Hcontent].
    exists content. split; assumption. }
  exists disk'. split; [|split; [exact Hnd | split; [exact Hin | split]]].
  - unfold addInlineComments. rewrite Hgroup, <- Horder, Hrun. cbn [fst snd].
    rewrite DiskFacts.setAdd_new; [reflexivity | exact Hnd | intros ? ? []].
  - intros p content Hp Hcontent. apply (Hnew p); [exact Hp | now apply Hget | exact Hcontent].
  - exact Hold.
Qed.

Lemma addInlineComments_rewrites_witness :
  exists disk',
    addInlineComments Fs.table Disk.issues Disk.files
    = (disk', Returns (List.length (fileOrder Disk.issues)))
    /\ NoDup (fileOrder Disk.issues)
    /\ (forall p, In p (fileOrder Disk.issues) <-> In p (map filePath Disk.issues))
    /\ (forall p content,
          In p (fileOrder Disk.issues) ->
          Fs.readFile Fs.table Disk.files p = Returns content ->
          Fs.readFile Fs.table disk' p
          = Returns (commentedText (issuesOf p Disk.issues) content))
    /\ (forall p, ~ In p (fileOrder Disk.issues) ->
          Fs.readFile Fs.table disk' p = Fs.readFile Fs.table Disk.files p).
Proof.
  apply (addInlineComments_rewrites_each_file_once
           (JSMap.t string) Fs.table Disk.issues Disk.files).
  - exact DiskFacts.table_stores.
  - repeat constructor.
  - repeat constructor; eexists; reflexivity.
Defined.

(** X16. When a file cannot be read, [addInlineComments] throws the
    message of the failed read behind its own, and nothing is undone: the
    files taken before it have been rewritten with their comments, and the
    files after it are left as they were. *)
Theorem addInlineComments_stops_at_unreadable_file :
  forall (Disk : Type) (fs : Fs.t Disk) (issues : list Issue) (disk : Disk)
         (before : list string) (file : string) (after : list string)
         (message : string),
    Fs.stores fs ->
    Forall (fun issue => JSObject.inherits (filePath issue) = false) issues ->
    fileOrder issues = (before ++ file :: after)%list ->
    Forall (fun p => exists content, Fs.readFile fs disk p = Returns content) before ->
    Fs.readFile fs disk file = Throws message ->
    exists disk',
      addInlineComments fs issues disk
      = (disk', Throws ("Failed to add inline comments: " ++ message))
      /\ (forall p content,
            In p before ->
            Fs.readFile fs disk p = Returns content ->
            Fs.readFile fs disk' p = Returns (commentedText (issuesOf p issues) content))
      /\ (forall p, ~ In p before -> Fs.readFile fs disk' p = Fs.readFile fs disk p).
Proof.
  intros Disk fs issues disk before file after message
    Hstores Hown Hsplit Hbefore Hfail.
  destruct (AddFacts.grouped issues Hown) as [o [Hgroup [Horder [Hnd [Hin Hget]]]]].
  assert (Hmember : forall p, In p (before ++ [file]) -> In p (fileOrder issues)).
  { intros p Hp. rewrite Hsplit. apply in_app_or in Hp. apply in_or_app.
    destruct Hp as [Hp|[<-|[]]]; [now left | right; now left]. }
  assert (Hnd' : NoDup (before ++ [file])).
  { rewrite Hsplit in Hnd.
    change (file :: after) with ([file] ++ after)%list in Hnd.
    rewrite app_assoc in Hnd. now apply NoDup_app_remove_r in Hnd. }
  destruct (DiskFacts.commentFiles_stop fs o Hstores before file after message
              Hnd' disk [])
    as [disk' [Hrun [Hnew Hold]]].
  { intros q Hq. exists (issuesOf q issues).
    rewrite Forall_forall in Hbefore. destruct (Hbefore q Hq) as [content Hcontent].
    exists content. split; [|exact Hcontent].
    apply Hget, Hmember, in_or_app. now left. }
  { exists (issuesOf file issues). apply Hget, Hmember, in_or_app. right. now left. }
  { exact Hfail. }
  exists disk'. split; [|split].
  - unfold addInlineComments. rewrite Hgroup, <- Horder, Hsplit, Hrun. reflexivity.
  - intros p content Hp Hcontent. apply (Hnew p); [exact Hp | | exact Hcontent].
    apply Hget, Hmember, in_or_app. now left.
  - exact Hold.
Qed.

Lemma addInlineComments_unreadable_witness :
  exists disk',
    addInlineComments Fs.table Disk.issues
      [("/work/returnFirst.js", Samples.returnFirst_source)]
    = (disk', Throws ("Failed to add inline comments: "
                      ++ "ENOENT: no such file or directory, open '/work/broken.js'"))
    /\ (forall p content,
          In p ["/work/returnFirst.js"] ->
          Fs.readFile Fs.table [("/work/returnFirst.js", Samples.returnFirst_source)] p
          = Returns content ->
          Fs.readFile Fs.table disk' p
          = Returns (commentedText (issuesOf p Disk.issues) content))
    /\ (forall p, ~ In p ["/work/returnFirst.js"] ->
          Fs.readFile Fs.table disk' p
          = Fs.readFile Fs.table [("/work/returnFirst.js", Samples.returnFirst_source)] p).
Proof.
  apply (addInlineComments_stops_at_unreadable_file
           (JSMap.t string) Fs.table Disk.issues
           [("/work/returnFirst.js", Samples.returnFirst_source)]
           ["/work/returnFirst.js"] "/work/broken.js" []
           "ENOENT: no such file or directory, open '/work/broken.js'").
  - exact DiskFacts.table_stores.
  - repeat constructor.
  - reflexivity.
  - repeat constructor. eexists. reflexivity.
  - reflexivity.
Defined.

(** X17. An issue whose path is the name of a property that every object
    inherits ([constructor], [toString], [__proto__], ...) makes the
    grouping throw a [TypeError]: [addInlineComments] throws before any
    file is read or written, also the files of the other issues. *)
Theorem addInlineComments_rejects_inherited_names :
  forall (Disk : Type) (fs : Fs.t Disk) (issues : list Issue) (disk : Disk),
    Exists (fun issue => JSObject.inherits (filePath issue) = true) issues ->
    addInlineComments fs issues disk
    = (disk, Throws ("Failed to add inline comments: "
                     ++ "issuesByFile[filePath].push is not a function")).
Proof.
  intros Disk fs issues disk Hex. unfold addInlineComments.
  rewrite (GroupFacts.group_throws issues Hex []); [reflexivity | intros ? []].
Qed.

Lemma addInlineComments_inherited_witness :
  addInlineComments Fs.table
    (Directory.returnFirst_issue
     :: [ {| type := UnusedVariable; filePath := "constructor"; line := 1;
             message := "Unused variable 'a'"; code := "var a = 1;" |} ])
    Disk.files
  = (Disk.files, Throws ("Failed to add inline comments: "
                         ++ "issuesByFile[filePath].push is not a function")).
Proof.
  apply (addInlineComments_rejects_inherited_names (JSMap.t string) Fs.table
           (Directory.returnFirst_issue
            :: [ {| type := UnusedVariable; filePath := "constructor"; line := 1;
                    message := "Unused variable 'a'"; code := "var a = 1;" |} ])
           Disk.files).
  apply Exists_cons_tl. apply Exists_cons_hd. reflexivity.
Defined.

(** X18. Scanning and then commenting: for a file that parses, the text
    written back has, as its lines, the lines of the file with one comment
    line above each line for every issue found at that line; not one issue
    is skipped, so the file grows by as many lines as it has issues. *)
Theorem commenting_a_scanned_file :
  forall (ast : node) (content path : string),
    let issues := scanContent (Parsed ast) content path in
    JS.split_LF (commentedText issues content)
    = flat_map (fun nl => rev (commentsAt (fst nl) issues) ++ [snd nl])%list
        (numbered (JS.split_LF content))
    /\ List.length (JS.split_LF (commentedText issues content))
       = List.length (JS.split_LF content) + List.length issues.
Proof.
  intros ast content path issues.
  assert (Hlines : JS.split_LF (commentedText issues content)
                   = commentedLines issues (JS.split_LF content)).
  { unfold commentedText. apply TextFacts.split_join.
    - rewrite WeaveFacts.commentedLines_weave. unfold numbered.
      pose proof (WeaveFacts.weave_length (JS.split_LF content) 1 issues) as Hlen.
      pose proof (LineFacts.split_LF_length content) as Hone.
      intros Hnil. rewrite Hnil in Hlen. cbn [List.length] in Hlen. lia.
    - apply Forall_forall. intros l Hl.
      rewrite WeaveFacts.commentedLines_weave in Hl. unfold numbered in Hl.
      apply ShiftFacts.weave_In in Hl. destruct Hl as [Hl|[issue [Hissue ->]]].
      + pose proof (TextFacts.split_LF_lines content) as Hall.
        rewrite Forall_forall in Hall. now apply Hall.
      + apply CommentFacts.detector_comment.
        now apply (CommentFacts.parsed_issue_kind ast content path). }
  rewrite Hlines. split; [apply WeaveFacts.commentedLines_weave|].
  rewrite WeaveFacts.commentedLines_weave. unfold numbered.
  rewrite ShiftFacts.weave_count, ShiftFacts.inRange_filter.
  rewrite AddFacts.filter_all; [reflexivity|].
  intros issue Hissue.
  apply (CommentFacts.parsed_issue_within ast content path) in Hissue.
  destruct Hissue as [[Hlow Hhigh] _]. unfold inRange.
  apply andb_true_iff. split; now apply Nat.leb_le.
Qed.

(* ================================================================== *)
(** * The report                                                       *)
(* ================================================================== *)

Module CountFacts.

Lemma countType_other (o : JSMap.t JSValue.t) (issue : Issue) (kind : string) :
  type issue <> kind -> JSMap.get kind (countType o issue) = JSMap.get kind o.
Proof.
  intros Hne. unfold countType.
  destruct (JSMap.get (type issue) o) as [[|[|n]|]|];
    try (now apply MapFacts.get_set_other).
  destruct (JSObject.inherits (type issue));
    [destruct (String.eqb (type issue) "__proto__")|];
    try reflexivity; now apply MapFacts.get_set_other.
Qed.

Lemma countType_same (o : JSMap.t JSValue.t) (issue : Issue) :
  JSObject.inherits (type issue) = false ->
  countedOnce o (type issue) ->
  JSMap.get (type issue) (countType o issue)
  = Some (JSValue.Number (S (shownCount o (type issue)))).
Proof.
  intros Hown [Hnone|[n Hsome]]; unfold countType, shownCount, JSValue.lookup.
  - rewrite Hnone, Hown. apply MapFacts.get_set_same.
  - rewrite Hsome. apply MapFacts.get_set_same.
Qed.

Lemma typeCount_cons (kind : string) (issue : Issue) (rest : list Issue) :
  typeCount kind (issue :: rest)
  = (if String.eqb (type issue) kind then 1 else 0) + typeCount kind rest.
Proof.
  unfold typeCount. cbn [filter]. now destruct (String.eqb (type issue) kind).
Qed.

Lemma counts_from (issues : list Issue) (kind : string) :
  JSObject.inherits kind = false ->
  forall o,
    countedOnce o kind ->
    JSMap.get kind (fold_left countType issues o)
    = match shownCount o kind + typeCount kind issues with
      | 0 => None
      | S k => Some (JSValue.Number (S k))
      end.
Proof.
  intros Hown. induction issues as [|issue rest IH]; intros o Hcounted.
  - cbn [fold_left]. unfold typeCount. cbn [filter List.length]. rewrite Nat.add_0_r.
    unfold shownCount, JSValue.lookup.
    destruct Hcounted as [->|[n ->]]; reflexivity.
  - cbn [fold_left]. rewrite typeCount_cons.
    destruct (String.eqb_spec (type issue) kind) as [Heq|Hne].
    + subst kind. pose proof (countType_same o issue Hown Hcounted) as Hstep.
      rewrite IH by (right; eexists; exact Hstep).
      unfold shownCount at 1. unfold JSValue.lookup. rewrite Hstep.
      replace (S (shownCount o (type issue)) + typeCount (type issue) rest)
        with (shownCount o (type issue) + (1 + typeCount (type issue) rest)) by lia.
      reflexivity.
    + pose proof (countType_other o issue kind Hne) as Hstep.
      rewrite IH by (unfold countedOnce; rewrite Hstep; exact Hcounted).
      unfold shownCount, JSValue.lookup. rewrite Hstep. reflexivity.
Qed.

(** The count of a type that names no inherited property. *)
Lemma countTypes_get (issues : list Issue) (kind : string) :
  JSObject.inherits kind = false ->
  JSMap.get kind (countTypes issues)
  = match typeCount kind issues with
    | 0 => None
    | S k => Some (JSValue.Number (S k))
    end.
Proof.
  intros Hown. unfold countTypes.
  rewrite (counts_from issues kind Hown []); [reflexivity | now left].
Qed.

Lemma countTypes_lookup (issues : list Issue) (kind : string) :
  JSObject.inherits kind = false ->
  JSValue.lookup kind (countTypes issues)
  = match typeCount kind issues with
    | 0 => JSValue.Undefined
    | S k => JSValue.Number (S k)
    end.
Proof.
  intros Hown. unfold JSValue.lookup. rewrite countTypes_get by exact Hown.
  now destruct (typeCount kind issues).
Qed.

Lemma shownCount_countTypes (issues : list Issue) (kind : string) :
  JSObject.inherits kind = false ->
  shownCount (countTypes issues) kind = typeCount kind issues.
Proof.
  intros Hown. unfold shownCount. rewrite countTypes_lookup by exact Hown.
  now destruct (typeCount kind issues).
Qed.

Lemma countType_keys (o : JSMap.t JSValue.t) (issue : Issue) (kind : string) :
  In kind (map fst (countType o issue)) -> kind = type issue \/ In kind (map fst o).
Proof.
  unfold countType.
  destruct (JSMap.get (type issue) o) as [[|[|n]|]|];
    try (now intros H; apply MapFacts.keys_set_in in H).
  destruct (JSObject.inherits (type issue));
    [destruct (String.eqb (type issue) "__proto__")|];
    try (now intros H; apply MapFacts.keys_set_in in H).
  now right.
Qed.

Lemma countType_NoDup (o : JSMap.t JSValue.t) (issue : Issue) :
  NoDup (map fst o) -> NoDup (map fst (countType o issue)).
Proof.
  intros Hnd. unfold countType.
  destruct (JSMap.get (type issue) o) as [[|[|n]|]|];
    try (now apply MapFacts.keys_set_NoDup).
  destruct (JSObject.inherits (type issue));
    [destruct (String.eqb (type issue) "__proto__")|];
    try (now apply MapFacts.keys_set_NoDup).
  exact Hnd.
Qed.

Lemma counts_keys (issues : list Issue) :
  forall o,
    NoDup (map fst o) ->
    NoDup (map fst (fold_left countType issues o))
    /\ forall kind, In kind (map fst (fold_left countType issues o)) ->
         In kind (map fst o) \/ In kind (map type issues).
Proof.
  induction issues as [|issue rest IH]; intros o Hnd.
  - split; [exact Hnd | now left].
  - cbn [fold_left]. destruct (IH (countType o issue) (countType_NoDup o issue Hnd))
      as [Hnd' Hkeys].
    split; [exact Hnd'|]. intros kind Hkind. apply Hkeys in Hkind.
    cbn [map In]. destruct Hkind as [Hkind|Hkind]; [|auto].
    apply countType_keys in Hkind. destruct Hkind as [->|Hkind]; auto.
Qed.

Lemma get_keys_inv {V} (k : string) (m : JSMap.t V) :
  In k (map fst m) -> exists v, JSMap.get k m = Some v.
Proof.
  induction m as [|[k' v'] m IH]; [intros []|].
  cbn [map fst In JSMap.get]. destruct (String.eqb_spec k' k) as [->|Hne].
  - intros _. now exists v'.
  - intros [H|H]; [contradiction | now apply IH].
Qed.

Lemma sum_cons (x : nat) (l : list nat) : list_sum (x :: l) = x + list_sum l.
Proof. reflexivity. Qed.

Lemma list_sum_perm (l l' : list nat) : Permutation l l' -> list_sum l = list_sum l'.
Proof. induction 1; unfold list_sum in *; cbn [fold_right]; lia. Qed.

Lemma sum_indicator (kind : string) (kinds : list string) :
  NoDup kinds ->
  In kind kinds ->
  list_sum (map (fun k => if String.eqb kind k then 1 else 0) kinds) = 1.
Proof.
  induction 1 as [|k kinds Hk Hnd IH]; [contradiction|].
  cbn [map]; rewrite ?sum_cons. intros [->|Hin].
  - rewrite String.eqb_refl.
    assert (Hzero : list_sum (map (fun k => if String.eqb kind k then 1 else 0) kinds) = 0).
    { clear IH Hnd. induction kinds as [|k kinds IHk]; [reflexivity|].
      cbn [map]; rewrite ?sum_cons. destruct (String.eqb_spec kind k) as [->|_].
      - exfalso. apply Hk. now left.
      - rewrite IHk; [reflexivity|]. intros Hin. apply Hk. now right. }
    lia.
  - destruct (String.eqb_spec kind k) as [->|_]; [contradiction|].
    now rewrite (IH Hin).
Qed.

Lemma sum_typeCounts (kinds : list string) (issues : list Issue) :
  NoDup kinds ->
  (forall issue, In issue issues -> In (type issue) kinds) ->
  list_sum (map (fun kind => typeCount kind issues) kinds) = List.length issues.
Proof.
  intros Hnd. induction issues as [|issue rest IH]; intros Hall.
  - unfold typeCount. cbn [filter List.length]. induction kinds; [reflexivity|].
    cbn [map]; rewrite ?sum_cons. inversion Hnd; subst. now rewrite IHkinds.
  - assert (Hsplit : list_sum (map (fun kind => typeCount kind (issue :: rest)) kinds)
                     = list_sum (map (fun k => if String.eqb (type issue) k then 1 else 0)
                                   kinds)
                       + list_sum (map (fun kind => typeCount kind rest) kinds)).
    { clear. induction kinds as [|k kinds IHk]; [reflexivity|].
      cbn [map]; rewrite ?sum_cons. rewrite IHk, typeCount_cons. lia. }
    rewrite Hsplit, sum_indicator, IH; [reflexivity | | exact Hnd |].
    + intros i Hi. apply Hall. now right.
    + apply Hall. now left.
Qed.

End CountFacts.

Module ReportFacts.

Lemma insertSorted_members {A} (compare : A -> A -> Z) (a x : A) (l : list A) :
  In x (JSArray.insertSorted compare a l) -> x = a \/ In x l.
Proof.
  induction l as [|b l IH]; cbn [JSArray.insertSorted].
  - intros [<-|[]]. now left.
  - destruct (compare a b <=? 0)%Z; cbn [In]; intuition.
Qed.

Lemma sort_members {A} (compare : A -> A -> Z) (x : A) (l : list A) :
  In x (JSArray.sort compare l) -> In x l.
Proof.
  induction l as [|a l IH]; [intros []|].
  unfold JSArray.sort in *. cbn [fold_right]. intros H.
  apply insertSorted_members in H. destruct H as [->|H]; [now left | right; auto].
Qed.

(** The loop over the keys of the object never throws. *)
Lemma fileSections_returns (relative : string -> string)
    (issuesByFile : JSMap.t (list Issue)) (filePaths : list string) :
  (forall p, In p filePaths -> In p (map fst issuesByFile)) ->
  forall reportContent,
    exists content, fileSections relative issuesByFile filePaths reportContent
                    = Returns content.
Proof.
  induction filePaths as [|p rest IH]; intros Hown reportContent.
  - now exists reportContent.
  - cbn [fileSections].
    destruct (JSMap.get p issuesByFile) as [fileIssues|] eqn:Hget.
    + apply IH. intros q Hq. apply Hown. now right.
    + exfalso. specialize (Hown p (or_introl eq_refl)).
      clear IH. induction issuesByFile as [|[k v] o IHo]; [contradiction|].
      cbn [JSMap.get] in Hget. destruct (String.eqb_spec k p) as [->|Hne];
        [discriminate|].
      destruct Hown as [Hk|Hin]; [cbn in Hk; congruence | now apply IHo].
Qed.

End ReportFacts.

(** X19. The counts of the section of the types: when no type names an
    inherited property (as for the seven types of the scanner), the section
    has one line for each type that occurs, the count it shows is the
    number of issues of that type, and the counts add up to the total
    number of issues. *)
Theorem type_counts_are_occurrences :
  forall (issues : list Issue),
    Forall (fun issue => JSObject.inherits (type issue) = false) issues ->
    let issueTypes := countTypes issues in
    NoDup (JSObject.keys issueTypes)
    /\ (forall kind, In kind (JSObject.keys issueTypes) <-> In kind (map type issues))
    /\ (forall kind, In kind (JSObject.keys issueTypes) ->
          JSValue.lookup kind issueTypes = JSValue.Number (typeCount kind issues)
          /\ 1 <= typeCount kind issues)
    /\ list_sum (map (shownCount issueTypes) (JSObject.keys issueTypes))
       = List.length issues.
Proof.
  intros issues Hown issueTypes.
  destruct (CountFacts.counts_keys issues [] (NoDup_nil _)) as [Hnd Hkeys].
  fold (countTypes issues) in Hnd, Hkeys. fold issueTypes in Hnd, Hkeys.
  pose proof (KeysFacts.keys_perm issueTypes) as Hperm.
  rewrite Forall_forall in Hown.
  assert (Hin : forall kind, In kind (map fst issueTypes) <-> In kind (map type issues)).
  { intros kind. split.
    - intros H. apply Hkeys in H. destruct H as [[]|H]. exact H.
    - intros H. apply in_map_iff in H. destruct H as [issue [<- Hissue]].
      pose proof (CountFacts.countTypes_get issues (type issue) (Hown issue Hissue)) as Hget.
      assert (Hpos : typeCount (type issue) issues <> 0).
      { unfold typeCount. intros Hzero. apply length_zero_iff_nil in Hzero.
        assert (Hmem : In issue (filter (fun i => String.eqb (type i) (type issue)) issues)).
        { apply filter_In. split; [exact Hissue | apply String.eqb_refl]. }
        rewrite Hzero in Hmem. contradiction. }
      destruct (typeCount (type issue) issues) as [|k]; [contradiction|].
      now apply GroupFacts.get_keys in Hget. }
  assert (Hkind : forall kind, In kind (map fst issueTypes) ->
                               JSObject.inherits kind = false).
  { intros kind H. apply Hin in H. apply in_map_iff in H.
    destruct H as [issue [<- Hissue]]. now apply Hown. }
  split; [|split; [|split]].
  - apply (Permutation_NoDup (Permutation_sym Hperm) Hnd).
  - intros kind. rewrite <- Hin. split; apply Permutation_in;
      [exact Hperm | exact (Permutation_sym Hperm)].
  - intros kind H. apply (Permutation_in _ Hperm) in H.
    pose proof (Hkind kind H) as Hk. unfold issueTypes.
    rewrite CountFacts.countTypes_lookup by exact Hk.
    apply CountFacts.get_keys_inv in H. destruct H as [v Hv].
    unfold issueTypes in Hv. rewrite CountFacts.countTypes_get in Hv by exact Hk.
    destruct (typeCount kind issues); [discriminate | split; [reflexivity | lia]].
  - rewrite (CountFacts.list_sum_perm _ _ (Permutation_map _ Hperm)).
    rewrite (map_ext_in _ (fun kind => typeCount kind issues)).
    + apply CountFacts.sum_typeCounts; [exact Hnd|].
      intros issue Hissue. apply Hin. now apply in_map.
    + intros kind H. apply CountFacts.shownCount_countTypes. now apply Hkind.
Qed.

Lemma type_counts_witness :
  let issueTypes := countTypes Disk.issues in
  NoDup (JSObject.keys issueTypes)
  /\ (forall kind, In kind (JSObject.keys issueTypes) <-> In kind (map type Disk.issues))
  /\ (forall kind, In kind (JSObject.keys issueTypes) ->
        JSValue.lookup kind issueTypes = JSValue.Number (typeCount kind Disk.issues)
        /\ 1 <= typeCount kind Disk.issues)
  /\ list_sum (map (shownCount issueTypes) (JSObject.keys issueTypes))
     = List.length Disk.issues.
Proof.
  apply (type_counts_are_occurrences Disk.issues). repeat constructor.
Defined.

(** X20. The recommendation about unused code is written when there is an
    unused function or an unused variable; it says "are" only when both
    kinds occur, and "is" otherwise, however many issues of the one kind
    there are: the sum of a count and of a missing count is not a number. *)
Theorem unused_advice_says_are_only_for_both_kinds :
  forall (issues : list Issue),
    let unusedFunctions := typeCount "Unused Function" issues in
    let unusedVariables := typeCount "Unused Variable" issues in
    unusedAdvice (countTypes issues)
    = if (unusedFunctions =? 0) && (unusedVariables =? 0) then ""
      else "- **Remove unused code**: There "
           ++ (if (1 <=? unusedFunctions) && (1 <=? unusedVariables) then "are" else "is") ++ " "
           ++ JS.ofNumber unusedFunctions ++ " unused function(s) and "
           ++ JS.ofNumber unusedVariables
           ++ " unused variable(s). Removing them will make your code cleaner and more maintainable."
           ++ nl.
Proof.
  intros issues unusedFunctions unusedVariables. unfold unusedAdvice.
  rewrite !CountFacts.countTypes_lookup by reflexivity.
  fold unusedFunctions. fold unusedVariables.
  destruct unusedFunctions as [|f], unusedVariables as [|v]; try reflexivity.
  unfold JSValue.add, areOrIs, JSValue.moreThanOne.
  replace (S f + S v) with (S (S (f + v))) by lia. reflexivity.
Qed.

(** X21. [generateReport] writes the report and no other file: on a disk
    that keeps what is written, every path but the one of the report reads
    as before; the path of the report is returned, and the report can then
    be read, unless the path of an issue names an inherited property, in
    which case the function throws before it writes. *)
Theorem generateReport_writes_only_the_report :
  forall (Disk : Type) (fs : Fs.t Disk) (reportPath : string)
         (relative : string -> string) (issues : list Issue)
         (scannedDirectory : string) (disk : Disk),
    Fs.stores fs ->
    let result := generateReport fs reportPath relative issues scannedDirectory disk in
    (forall p, p <> reportPath ->
       Fs.readFile fs (fst result) p = Fs.readFile fs disk p)
    /\ (Forall (fun issue => JSObject.inherits (filePath issue) = false) issues ->
        snd result = Returns reportPath
        /\ exists content, Fs.readFile fs (fst result) reportPath = Returns content)
    /\ (Exists (fun issue => JSObject.inherits (filePath issue) = true) issues ->
        result = (disk, Throws ("Failed to generate report: "
                                ++ "issuesByFile[filePath].push is not a function"))).
Proof.
  intros Disk fs reportPath relative issues scannedDirectory disk Hstores result.
  assert (Hcases :
            (exists message, groupByFile issues [] = Throws message
                             /\ result = (disk, Throws ("Failed to generate report: "
                                                        ++ message)))
            \/ (exists content,
                   result = (fst (Fs.writeFile fs disk reportPath content),
                             Returns reportPath))).
  { unfold result, generateReport.
    destruct (groupByFile issues []) as [issuesByFile|message] eqn:Hgroup.
    - right.
      match goal with
      | |- context [fileSections relative issuesByFile ?paths ?start] =>
          destruct (ReportFacts.fileSections_returns relative issuesByFile paths)
            with (reportContent := start) as [content Hsections]
      end.
      { intros p Hp. apply ReportFacts.sort_members in Hp.
        now apply (Permutation_in _ (KeysFacts.keys_perm issuesByFile)). }
      rewrite Hsections.
      match goal with
      | |- context [Fs.writeFile fs disk reportPath ?text] =>
          exists text; destruct (Hstores disk reportPath text) as [Hwrite _];
          rewrite Hwrite
      end.
      reflexivity.
    - left. exists message. split; reflexivity. }
  split; [|split].
  - intros p Hp. destruct Hcases as [[message [_ ->]]|[content ->]]; [reflexivity|].
    cbn [fst]. now apply (Hstores disk reportPath content).
  - intros Hown. destruct Hcases as [[message [Hgroup _]]|[content ->]].
    + destruct (AddFacts.grouped issues Hown) as [o [Hgrouped _]]. congruence.
    + cbn [fst snd]. split; [reflexivity|]. exists content.
      now apply (Hstores disk reportPath content).
  - intros Hex. destruct Hcases as [[message [Hgroup ->]]|[content Hresult]].
    + rewrite (GroupFacts.group_throws issues Hex []) in Hgroup by (intros ? []).
      now injection Hgroup as <-.
    + exfalso. unfold result, generateReport in Hresult.
      rewrite (GroupFacts.group_throws issues Hex []) in Hresult by (intros ? []).
      discriminate.
Qed.

Lemma generateReport_writes_witness :
  let result :=
    generateReport Fs.table "/work/report.md" (fun p => p) Disk.issues "/work"
      Disk.files in
  (forall p, p <> "/work/report.md" ->
     Fs.readFile Fs.table (fst result) p = Fs.readFile Fs.table Disk.files p)
  /\ (Forall (fun issue => JSObject.inherits (filePath issue) = false) Disk.issues ->
      snd result = Returns "/work/report.md"
      /\ exists content,
           Fs.readFile Fs.table (fst result) "/work/report.md" = Returns content)
  /\ (Exists (fun issue => JSObject.inherits (filePath issue) = true) Disk.issues ->
      result = (Disk.files, Throws ("Failed to generate report: "
                                    ++ "issuesByFile[filePath].push is not a function"))).
Proof.
  apply (generateReport_writes_only_the_report (JSMap.t string) Fs.table
           "/work/report.md" (fun p => p) Disk.issues "/work" Disk.files).
  exact DiskFacts.table_stores.
Defined.

(* ================================================================== *)
(** * The runs of the engine                                           *)
(* ================================================================== *)

Module RunFacts.
Import TodoRegex.

(** ** The cells of the runtime *)

Lemma update_length (address value : nat) (cells : list nat) :
  List.length (Runtime.update address value cells) = List.length cells.
Proof.
  revert address. induction cells as [|cell cells IH]; intros [|address];
    cbn [Runtime.update List.length]; auto.
Qed.

Lemma update_same (address value : nat) (cells : list nat) :
  address < List.length cells ->
  nth address (Runtime.update address value cells) 0 = value.
Proof.
  revert address. induction cells as [|cell cells IH]; intros [|address];
    cbn [Runtime.update List.length nth]; intros H; try lia.
  apply IH. lia.
Qed.

Lemma newRegExp_fresh (runtime : Runtime.t) :
  fst (Runtime.newRegExp runtime) < List.length (Runtime.regexps (snd (Runtime.newRegExp runtime)))
  /\ Runtime.lastIndexOf (fst (Runtime.newRegExp runtime)) (snd (Runtime.newRegExp runtime)) = 0.
Proof.
  unfold Runtime.newRegExp, Runtime.lastIndexOf. cbn [fst snd Runtime.regexps].
  rewrite length_app. cbn [List.length]. split; [lia|].
  rewrite app_nth2 by lia. now rewrite Nat.sub_diag.
Qed.

(** ** The text from an offset *)

Lemma from_length (s : string) :
  forall offset, String.length (Run.from offset s) = String.length s - offset.
Proof.
  induction s as [|ch s IH]; intros [|offset]; cbn [Run.from String.length]; auto.
Qed.

Lemma from_from (s : string) :
  forall a b, Run.from a (Run.from b s) = Run.from (b + a) s.
Proof.
  induction s as [|ch s IH]; intros a b.
  - destruct b; cbn [Run.from]; destruct a; reflexivity.
  - destruct b as [|b]; [reflexivity|]. cbn [Run.from Nat.add]. apply IH.
Qed.

(** ** The search against the successive matches *)

Lemma execFrom_skip (s : string) :
  forall at_ toSkip, execFrom s at_ toSkip = execFrom (Run.from toSkip s) (at_ + toSkip) 0.
Proof.
  induction s as [|ch s IH]; intros at_ toSkip.
  - now destruct toSkip.
  - destruct toSkip as [|k].
    + cbn [Run.from]. now rewrite Nat.add_0_r.
    + cbn [execFrom Run.from]. rewrite IH. f_equal. lia.
Qed.

Lemma search_spec (s : string) :
  forall at_ m,
    Run.search s at_ = Some m ->
    at_ <= index m /\ index m + extent m <= at_ + String.length s /\ 1 <= extent m.
Proof.
  induction s as [|ch s IH]; intros at_ m.
  - cbn. discriminate.
  - cbn [Run.search]. destruct (matchHere at_ (String ch s)) as [m'|] eqn:E.
    + intros [= <-]. apply TodoOrderFacts.matchHere_spec in E.
      destruct E as [-> [Hextent _]]. lia.
    + intros H. apply IH in H. cbn [String.length]. lia.
Qed.

(** The matches from an offset: the first one found by the search, then
    the matches from its end. *)
Lemma execFrom_search (s : string) :
  forall at_,
    execFrom s at_ 0
    = match Run.search s at_ with
      | Some m => m :: execFrom (Run.from (index m + extent m - at_) s) (index m + extent m) 0
      | None => []
      end.
Proof.
  induction s as [|ch s IH]; intros at_; [reflexivity|].
  cbn [execFrom Run.search]. destruct (matchHere at_ (String ch s)) as [m|] eqn:E.
  - apply TodoOrderFacts.matchHere_spec in E. destruct E as [Hindex [Hextent _]].
    rewrite execFrom_skip. f_equal.
    replace (index m + extent m - at_) with (S (extent m - 1)) by lia.
    cbn [Run.from]. f_equal. lia.
  - rewrite IH. destruct (Run.search s (S at_)) as [m|] eqn:Es; [|reflexivity].
    apply search_spec in Es.
    replace (index m + extent m - at_) with (S (index m + extent m - S at_)) by lia.
    reflexivity.
Qed.

(** ** The loop *)

(** With enough fuel the loop ends by a failure of [exec]: it has pushed
    the issues of the matches from [lastIndex] on, and has set [lastIndex]
    back to 0. *)
Lemma todoLoop_runs (content filePath : string) (lines : list string) (todoRegex : nat) :
  forall fuel issues runtime,
    todoRegex < List.length (Runtime.regexps runtime) ->
    Runtime.lastIndexOf todoRegex runtime <= String.length content ->
    String.length content - Runtime.lastIndexOf todoRegex runtime < fuel ->
    exists after,
      Run.todoLoop fuel todoRegex content filePath lines issues runtime
      = Some ((issues
               ++ map (todoIssue content filePath lines)
                    (execFrom (Run.from (Runtime.lastIndexOf todoRegex runtime) content)
                       (Runtime.lastIndexOf todoRegex runtime) 0))%list,
              after)
      /\ Runtime.lastIndexOf todoRegex after = 0.
Proof.
  induction fuel as [|fuel IH]; intros issues runtime Hvalid Hbound Hfuel; [lia|].
  cbn [Run.todoLoop]. unfold Run.exec.
  set (lastIndex := Runtime.lastIndexOf todoRegex runtime) in *.
  replace (String.length content <? lastIndex) with false
    by (symmetry; apply Nat.ltb_ge; exact Hbound).
  rewrite execFrom_search.
  destruct (Run.search (Run.from lastIndex content) lastIndex) as [m|] eqn:Es.
  - apply search_spec in Es. rewrite from_length in Es.
    set (after := Runtime.setLastIndex todoRegex (index m + extent m) runtime).
    assert (Hcell : Runtime.lastIndexOf todoRegex after = index m + extent m).
    { unfold after, Runtime.lastIndexOf, Runtime.setLastIndex. cbn [Runtime.regexps].
      now apply update_same. }
    destruct (IH (push issues (todoIssue content filePath lines m)) after)
      as [final [Hrun Hzero]].
    + unfold after, Runtime.setLastIndex. cbn [Runtime.regexps].
      now rewrite update_length.
    + rewrite Hcell. lia.
    + rewrite Hcell. lia.
    + exists final. split; [|exact Hzero].
      etransitivity; [exact Hrun|]. rewrite Hcell. unfold push.
      rewrite <- app_assoc. cbn [map app]. rewrite from_from.
      replace (lastIndex + (index m + extent m - lastIndex)) with (index m + extent m)
        by lia.
      reflexivity.
  - exists (Runtime.setLastIndex todoRegex 0 runtime). split.
    + cbn [map]. now rewrite app_nil_r.
    + unfold Runtime.lastIndexOf, Runtime.setLastIndex. cbn [Runtime.regexps].
      now apply update_same.
Qed.

(** The comment scanner in a runtime: whatever the runtime holds, it
    returns, and pushes the issues of all the matches of the text. *)
Lemma checkForTodoComments_runs (content filePath : string) (lines : list string)
    (issues : list Issue) (runtime : Runtime.t) :
  exists after,
    Run.checkForTodoComments content filePath lines issues runtime
    = Some (checkForTodoComments content filePath lines issues, after).
Proof.
  unfold Run.checkForTodoComments.
  destruct (newRegExp_fresh runtime) as [Hvalid Hzero].
  destruct (Runtime.newRegExp runtime) as [todoRegex fresh]. cbn [fst snd] in *.
  destruct (todoLoop_runs content filePath lines todoRegex
              (S (String.length content)) issues fresh)
    as [after [Hrun _]]; [exact Hvalid | lia | lia |].
  exists after. rewrite Hrun, Hzero. cbn [Run.from].
  now rewrite EngineFacts.checkForTodoComments_eq.
Qed.

(** A run of the engine on one text returns what the engine is on that
    text, whatever the runtime it starts in. *)
Lemma scanContent_runs (parsed : ParseResult) (content filePath : string)
    (runtime : Runtime.t) :
  exists after,
    Run.scanContent parsed content filePath runtime
    = Some (scanContent parsed content filePath, after).
Proof.
  destruct parsed as [ast|loc message].
  - unfold Run.scanContent, scanContent.
    destruct (checkForTodoComments_runs content filePath (JS.split_LF content) [] runtime)
      as [after Hrun].
    rewrite Hrun. now exists after.
  - now exists runtime.
Qed.

Lemma scanFile_runs (readFile : string -> Outcome string)
    (parse : string -> ParseResult) (filePath : string) (runtime : Runtime.t) :
  exists after,
    Run.scanFile readFile parse filePath runtime
    = Some (scanFile readFile parse filePath, after).
Proof.
  unfold Run.scanFile, scanFile. destruct (readFile filePath) as [content|message].
  - destruct (scanContent_runs (parse content) content filePath runtime) as [after Hrun].
    rewrite Hrun. now exists after.
  - now exists runtime.
Qed.

End RunFacts.

(** C9. The engine is deterministic. A run of [scanFile] takes place in a
    runtime that earlier runs have left in some state (the regular
    expression objects they made, each with its [lastIndex]). Two runs on
    the same path, that read the same text and get the same result from
    the parser, end and return the same issues, in the same number and in
    the same order, whatever the states of the runtime they start in; so
    does a run that starts in the state that another run has left. *)
Theorem scanFile_deterministic :
  forall (readFile1 readFile2 : string -> Outcome string)
         (parse1 parse2 : string -> ParseResult) (filePath content : string)
         (runtime1 runtime2 : Runtime.t),
    readFile1 filePath = Returns content ->
    readFile2 filePath = Returns content ->
    parse1 content = parse2 content ->
    exists (issues : list Issue) (after1 after2 after3 : Runtime.t),
      Run.scanFile readFile1 parse1 filePath runtime1 = Some (Returns issues, after1)
      /\ Run.scanFile readFile2 parse2 filePath runtime2 = Some (Returns issues, after2)
      /\ Run.scanFile readFile2 parse2 filePath after1 = Some (Returns issues, after3)
      /\ scanFile readFile1 parse1 filePath = Returns issues.
Proof.
  intros readFile1 readFile2 parse1 parse2 filePath content runtime1 runtime2
    Hread1 Hread2 Hparse.
  destruct (RunFacts.scanFile_runs readFile1 parse1 filePath runtime1) as [after1 Hrun1].
  destruct (RunFacts.scanFile_runs readFile2 parse2 filePath runtime2) as [after2 Hrun2].
  destruct (RunFacts.scanFile_runs readFile2 parse2 filePath after1) as [after3 Hrun3].
  assert (Hsame : scanFile readFile2 parse2 filePath = scanFile readFile1 parse1 filePath).
  { unfold scanFile. now rewrite Hread1, Hread2, Hparse. }
  rewrite Hsame in Hrun2, Hrun3.
  assert (Hreturns : scanFile readFile1 parse1 filePath
                     = Returns (scanContent (parse1 content) content filePath)).
  { unfold scanFile. now rewrite Hread1. }
  rewrite Hreturns in Hrun1, Hrun2, Hrun3.
  exists (scanContent (parse1 content) content filePath), after1, after2, after3.
  auto.
Qed.

Lemma scanFile_deterministic_witness :
  exists (issues : list Issue) (after1 after2 after3 : Runtime.t),
    Run.scanFile (Samples.oneFile "sample.js" Samples.todoThenCode_source)
      (fun _ => Parsed Run.todoThenCode) "sample.js" (Runtime.make [])
    = Some (Returns issues, after1)
    /\ Run.scanFile (fun _ => Returns Samples.todoThenCode_source)
         (fun _ => Parsed Run.todoThenCode) "sample.js" Run.used
       = Some (Returns issues, after2)
    /\ Run.scanFile (fun _ => Returns Samples.todoThenCode_source)
         (fun _ => Parsed Run.todoThenCode) "sample.js" after1
       = Some (Returns issues, after3)
    /\ scanFile (Samples.oneFile "sample.js" Samples.todoThenCode_source)
         (fun _ => Parsed Run.todoThenCode) "sample.js"
       = Returns issues.
Proof.
  apply (scanFile_deterministic
           (Samples.oneFile "sample.js" Samples.todoThenCode_source)
           (fun _ => Returns Samples.todoThenCode_source)
           (fun _ => Parsed Run.todoThenCode) (fun _ => Parsed Run.todoThenCode)
           "sample.js" Samples.todoThenCode_source (Runtime.make []) Run.used);
    reflexivity.
Defined.
